(** * Order execution engine: a shallow embedding of
    [trading-engine/cpp/execution/order_engine.{h,cpp}]

    Conventions of the embedding.

    - [double] is IEEE binary64, i.e. Rocq's primitive [float]; every
      arithmetic operation and comparison of the source on a [double] is the
      corresponding primitive operation, rounded to nearest-even one
      operation at a time (no extended precision, no fused multiply-add), so
      rounding, infinities and NaN are those of the program.
    - [int64_t] and [uint64_t] are [Z] with the wrap-around written out
      ([int64_wrap], [uint64_wrap]).
    - [std::string] is [string]; the [std::unordered_map]s of the engine are
      [gmap string _]; [std::array] and [std::vector] are lists.
    - Orders are held through [std::shared_ptr]: the engine carries a store of
      orders ([orders_store_]) and the active-orders map and the work queue
      hold addresses into it, so that a mutation through one alias is seen
      through the others.
    - The engine is modelled sequentially: one API call is one function from
      state to state.  Readings of [steady_clock] are arguments.  Callbacks
      are recorded as a list of events, emitted when a callback is
      registered. *)

From Stdlib Require Import ZArith List Bool Lia Floats QArith.
From stdpp Require Import base option list gmap strings sorting.

Set Warnings "-inexact-float".
Local Open Scope Z_scope.

(* ===================================================================== *)
(** ** Machine numbers *)
(* ===================================================================== *)

Definition INT64_MIN : Z := - 2 ^ 63.

(** Two's complement wrap-around of a 64-bit signed integer. *)
Definition int64_wrap (z : Z) : Z := (z + 2 ^ 63) mod 2 ^ 64 - 2 ^ 63.

(** Wrap-around of a 64-bit unsigned integer ([uint64_t], [size_t]). *)
Definition uint64_wrap (z : Z) : Z := z mod 2 ^ 64.

(** [static_cast<double>(z)] for an integer [z]: the nearest binary64 value,
    ties to even. *)
Definition int64_to_double (z : Z) : float :=
  SF2Prim (binary_normalize prec emax z 0 false).

(** The integer part of a finite [double], truncated toward zero. *)
Definition double_trunc (x : float) : option Z :=
  match Prim2SF x with
  | S754_zero _ => Some 0
  | S754_finite s m e =>
      let mag := if 0 <=? e then Zpos m * 2 ^ e else Zpos m / 2 ^ (- e) in
      Some (if s then - mag else mag)
  | S754_infinity _ | S754_nan => None
  end.

(** [static_cast<int64_t>(x)]: truncation toward zero.  For NaN, infinities
    and values out of range the conversion is undefined in C++; the model
    takes what x86-64 ([cvttsd2si]) yields, the "integer indefinite"
    value [INT64_MIN]. *)
Definition double_to_int64 (x : float) : Z :=
  match double_trunc x with
  | Some v => if (- 2 ^ 63 <=? v) && (v <? 2 ^ 63) then v else INT64_MIN
  | None => INT64_MIN
  end.

(** [static_cast<size_t>(x)]: truncation toward zero; undefined in C++ for
    NaN, infinities and values out of range, where the model yields [0]. *)
Definition double_to_size_t (x : float) : Z :=
  match double_trunc x with
  | Some v => if (0 <=? v) && (v <? 2 ^ 64) then v else 0
  | None => 0
  end.

(** [std::min(a, b)] is [(b < a) ? b : a]. *)
Definition std_min (a b : float) : float :=
  if (b <? a)%float then b else a.

(* ===================================================================== *)
(** ** The C interface: enumerations ([order_engine.h]) *)
(* ===================================================================== *)

Inductive OrderType :=
  | ORDER_TYPE_MARKET
  | ORDER_TYPE_LIMIT
  | ORDER_TYPE_STOP
  | ORDER_TYPE_STOP_LIMIT
  | ORDER_TYPE_TRAILING_STOP.

Inductive OrderSide :=
  | ORDER_SIDE_BUY
  | ORDER_SIDE_SELL.

Inductive OrderStatus :=
  | ORDER_STATUS_PENDING
  | ORDER_STATUS_SUBMITTED
  | ORDER_STATUS_PARTIALLY_FILLED
  | ORDER_STATUS_FILLED
  | ORDER_STATUS_CANCELLED
  | ORDER_STATUS_REJECTED
  | ORDER_STATUS_EXPIRED.

Inductive TimeInForce :=
  | TIME_IN_FORCE_GTC
  | TIME_IN_FORCE_IOC
  | TIME_IN_FORCE_FOK
  | TIME_IN_FORCE_DAY
  | TIME_IN_FORCE_GTD.

Inductive ExecutionResult :=
  | EXEC_SUCCESS
  | EXEC_ERROR_INVALID_ORDER
  | EXEC_ERROR_INSUFFICIENT_LIQUIDITY
  | EXEC_ERROR_RISK_LIMIT_EXCEEDED
  | EXEC_ERROR_TIMEOUT
  | EXEC_ERROR_SYSTEM_ERROR
  | EXEC_ERROR_ORDER_NOT_FOUND
  | EXEC_ERROR_MARKET_CLOSED.

#[global] Instance OrderType_eq_dec : EqDecision OrderType.
Proof. solve_decision. Defined.
#[global] Instance OrderSide_eq_dec : EqDecision OrderSide.
Proof. solve_decision. Defined.
#[global] Instance OrderStatus_eq_dec : EqDecision OrderStatus.
Proof. solve_decision. Defined.
#[global] Instance TimeInForce_eq_dec : EqDecision TimeInForce.
Proof. solve_decision. Defined.
#[global] Instance ExecutionResult_eq_dec : EqDecision ExecutionResult.
Proof. solve_decision. Defined.

(* ===================================================================== *)
(** ** Price: fixed point, 10^5 ticks per unit *)
(* ===================================================================== *)

Module Price.

Definition TICK_PRECISION : Z := 100000.

Record t := mk { ticks : Z }.

(** [Price::Price(double value)] *)
Definition of_double (value : float) : t :=
  mk (double_to_int64 (value * int64_to_double TICK_PRECISION)%float).

(** [Price::Price(int64_t ticks)] *)
Definition of_ticks (ticks : Z) : t := mk ticks.

Definition add (a b : t) : t := of_ticks (int64_wrap (ticks a + ticks b)).
Definition sub (a b : t) : t := of_ticks (int64_wrap (ticks a - ticks b)).

(** [Price::operator*(double factor)] *)
Definition scale (a : t) (factor : float) : t :=
  of_ticks (double_to_int64 (int64_to_double (ticks a) * factor)%float).

Definition lt (a b : t) : bool := ticks a <? ticks b.
Definition gt (a b : t) : bool := ticks b <? ticks a.
Definition le (a b : t) : bool := ticks a <=? ticks b.
Definition ge (a b : t) : bool := ticks b <=? ticks a.
Definition eq (a b : t) : bool := ticks a =? ticks b.

Definition to_double (a : t) : float :=
  (int64_to_double (ticks a) / int64_to_double TICK_PRECISION)%float.

End Price.

(* ===================================================================== *)
(** ** MemoryPool *)
(* ===================================================================== *)

(** [MemoryPool<T>]: [pool_] is a vector of [size] entries, made once and
    never resized, and [available_] is the queue of the pointers that can
    be handed out.  A pointer into [pool_] is modelled by the index of
    its entry, the null pointer by [None].  The pool never reads or
    writes an entry, so the entries themselves are left out. *)
Module MemoryPool.

Record t := mk { pool_size : nat; available_ : list nat }.

(** [MemoryPool(size)]: every entry is pushed, in the order of the vector. *)
Definition new (size : nat) : t := mk size (seq 0 size).

(** [acquire()]: the front of the queue, or the null pointer. *)
Definition acquire (p : t) : option nat * t :=
  match available_ p with
  | [] => (None, p)
  | ptr :: rest => (Some ptr, mk (pool_size p) rest)
  end.

(** [release(ptr)]: the pointer is pushed at the back, whatever it is. *)
Definition release (p : t) (ptr : nat) : t :=
  mk (pool_size p) (available_ p ++ [ptr]).

End MemoryPool.

(* ===================================================================== *)
(** ** OrderBookLevel *)
(* ===================================================================== *)

Module OrderBookLevel.

Record t := mk { price_ticks_ : Z; size_ : float }.

(** A default-constructed level: [price_ticks_{0}], [size_{0.0}]. *)
Definition empty : t := mk 0 0%float.

Definition set_price_size (l : t) (price : Price.t) (size : float) : t :=
  mk (Price.ticks price) size.

Definition get_price (l : t) : Price.t := Price.of_ticks (price_ticks_ l).
Definition get_size (l : t) : float := size_ l.

Definition is_valid (l : t) : bool :=
  (0 <? price_ticks_ l) && (0 <? size_ l)%float.

End OrderBookLevel.

(* ===================================================================== *)
(** ** OrderBook *)
(* ===================================================================== *)

Module OrderBook.

Definition ORDER_BOOK_DEPTH : nat := 20.

Record t := mk {
  symbol_ : string;
  bids_ : list OrderBookLevel.t;
  asks_ : list OrderBookLevel.t;
  last_update_time_ : Z
}.

(** [OrderBook::OrderBook(symbol)]: two arrays of [ORDER_BOOK_DEPTH]
    default levels. *)
Definition new (symbol : string) : t :=
  mk symbol
     (replicate ORDER_BOOK_DEPTH OrderBookLevel.empty)
     (replicate ORDER_BOOK_DEPTH OrderBookLevel.empty)
     0.

(** The arrays always hold [ORDER_BOOK_DEPTH] levels. *)
Definition well_formed (b : t) : Prop :=
  length (bids_ b) = ORDER_BOOK_DEPTH /\ length (asks_ b) = ORDER_BOOK_DEPTH.

(** [levels[i]] of a [std::array]. *)
Definition level_at (levels : list OrderBookLevel.t) (i : nat) : OrderBookLevel.t :=
  default OrderBookLevel.empty (levels !! i).

(** [now_ns] is the reading of the steady clock. *)
Definition update_bid (b : t) (price : Price.t) (size : float) (level : nat)
    (now_ns : Z) : t :=
  if (ORDER_BOOK_DEPTH <=? level)%nat then b
  else mk (symbol_ b)
          (alter (fun l => OrderBookLevel.set_price_size l price size) level (bids_ b))
          (asks_ b)
          now_ns.

Definition update_ask (b : t) (price : Price.t) (size : float) (level : nat)
    (now_ns : Z) : t :=
  if (ORDER_BOOK_DEPTH <=? level)%nat then b
  else mk (symbol_ b)
          (bids_ b)
          (alter (fun l => OrderBookLevel.set_price_size l price size) level (asks_ b))
          now_ns.

Definition get_best_bid (b : t) : Price.t :=
  OrderBookLevel.get_price (level_at (bids_ b) 0).
Definition get_best_ask (b : t) : Price.t :=
  OrderBookLevel.get_price (level_at (asks_ b) 0).

Definition get_bid_size (b : t) (level : nat) : float :=
  if (ORDER_BOOK_DEPTH <=? level)%nat then 0%float
  else OrderBookLevel.get_size (level_at (bids_ b) level).
Definition get_ask_size (b : t) (level : nat) : float :=
  if (ORDER_BOOK_DEPTH <=? level)%nat then 0%float
  else OrderBookLevel.get_size (level_at (asks_ b) level).

(** [(bid.ticks() + ask.ticks()) / 2]: 64-bit addition, division
    truncating toward zero. *)
Definition get_mid_price (b : t) : Price.t :=
  Price.of_ticks
    (Z.quot (int64_wrap (Price.ticks (get_best_bid b) + Price.ticks (get_best_ask b))) 2).

Definition get_spread (b : t) : float :=
  Price.to_double (Price.sub (get_best_ask b) (get_best_bid b)).

(** The loop of [has_sufficient_liquidity] over one side.  [out_of_limit]
    is the price test that breaks the loop ([price > limit] on the asks,
    [price < limit] on the bids). *)
Fixpoint liquidity_walk (out_of_limit : Price.t -> bool) (quantity : float)
    (available_quantity : float) (levels : list OrderBookLevel.t) : bool :=
  match levels with
  | [] => false
  | level :: rest =>
      if negb (OrderBookLevel.is_valid level) then false
      else if out_of_limit (OrderBookLevel.get_price level) then false
      else
        let available_quantity :=
          (available_quantity + OrderBookLevel.get_size level)%float in
        if (quantity <=? available_quantity)%float then true
        else liquidity_walk out_of_limit quantity available_quantity rest
  end.

Definition has_sufficient_liquidity (b : t) (side : OrderSide) (quantity : float)
    (limit_price : Price.t) : bool :=
  match side with
  | ORDER_SIDE_BUY =>
      liquidity_walk (fun p => Price.gt p limit_price) quantity 0%float (asks_ b)
  | ORDER_SIDE_SELL =>
      liquidity_walk (fun p => Price.lt p limit_price) quantity 0%float (bids_ b)
  end.

(** The loop of [get_fills_for_market_order] over one side. *)
Fixpoint market_walk (remaining_quantity : float) (levels : list OrderBookLevel.t)
    : list (Price.t * float) :=
  match levels with
  | [] => []
  | level :: rest =>
      if negb (OrderBookLevel.is_valid level) || (remaining_quantity <=? 0)%float
      then []
      else
        let fill_quantity := std_min remaining_quantity (OrderBookLevel.get_size level) in
        (OrderBookLevel.get_price level, fill_quantity)
          :: market_walk (remaining_quantity - fill_quantity)%float rest
  end.

Definition get_fills_for_market_order (b : t) (side : OrderSide) (quantity : float)
    : list (Price.t * float) :=
  match side with
  | ORDER_SIDE_BUY => market_walk quantity (asks_ b)
  | ORDER_SIDE_SELL => market_walk quantity (bids_ b)
  end.

End OrderBook.

(* ===================================================================== *)
(** ** The C interface: records ([order_engine.h]) *)
(* ===================================================================== *)

(** The fixed-size character arrays of the C records hold NUL-terminated
    strings; they are modelled by the string they hold. *)

Module COrderRequest.
Record t := mk {
  order_id : string;
  symbol : string;
  order_type : OrderType;
  side : OrderSide;
  quantity : float;
  price : float;
  stop_price : float;
  time_in_force : TimeInForce;
  timestamp_ns : Z;
  client_id : string
}.
End COrderRequest.

Module COrderResponse.
Record t := mk {
  order_id : string;
  result : ExecutionResult;
  status : OrderStatus;
  message : string;
  executed_quantity : float;
  average_price : float;
  execution_time_ns : Z;
  latency_micros : Z
}.
End COrderResponse.

Module CEngineMetrics.
Record t := mk {
  total_orders_processed : Z;
  successful_executions : Z;
  failed_executions : Z;
  active_orders : Z;
  average_latency_micros : float;
  p99_latency_micros : float;
  orders_per_second : float;
  memory_usage_bytes : Z;
  cpu_usage_percent : float;
  uptime_seconds : Z
}.
End CEngineMetrics.

(** [struct OrderFill], the record handed to the fill callback. *)
Module OrderFill.
Record t := mk {
  fill_id : string;
  order_id : string;
  price : float;
  quantity : float;
  fee : float;
  timestamp_ns : Z;
  venue : string
}.
End OrderFill.

(** What the engine tells its client through the registered callbacks. *)
Inductive Event :=
  | FillNotification (fill : OrderFill.t)
  | StatusNotification (order_id : string) (status : OrderStatus) (message : string).

(* ===================================================================== *)
(** ** Order *)
(* ===================================================================== *)

Module Order.

Definition ORDER_TIMEOUT_NS : Z := 30000000000.

Record t := mk {
  order_id_ : string;
  symbol_ : string;
  type_ : OrderType;
  side_ : OrderSide;
  quantity_ : float;
  price_ : Price.t;
  stop_price_ : Price.t;
  time_in_force_ : TimeInForce;
  status_ : OrderStatus;
  filled_quantity_ : float;
  average_fill_price_ticks_ : Z;
  timestamp_ns_ : Z;
  client_id_ : string;
  fills_ : list (Price.t * float)
}.

(** [Order::Order(const COrderRequest&)]; the members not named by the
    constructor take their default initialisers. *)
Definition of_request (request : COrderRequest.t) : t :=
  mk (COrderRequest.order_id request)
     (COrderRequest.symbol request)
     (COrderRequest.order_type request)
     (COrderRequest.side request)
     (COrderRequest.quantity request)
     (Price.of_double (COrderRequest.price request))
     (Price.of_double (COrderRequest.stop_price request))
     (COrderRequest.time_in_force request)
     ORDER_STATUS_PENDING
     0%float
     0
     (COrderRequest.timestamp_ns request)
     (COrderRequest.client_id request)
     [].

Definition get_order_id := order_id_.
Definition get_symbol := symbol_.
Definition get_type := type_.
Definition get_side := side_.
Definition get_quantity := quantity_.
Definition get_price := price_.
Definition get_stop_price := stop_price_.
Definition get_status := status_.
Definition get_filled_quantity := filled_quantity_.

Definition set_status (o : t) (status : OrderStatus) : t :=
  mk (order_id_ o) (symbol_ o) (type_ o) (side_ o) (quantity_ o) (price_ o)
     (stop_price_ o) (time_in_force_ o)
     status
     (filled_quantity_ o) (average_fill_price_ticks_ o) (timestamp_ns_ o)
     (client_id_ o) (fills_ o).

(** [Order::add_fill(price, quantity, fee = 0.0)].  The fee is a
    parameter of the method and is not used by its body. *)
Definition add_fill (o : t) (price : Price.t) (quantity : float) (fee : float) : t :=
  let old_filled := filled_quantity_ o in
  let new_filled := (old_filled + quantity)%float in
  let old_avg_ticks := average_fill_price_ticks_ o in
  let new_avg_ticks :=
    double_to_int64
      (((int64_to_double old_avg_ticks * old_filled)
        + (int64_to_double (Price.ticks price) * quantity)) / new_filled)%float in
  mk (order_id_ o) (symbol_ o) (type_ o) (side_ o) (quantity_ o) (price_ o)
     (stop_price_ o) (time_in_force_ o)
     (if (quantity_ o <=? new_filled)%float
      then ORDER_STATUS_FILLED else ORDER_STATUS_PARTIALLY_FILLED)
     new_filled
     new_avg_ticks
     (timestamp_ns_ o) (client_id_ o)
     (fills_ o ++ [(price, quantity)]).

Definition is_fully_filled (o : t) : bool :=
  (quantity_ o <=? filled_quantity_ o)%float.

Definition is_active (o : t) : bool :=
  bool_decide (status_ o = ORDER_STATUS_SUBMITTED)
  || bool_decide (status_ o = ORDER_STATUS_PARTIALLY_FILLED).

Definition is_expired (o : t) (current_time_ns : Z) : bool :=
  if bool_decide (time_in_force_ o = TIME_IN_FORCE_DAY) then false
  else ORDER_TIMEOUT_NS <? int64_wrap (current_time_ns - timestamp_ns_ o).

Definition get_average_fill_price (o : t) : Price.t :=
  Price.of_ticks (average_fill_price_ticks_ o).

Definition validate (o : t) : bool :=
  if bool_decide (order_id_ o = EmptyString) || bool_decide (symbol_ o = EmptyString)
  then false
  else if (quantity_ o <=? 0)%float then false
  else if bool_decide (type_ o = ORDER_TYPE_LIMIT) && (Price.ticks (price_ o) <=? 0)
  then false
  else if bool_decide (type_ o = ORDER_TYPE_STOP) && (Price.ticks (stop_price_ o) <=? 0)
  then false
  else true.

Definition get_remaining_quantity (o : t) : float :=
  (quantity_ o - filled_quantity_ o)%float.

End Order.

(* ===================================================================== *)
(** ** PerformanceMetrics *)
(* ===================================================================== *)

Module PerformanceMetrics.

Definition MAX_LATENCY_SAMPLES : Z := 10000.

Record t := mk {
  total_orders_processed_ : Z;
  successful_executions_ : Z;
  failed_executions_ : Z;
  active_orders_ : Z;
  total_latency_micros_ : Z;
  total_volume_ : float;
  memory_usage_bytes_ : Z;
  cpu_usage_percent_ : float;
  latency_samples_ : list Z;
  start_time_ : Z
}.

(** [PerformanceMetrics::PerformanceMetrics()]; [now_ns] is the clock
    reading taken by the constructor. *)
Definition new (now_ns : Z) : t :=
  mk 0 0 0 0 0 0%float 0 0%float [] now_ns.

Definition record_order_processed (m : t) (latency_micros : Z) (success : bool) : t :=
  let samples := latency_samples_ m ++ [latency_micros] in
  mk (uint64_wrap (total_orders_processed_ m + 1))
     (if success then uint64_wrap (successful_executions_ m + 1)
      else successful_executions_ m)
     (if success then failed_executions_ m
      else uint64_wrap (failed_executions_ m + 1))
     (active_orders_ m)
     (uint64_wrap (total_latency_micros_ m + latency_micros))
     (total_volume_ m)
     (memory_usage_bytes_ m)
     (cpu_usage_percent_ m)
     (if MAX_LATENCY_SAMPLES <? Z.of_nat (length samples)
      then drop (Z.to_nat (Z.of_nat (length samples) - MAX_LATENCY_SAMPLES)) samples
      else samples)
     (start_time_ m).

Definition record_fill (m : t) (quantity : float) (price : Price.t) : t :=
  mk (total_orders_processed_ m) (successful_executions_ m) (failed_executions_ m)
     (active_orders_ m) (total_latency_micros_ m)
     (total_volume_ m + (quantity * Price.to_double price))%float
     (memory_usage_bytes_ m) (cpu_usage_percent_ m) (latency_samples_ m)
     (start_time_ m).

Definition record_memory_usage (m : t) (bytes : Z) : t :=
  mk (total_orders_processed_ m) (successful_executions_ m) (failed_executions_ m)
     (active_orders_ m) (total_latency_micros_ m) (total_volume_ m)
     bytes (cpu_usage_percent_ m) (latency_samples_ m) (start_time_ m).

Definition record_cpu_usage (m : t) (percentage : float) : t :=
  mk (total_orders_processed_ m) (successful_executions_ m) (failed_executions_ m)
     (active_orders_ m) (total_latency_micros_ m) (total_volume_ m)
     (memory_usage_bytes_ m) percentage (latency_samples_ m) (start_time_ m).

Definition reset (m : t) (now_ns : Z) : t :=
  mk 0 0 0 0 0 0%float 0 0%float [] now_ns.

(** [std::sort] on the copy of the samples. *)
Definition sorted_samples (m : t) : list Z := merge_sort Z.le (latency_samples_ m).

(** [static_cast<size_t>(sorted_samples.size() * 0.99)] *)
Definition p99_index (size : nat) : Z :=
  double_to_size_t (int64_to_double (Z.of_nat size) * 0.99)%float.

(** The clock counts nanoseconds; [duration_cast<seconds>] truncates. *)
Definition uptime (m : t) (now_ns : Z) : Z :=
  Z.quot (now_ns - start_time_ m) 1000000000.

Definition get_metrics (m : t) (now_ns : Z) : CEngineMetrics.t :=
  let total_orders := total_orders_processed_ m in
  let sorted := sorted_samples m in
  let index := p99_index (length sorted) in
  CEngineMetrics.mk
    (total_orders_processed_ m)
    (successful_executions_ m)
    (failed_executions_ m)
    (active_orders_ m)
    (if 0 <? total_orders
     then (int64_to_double (total_latency_micros_ m) / int64_to_double total_orders)%float
     else 0%float)
    (match latency_samples_ m with
     | [] => 0%float
     | _ :: _ =>
         if index <? Z.of_nat (length sorted)
         then int64_to_double (nth (Z.to_nat index) sorted 0)
         else 0%float
     end)
    (if (0 <? total_orders) && (0 <? uptime m now_ns)
     then (int64_to_double total_orders / int64_to_double (uptime m now_ns))%float
     else 0%float)
    (memory_usage_bytes_ m)
    (cpu_usage_percent_ m)
    (uptime m now_ns).

End PerformanceMetrics.

(* ===================================================================== *)
(** ** ExecutionEngine *)
(* ===================================================================== *)

Module ExecutionEngine.

Definition MAX_CONCURRENT_ORDERS : Z := 10000.

Module Config.
Record t := mk {
  max_concurrent_orders : Z;
  order_timeout_ns : Z;
  enable_risk_checks : bool;
  max_position_size : float;
  enable_simulation : bool;
  worker_thread_count : nat
}.
(** The default member initialisers of [struct Config]. *)
Definition default : t :=
  mk MAX_CONCURRENT_ORDERS Order.ORDER_TIMEOUT_NS true 1000000%float true 4.
End Config.

(** The state of an engine.  [worker_threads_] counts the live workers,
    [market_simulator_thread_] tells whether the simulator thread is
    joinable, [fill_callback_] and [status_callback_] whether a callback
    is registered.  [orders_store_] holds the orders the shared pointers
    of [active_orders_] and [order_queue_] point to.  The two memory
    pools are allocated by the constructor and used nowhere. *)
Record t := mk {
  config_ : Config.t;
  worker_threads_ : nat;
  market_simulator_thread_ : bool;
  running_ : bool;
  orders_store_ : list Order.t;
  active_orders_ : gmap string nat;
  order_books_ : gmap string OrderBook.t;
  order_queue_ : list nat;
  metrics_ : PerformanceMetrics.t;
  fill_callback_ : bool;
  status_callback_ : bool;
  initialized_ : bool;
  healthy_ : bool
}.

(** [ExecutionEngine::ExecutionEngine()] *)
Definition new (now_ns : Z) : t :=
  mk Config.default 0 false false [] ∅ ∅ [] (PerformanceMetrics.new now_ns)
     false false false false.

Definition set_order_books (e : t) (books : gmap string OrderBook.t) : t :=
  mk (config_ e) (worker_threads_ e) (market_simulator_thread_ e) (running_ e)
     (orders_store_ e) (active_orders_ e) books (order_queue_ e) (metrics_ e)
     (fill_callback_ e) (status_callback_ e) (initialized_ e) (healthy_ e).

Definition set_initialized (e : t) (b : bool) : t :=
  mk (config_ e) (worker_threads_ e) (market_simulator_thread_ e) (running_ e)
     (orders_store_ e) (active_orders_ e) (order_books_ e) (order_queue_ e)
     (metrics_ e) (fill_callback_ e) (status_callback_ e) b (healthy_ e).

Definition set_metrics (e : t) (m : PerformanceMetrics.t) : t :=
  mk (config_ e) (worker_threads_ e) (market_simulator_thread_ e) (running_ e)
     (orders_store_ e) (active_orders_ e) (order_books_ e) (order_queue_ e)
     m (fill_callback_ e) (status_callback_ e) (initialized_ e) (healthy_ e).

(** The members guarded by [order_mutex_], and the store behind them. *)
Definition set_orders (e : t) (store : list Order.t) (active : gmap string nat)
    (queue : list nat) : t :=
  mk (config_ e) (worker_threads_ e) (market_simulator_thread_ e) (running_ e)
     store active (order_books_ e) queue
     (metrics_ e) (fill_callback_ e) (status_callback_ e) (initialized_ e) (healthy_ e).

Definition seed_symbols : list string :=
  ["AAPL"; "GOOGL"; "MSFT"; "TSLA"; "AMZN"]%string.

(** [ExecutionEngine::initialize]: the configuration string is not
    parsed; every seed symbol is assigned a newly made book. *)
Definition initialize (e : t) (config_json : string) : ExecutionResult * t :=
  let books :=
    foldl (fun books symbol => <[symbol := OrderBook.new symbol]> books)
          (order_books_ e) seed_symbols in
  (EXEC_SUCCESS, set_initialized (set_order_books e books) true).

Definition start (e : t) : ExecutionResult * t :=
  if negb (initialized_ e) then (EXEC_ERROR_SYSTEM_ERROR, e)
  else if running_ e then (EXEC_SUCCESS, e)
  else
    (EXEC_SUCCESS,
     mk (config_ e)
        (worker_threads_ e + Config.worker_thread_count (config_ e))
        (if Config.enable_simulation (config_ e) then true
         else market_simulator_thread_ e)
        true
        (orders_store_ e) (active_orders_ e) (order_books_ e) (order_queue_ e)
        (metrics_ e) (fill_callback_ e) (status_callback_ e) (initialized_ e)
        true).

Definition stop (e : t) : ExecutionResult * t :=
  (EXEC_SUCCESS,
   mk (config_ e) 0 false false
      (orders_store_ e) (active_orders_ e) (order_books_ e) (order_queue_ e)
      (metrics_ e) (fill_callback_ e) (status_callback_ e) (initialized_ e)
      false).

Definition is_healthy (e : t) : bool := healthy_ e && running_ e.

Definition register_fill_callback (e : t) : t :=
  mk (config_ e) (worker_threads_ e) (market_simulator_thread_ e) (running_ e)
     (orders_store_ e) (active_orders_ e) (order_books_ e) (order_queue_ e)
     (metrics_ e) true (status_callback_ e) (initialized_ e) (healthy_ e).

Definition register_status_callback (e : t) : t :=
  mk (config_ e) (worker_threads_ e) (market_simulator_thread_ e) (running_ e)
     (orders_store_ e) (active_orders_ e) (order_books_ e) (order_queue_ e)
     (metrics_ e) (fill_callback_ e) true (initialized_ e) (healthy_ e).

(** The record built for the fill callback in [execute_market_order]. *)
Definition market_fill (order : Order.t) (fill : Price.t * float) (now_ns : Z)
    : OrderFill.t :=
  OrderFill.mk "fill_123" (Order.get_order_id order)
               (Price.to_double (fst fill)) (snd fill)
               (snd fill * 0.001)%float now_ns "SIM".

(** The loop "Process fills" of [execute_market_order]; [clock k] is the
    clock reading taken for the [k]-th fill of the call. *)
Fixpoint process_fills (callback : bool) (clock : nat -> Z) (k : nat)
    (order : Order.t) (fills : list (Price.t * float)) : Order.t * list Event :=
  match fills with
  | [] => (order, [])
  | fill :: rest =>
      let order := Order.add_fill order (fst fill) (snd fill) 0%float in
      let notified :=
        if callback then [FillNotification (market_fill order fill (clock k))]
        else [] in
      let '(order, events) := process_fills callback clock (S k) order rest in
      (order, notified ++ events)
  end.

Definition execute_market_order (e : t) (clock : nat -> Z) (order : Order.t)
    : ExecutionResult * Order.t * list Event :=
  match order_books_ e !! Order.get_symbol order with
  | None => (EXEC_ERROR_INVALID_ORDER, order, [])
  | Some book =>
      let fills :=
        OrderBook.get_fills_for_market_order book (Order.get_side order)
                                             (Order.get_quantity order) in
      match fills with
      | [] => (EXEC_ERROR_INSUFFICIENT_LIQUIDITY, order, [])
      | _ :: _ =>
          let '(order, events) := process_fills (fill_callback_ e) clock 0 order fills in
          (EXEC_SUCCESS, order, events)
      end
  end.

Definition execute_limit_order (e : t) (order : Order.t)
    : ExecutionResult * Order.t * list Event :=
  match order_books_ e !! Order.get_symbol order with
  | None => (EXEC_ERROR_INVALID_ORDER, order, [])
  | Some book =>
      let best_price :=
        if bool_decide (Order.get_side order = ORDER_SIDE_BUY)
        then OrderBook.get_best_ask book else OrderBook.get_best_bid book in
      let can_fill :=
        (bool_decide (Order.get_side order = ORDER_SIDE_BUY)
         && Price.ge (Order.get_price order) best_price)
        || (bool_decide (Order.get_side order = ORDER_SIDE_SELL)
            && Price.le (Order.get_price order) best_price) in
      if can_fill
         && OrderBook.has_sufficient_liquidity book (Order.get_side order)
              (Order.get_quantity order) (Order.get_price order)
      then (EXEC_SUCCESS,
            Order.add_fill order (Order.get_price order) (Order.get_quantity order) 0%float,
            [])
      else (EXEC_SUCCESS, Order.set_status order ORDER_STATUS_SUBMITTED, [])
  end.

Definition execute_stop_order (e : t) (order : Order.t)
    : ExecutionResult * Order.t * list Event :=
  match order_books_ e !! Order.get_symbol order with
  | None => (EXEC_ERROR_INVALID_ORDER, order, [])
  | Some book =>
      let current_price := OrderBook.get_mid_price book in
      let triggered :=
        (bool_decide (Order.get_side order = ORDER_SIDE_BUY)
         && Price.ge current_price (Order.get_stop_price order))
        || (bool_decide (Order.get_side order = ORDER_SIDE_SELL)
            && Price.le current_price (Order.get_stop_price order)) in
      if triggered
      then (EXEC_SUCCESS,
            Order.add_fill order current_price (Order.get_quantity order) 0%float,
            [])
      else (EXEC_SUCCESS, Order.set_status order ORDER_STATUS_SUBMITTED, [])
  end.

(** The [switch] of [submit_order] on the order type. *)
Definition dispatch (e : t) (clock : nat -> Z) (order : Order.t)
    : ExecutionResult * Order.t * list Event :=
  match Order.get_type order with
  | ORDER_TYPE_MARKET => execute_market_order e clock order
  | ORDER_TYPE_LIMIT => execute_limit_order e order
  | ORDER_TYPE_STOP => execute_stop_order e order
  | ORDER_TYPE_STOP_LIMIT | ORDER_TYPE_TRAILING_STOP =>
      (EXEC_ERROR_INVALID_ORDER, order, [])
  end.

Definition set_response_error (r : COrderResponse.t) (result : ExecutionResult)
    (message : string) : COrderResponse.t :=
  COrderResponse.mk (COrderResponse.order_id r) result (COrderResponse.status r)
                    message
                    (COrderResponse.executed_quantity r)
                    (COrderResponse.average_price r)
                    (COrderResponse.execution_time_ns r)
                    (COrderResponse.latency_micros r).

(** [ExecutionEngine::submit_order(request, response)].  [response] is
    the caller's record, written in place; [start_time] and [end_time]
    are the two clock readings of the call, in nanoseconds, and [clock]
    gives the readings taken for the fill notifications.  The order is
    made by [std::make_shared]: it is stored at a fresh address, under
    which the map and the queue refer to it, and the matching routine
    mutates it there. *)
Definition submit_order (e : t) (request : COrderRequest.t)
    (response : COrderResponse.t) (start_time end_time : Z) (clock : nat -> Z)
    : ExecutionResult * t * COrderResponse.t * list Event :=
  let response :=
    COrderResponse.mk (COrderRequest.order_id request) EXEC_SUCCESS
                      ORDER_STATUS_SUBMITTED (COrderResponse.message response)
                      0%float 0%float 0 (COrderResponse.latency_micros response) in
  let order := Order.of_request request in
  if negb (Order.validate order) then
    (EXEC_ERROR_INVALID_ORDER, e,
     set_response_error response EXEC_ERROR_INVALID_ORDER "Invalid order parameters",
     [])
  else if Config.enable_risk_checks (config_ e)
          && (Config.max_position_size (config_ e) <? Order.get_quantity order)%float
  then
    (EXEC_ERROR_RISK_LIMIT_EXCEEDED, e,
     set_response_error response EXEC_ERROR_RISK_LIMIT_EXCEEDED
                        "Order size exceeds risk limits",
     [])
  else
    let address := length (orders_store_ e) in
    let e :=
      set_orders e (orders_store_ e ++ [order])
                 (<[Order.get_order_id order := address]> (active_orders_ e))
                 (order_queue_ e ++ [address]) in
    let '(exec_result, order, events) := dispatch e clock order in
    let e :=
      set_orders e (<[address := order]> (orders_store_ e))
                 (active_orders_ e) (order_queue_ e) in
    let latency := Z.quot (end_time - start_time) 1000 in
    let response :=
      COrderResponse.mk (COrderResponse.order_id response)
                        exec_result
                        (Order.get_status order)
                        (COrderResponse.message response)
                        (Order.get_filled_quantity order)
                        (Price.to_double (Order.get_average_fill_price order))
                        end_time
                        latency in
    let metrics :=
      PerformanceMetrics.record_order_processed
        (metrics_ e) latency (bool_decide (exec_result = EXEC_SUCCESS)) in
    let metrics :=
      if bool_decide (exec_result = EXEC_SUCCESS)
         && (0 <? COrderResponse.executed_quantity response)%float
      then PerformanceMetrics.record_fill
             metrics (COrderResponse.executed_quantity response)
             (Price.of_double (COrderResponse.average_price response))
      else metrics in
    (exec_result, set_metrics e metrics, response, events).

(** [ExecutionEngine::cancel_order(order_id)].  A shared pointer of the
    map always points to an order; the branch for an address outside
    the store is there to make the function total and is never taken
    from a state the engine produces (see [store_ok]). *)
Definition cancel_order (e : t) (order_id : string)
    : ExecutionResult * t * list Event :=
  match active_orders_ e !! order_id with
  | None => (EXEC_ERROR_ORDER_NOT_FOUND, e, [])
  | Some address =>
      match orders_store_ e !! address with
      | None => (EXEC_ERROR_SYSTEM_ERROR, e, [])
      | Some order =>
          if negb (Order.is_active order) then (EXEC_ERROR_INVALID_ORDER, e, [])
          else
            (EXEC_SUCCESS,
             set_orders e
               (<[address := Order.set_status order ORDER_STATUS_CANCELLED]>
                  (orders_store_ e))
               (delete order_id (active_orders_ e))
               (order_queue_ e),
             if status_callback_ e
             then [StatusNotification order_id ORDER_STATUS_CANCELLED "Order cancelled"]
             else [])
      end
  end.

(** Every address of the active-orders map is allocated. *)
Definition store_ok (e : t) : Prop :=
  forall order_id address,
    active_orders_ e !! order_id = Some address ->
    (address < length (orders_store_ e))%nat.

(** [ExecutionEngine::get_order_book(symbol, book)]: copies the top of
    the engine's book into the caller's [book]. *)
Definition get_order_book (e : t) (symbol : string) (book : OrderBook.t)
    (now_ns : Z) : ExecutionResult * OrderBook.t :=
  match order_books_ e !! symbol with
  | None => (EXEC_ERROR_INVALID_ORDER, book)
  | Some source =>
      let book :=
        if 0 <? Price.ticks (OrderBook.get_best_bid source)
        then OrderBook.update_bid book (OrderBook.get_best_bid source)
                                  (OrderBook.get_bid_size source 0) 0 now_ns
        else book in
      let book :=
        if 0 <? Price.ticks (OrderBook.get_best_ask source)
        then OrderBook.update_ask book (OrderBook.get_best_ask source)
                                  (OrderBook.get_ask_size source 0) 0 now_ns
        else book in
      (EXEC_SUCCESS, book)
  end.

(** [ExecutionEngine::get_metrics()]: the snapshot of the metrics
    object, stamped with the size of the active-orders map. *)
Definition get_metrics (e : t) (now_ns : Z) : CEngineMetrics.t :=
  let metrics := PerformanceMetrics.get_metrics (metrics_ e) now_ns in
  CEngineMetrics.mk
    (CEngineMetrics.total_orders_processed metrics)
    (CEngineMetrics.successful_executions metrics)
    (CEngineMetrics.failed_executions metrics)
    (Z.of_nat (size (active_orders_ e)))
    (CEngineMetrics.average_latency_micros metrics)
    (CEngineMetrics.p99_latency_micros metrics)
    (CEngineMetrics.orders_per_second metrics)
    (CEngineMetrics.memory_usage_bytes metrics)
    (CEngineMetrics.cpu_usage_percent metrics)
    (CEngineMetrics.uptime_seconds metrics).

(** One turn of the outer loop of [process_order_queue], run by a worker
    once its wait returns: while the engine runs, every queued order is
    popped and dropped; when it does not, the worker leaves the loop. *)
Definition process_order_queue (e : t) : t :=
  if running_ e then set_orders e (orders_store_ e) (active_orders_ e) [] else e.

(** One turn of the inner loop of [simulate_market_data] for [symbol]:
    [price] is the simulator's current price of the symbol and [change]
    the number drawn from the generator.  It returns the new price and
    the engine with the book of the symbol updated at level 0. *)
Definition simulate_symbol (e : t) (symbol : string) (price : Price.t)
    (change : float) (now_ns : Z) : Price.t * t :=
  let price := Price.scale price (1.0 + change)%float in
  match order_books_ e !! symbol with
  | None => (price, e)
  | Some book =>
      let bid := Price.scale price 0.999%float in
      let ask := Price.scale price 1.001%float in
      let book := OrderBook.update_bid book bid 1000%float 0 now_ns in
      let book := OrderBook.update_ask book ask 1000%float 0 now_ns in
      (price, set_order_books e (<[symbol := book]> (order_books_ e)))
  end.

End ExecutionEngine.

(* ===================================================================== *)
(** ** The C API over the global engine *)
(* ===================================================================== *)

Module COrderBook.
Record t := mk {
  symbol : string;
  timestamp_ns : Z;
  bid_price : float;
  ask_price : float;
  bid_size : float;
  ask_size : float;
  last_price : float;
  last_size : float
}.
End COrderBook.

(** The functions [engine_*] of the C interface.  The global [g_engine] is
    the first argument and the last component of each result: [None] is
    the null [unique_ptr].  A pointer argument is an [option], [None]
    being the null pointer; a callback argument is [true] when the
    function pointer is not null. *)
Module CApi.

Definition engine_initialize (g_engine : option ExecutionEngine.t)
    (config_json : option string) (now_ns : Z)
    : ExecutionResult * option ExecutionEngine.t :=
  let engine :=
    match g_engine with
    | Some engine => engine
    | None => ExecutionEngine.new now_ns
    end in
  let config := default EmptyString config_json in
  let '(result, engine) := ExecutionEngine.initialize engine config in
  (result, Some engine).

Definition engine_start (g_engine : option ExecutionEngine.t)
    : ExecutionResult * option ExecutionEngine.t :=
  match g_engine with
  | None => (EXEC_ERROR_SYSTEM_ERROR, None)
  | Some engine =>
      let '(result, engine) := ExecutionEngine.start engine in (result, Some engine)
  end.

(** [engine_stop]: the engine is stopped and then destroyed. *)
Definition engine_stop (g_engine : option ExecutionEngine.t)
    : ExecutionResult * option ExecutionEngine.t :=
  match g_engine with
  | None => (EXEC_SUCCESS, None)
  | Some engine => ((ExecutionEngine.stop engine).1, None)
  end.

Definition engine_submit_order (g_engine : option ExecutionEngine.t)
    (request : option COrderRequest.t) (response : option COrderResponse.t)
    (start_time end_time : Z) (clock : nat -> Z)
    : ExecutionResult * option COrderResponse.t * list Event
      * option ExecutionEngine.t :=
  match g_engine, request, response with
  | Some engine, Some request, Some response =>
      let '(result, engine, response, events) :=
        ExecutionEngine.submit_order engine request response start_time end_time clock in
      (result, Some response, events, Some engine)
  | _, _, _ => (EXEC_ERROR_SYSTEM_ERROR, response, [], g_engine)
  end.

Definition engine_cancel_order (g_engine : option ExecutionEngine.t)
    (order_id : option string)
    : ExecutionResult * list Event * option ExecutionEngine.t :=
  match g_engine, order_id with
  | Some engine, Some order_id =>
      let '(result, engine, events) := ExecutionEngine.cancel_order engine order_id in
      (result, events, Some engine)
  | _, _ => (EXEC_ERROR_SYSTEM_ERROR, [], g_engine)
  end.

(** [engine_get_order_book(symbol, book)]: the top of the engine's book is
    copied into a new [OrderBook] and read back from it into the
    caller's record, which is written only on success.  [strncpy] copies
    at most 15 characters of the symbol. *)
Definition engine_get_order_book (g_engine : option ExecutionEngine.t)
    (symbol : option string) (book : option COrderBook.t) (now_ns : Z)
    : ExecutionResult * option COrderBook.t :=
  match g_engine, symbol, book with
  | Some engine, Some symbol, Some book =>
      let '(result, cpp_book) :=
        ExecutionEngine.get_order_book engine symbol (OrderBook.new symbol) now_ns in
      if bool_decide (result = EXEC_SUCCESS)
      then (result,
            Some (COrderBook.mk
                    (String.substring 0 15 symbol)
                    (OrderBook.last_update_time_ cpp_book)
                    (Price.to_double (OrderBook.get_best_bid cpp_book))
                    (Price.to_double (OrderBook.get_best_ask cpp_book))
                    (OrderBook.get_bid_size cpp_book 0)
                    (OrderBook.get_ask_size cpp_book 0)
                    (Price.to_double (OrderBook.get_mid_price cpp_book))
                    0%float))
      else (result, Some book)
  | _, _, _ => (EXEC_ERROR_SYSTEM_ERROR, book)
  end.

Definition engine_get_metrics (g_engine : option ExecutionEngine.t)
    (metrics : option CEngineMetrics.t) (now_ns : Z)
    : ExecutionResult * option CEngineMetrics.t :=
  match g_engine, metrics with
  | Some engine, Some _ =>
      (EXEC_SUCCESS, Some (ExecutionEngine.get_metrics engine now_ns))
  | _, _ => (EXEC_ERROR_SYSTEM_ERROR, metrics)
  end.

Definition engine_is_healthy (g_engine : option ExecutionEngine.t) : Z :=
  match g_engine with
  | None => 0
  | Some engine => if ExecutionEngine.is_healthy engine then 1 else 0
  end.

Definition engine_register_fill_callback (g_engine : option ExecutionEngine.t)
    (callback : bool) : ExecutionResult * option ExecutionEngine.t :=
  match g_engine with
  | None => (EXEC_ERROR_SYSTEM_ERROR, None)
  | Some engine =>
      (EXEC_SUCCESS,
       Some (if callback then ExecutionEngine.register_fill_callback engine else engine))
  end.

Definition engine_register_status_callback (g_engine : option ExecutionEngine.t)
    (callback : bool) : ExecutionResult * option ExecutionEngine.t :=
  match g_engine with
  | None => (EXEC_ERROR_SYSTEM_ERROR, None)
  | Some engine =>
      (EXEC_SUCCESS,
       Some (if callback then ExecutionEngine.register_status_callback engine else engine))
  end.

End CApi.

(* ===================================================================== *)
(** ** The vocabulary of the specification *)
(* ===================================================================== *)

(** The definitions of this part are not functions of the program: they
    are the notions the theorems below are stated with, and follow the
    words of the specification. *)

Section Vocabulary.

Local Open Scope string_scope.

(** When [Order::validate] fails, in the words of the specification. *)
Definition validation_fails (order : Order.t) : Prop :=
  Order.order_id_ order = ""
  \/ Order.symbol_ order = ""
  \/ (Order.quantity_ order <=? 0)%float = true
  \/ (Order.type_ order = ORDER_TYPE_LIMIT /\ Price.ticks (Order.price_ order) <= 0)
  \/ (Order.type_ order = ORDER_TYPE_STOP /\ Price.ticks (Order.stop_price_ order) <= 0).

(** The response [submit_order] leaves behind when validation fails. *)
Definition invalid_order_response (request : COrderRequest.t)
    (response : COrderResponse.t) : COrderResponse.t :=
  COrderResponse.mk (COrderRequest.order_id request)
                    EXEC_ERROR_INVALID_ORDER
                    ORDER_STATUS_SUBMITTED
                    "Invalid order parameters"
                    0%float 0%float 0
                    (COrderResponse.latency_micros response).

(** The order after the fills of a market order have been added, one
    [add_fill] per emitted pair, in order. *)
Definition add_fills (order : Order.t) (fills : list (Price.t * float)) : Order.t :=
  foldl (fun o fill => Order.add_fill o (fst fill) (snd fill) 0%float) order fills.

(** The notification of the [k]-th emitted pair of a market order. *)
Definition fill_notification (order : Order.t) (clock : nat -> Z) (k : nat)
    (fill : Price.t * float) : Event :=
  FillNotification
    (OrderFill.mk "fill_123" (Order.order_id_ order)
                  (Price.to_double (fst fill)) (snd fill)
                  (snd fill * 0.001)%float (clock k) "SIM").

(** The side of the book an order of side [side] trades against. *)
Definition opposing_levels (b : OrderBook.t) (side : OrderSide) : list OrderBookLevel.t :=
  match side with
  | ORDER_SIDE_BUY => OrderBook.asks_ b
  | ORDER_SIDE_SELL => OrderBook.bids_ b
  end.

(** A price is acceptable when it is [<= limit] for a buy and [>= limit]
    for a sell. *)
Definition acceptable_price (side : OrderSide) (limit_price price : Price.t) : bool :=
  match side with
  | ORDER_SIDE_BUY => Price.le price limit_price
  | ORDER_SIDE_SELL => Price.ge price limit_price
  end.

(** The longest prefix of a list whose elements all pass [f]. *)
Fixpoint take_while {A : Type} (f : A -> bool) (l : list A) : list A :=
  match l with
  | [] => []
  | x :: rest => if f x then x :: take_while f rest else []
  end.

(** The levels the walk accumulates: those from level 0 up to the first
    invalid or out-of-limit level. *)
Definition acceptable_run (b : OrderBook.t) (side : OrderSide) (limit_price : Price.t)
    : list OrderBookLevel.t :=
  take_while
    (fun level =>
       OrderBookLevel.is_valid level
       && acceptable_price side limit_price (OrderBookLevel.get_price level))
    (opposing_levels b side).

(** The running totals [total + s1], [total + s1 + s2], ... of the sizes,
    added in double arithmetic from the left. *)
Fixpoint running_totals (total : float) (sizes : list float) : list float :=
  match sizes with
  | [] => []
  | size :: rest =>
      let total := (total + size)%float in total :: running_totals total rest
  end.

(** The size accumulated over a whole run. *)
Definition accumulated_size (levels : list OrderBookLevel.t) : float :=
  foldl (fun total level => (total + OrderBookLevel.get_size level)%float) 0%float levels.

(** The reference price of a limit order: the best ask for a buy, the
    best bid for a sell. *)
Definition reference_price (book : OrderBook.t) (side : OrderSide) : Price.t :=
  match side with
  | ORDER_SIDE_BUY => OrderBook.get_best_ask book
  | ORDER_SIDE_SELL => OrderBook.get_best_bid book
  end.

(** (BUY and limit >= ref) or (SELL and limit <= ref). *)
Definition limit_crosses (side : OrderSide) (limit_price ref : Price.t) : bool :=
  (bool_decide (side = ORDER_SIDE_BUY) && Price.ge limit_price ref)
  || (bool_decide (side = ORDER_SIDE_SELL) && Price.le limit_price ref).

(** (BUY and p >= stop) or (SELL and p <= stop). *)
Definition stop_triggered (side : OrderSide) (p stop_price : Price.t) : bool :=
  (bool_decide (side = ORDER_SIDE_BUY) && Price.ge p stop_price)
  || (bool_decide (side = ORDER_SIDE_SELL) && Price.le p stop_price).

(** The average fill price [add_fill] computes for the first fill of an
    order, of [quantity] at [price]: the size-weighted mean evaluated in
    double arithmetic and truncated to ticks. *)
Definition first_fill_average (price : Price.t) (quantity : float) : Z :=
  double_to_int64
    (((int64_to_double 0 * 0) + (int64_to_double (Price.ticks price) * quantity))
     / quantity)%float.

(** The risk check of [submit_order] lets the order through. *)
Definition passes_risk_check (e : ExecutionEngine.t) (order : Order.t) : bool :=
  negb (ExecutionEngine.Config.enable_risk_checks (ExecutionEngine.config_ e)
        && (ExecutionEngine.Config.max_position_size (ExecutionEngine.config_ e)
            <? Order.quantity_ order)%float).

(** [recorded n m]: the metrics object [m] is reached from its
    construction by calls of its methods, with [n] orders recorded since
    it was made or last reset. *)
Inductive recorded : nat -> PerformanceMetrics.t -> Prop :=
  | recorded_new now_ns :
      recorded 0 (PerformanceMetrics.new now_ns)
  | recorded_reset n m now_ns :
      recorded n m -> recorded 0 (PerformanceMetrics.reset m now_ns)
  | recorded_order n m latency_micros success :
      recorded n m ->
      recorded (S n) (PerformanceMetrics.record_order_processed m latency_micros success)
  | recorded_fill n m quantity price :
      recorded n m -> recorded n (PerformanceMetrics.record_fill m quantity price)
  | recorded_memory_usage n m bytes :
      recorded n m -> recorded n (PerformanceMetrics.record_memory_usage m bytes)
  | recorded_cpu_usage n m percentage :
      recorded n m -> recorded n (PerformanceMetrics.record_cpu_usage m percentage).

(** The sample the specification reports as P99 of a buffer of [n]
    samples: the one at position [floor (0.99 * n)] of the sorted
    buffer. *)
Definition spec_p99_position (n : nat) : nat := Z.to_nat (99 * Z.of_nat n / 100).

(** A double that is neither NaN nor an infinity. *)
Definition is_finite (x : float) : bool :=
  match Prim2SF x with
  | S754_zero _ | S754_finite _ _ _ => true
  | S754_infinity _ | S754_nan => false
  end.

(** The exact value of a finite double, counted in units of [2^-1074],
    the smallest positive double: every finite double is a whole number
    of these units. *)
Definition double_units (x : float) : Z :=
  match Prim2SF x with
  | S754_finite s m e => cond_Zopp s (Zpos m * 2 ^ (e + 1074))
  | _ => 0
  end.

(** The subtraction [a - b] of the program is exact. *)
Definition exact_sub (a b : float) : Prop :=
  is_finite (a - b)%float = true
  /\ double_units (a - b)%float = double_units a - double_units b.

(** The sum of the exact values of a list of doubles. *)
Definition sum_units (sizes : list float) : Z :=
  foldr (fun size total => double_units size + total) 0 sizes.

(** The leading run of valid levels of a side: the levels from level 0
    up to the first invalid one. *)
Definition valid_run (levels : list OrderBookLevel.t) : list OrderBookLevel.t :=
  take_while OrderBookLevel.is_valid levels.

(** Every subtraction [remaining - taken] made by the walk is exact. *)
Fixpoint walk_exact (remaining_quantity : float) (levels : list OrderBookLevel.t) : Prop :=
  match levels with
  | [] => True
  | level :: rest =>
      if negb (OrderBookLevel.is_valid level) || (remaining_quantity <=? 0)%float
      then True
      else
        let taken := std_min remaining_quantity (OrderBookLevel.get_size level) in
        exact_sub remaining_quantity taken
        /\ walk_exact (remaining_quantity - taken)%float rest
  end.

End Vocabulary.

(* ===================================================================== *)
(** ** Notions used by the further properties *)
(* ===================================================================== *)

Section FurtherVocabulary.

(** A value of [int64_t]. *)
Definition in_int64 (z : Z) : Prop := - 2 ^ 63 <= z < 2 ^ 63.

(** [k] calls of [acquire] in a row: the pointers returned, in order,
    and the pool they leave. *)
Fixpoint acquire_many (k : nat) (p : MemoryPool.t) : list (option nat) * MemoryPool.t :=
  match k with
  | O => ([], p)
  | S k =>
      let '(ptr, p) := MemoryPool.acquire p in
      let '(ptrs, p) := acquire_many k p in
      (ptr :: ptrs, p)
  end.

(** The sum of a list of doubles, added from the left as the program
    does, starting from [0.0]. *)
Definition double_sum (sizes : list float) : float :=
  foldl (fun total size => (total + size)%float) 0%float sizes.

(** [history o0 o]: the order [o] is [o0] after some calls of [add_fill]
    and [set_status]. *)
Inductive history (o0 : Order.t) : Order.t -> Prop :=
  | history_start : history o0 o0
  | history_add_fill o price quantity fee :
      history o0 o -> history o0 (Order.add_fill o price quantity fee)
  | history_set_status o status :
      history o0 o -> history o0 (Order.set_status o status).

(** [reachable e]: the engine [e] is reached from a newly constructed
    engine by calls of its public methods and turns of its simulator and
    of its workers. *)
Inductive reachable : ExecutionEngine.t -> Prop :=
  | reachable_new now_ns :
      reachable (ExecutionEngine.new now_ns)
  | reachable_initialize e config_json :
      reachable e -> reachable (ExecutionEngine.initialize e config_json).2
  | reachable_start e :
      reachable e -> reachable (ExecutionEngine.start e).2
  | reachable_stop e :
      reachable e -> reachable (ExecutionEngine.stop e).2
  | reachable_submit_order e request response start_time end_time clock :
      reachable e ->
      reachable
        (ExecutionEngine.submit_order e request response start_time end_time clock).1.1.2
  | reachable_cancel_order e order_id :
      reachable e -> reachable (ExecutionEngine.cancel_order e order_id).1.2
  | reachable_register_fill_callback e :
      reachable e -> reachable (ExecutionEngine.register_fill_callback e)
  | reachable_register_status_callback e :
      reachable e -> reachable (ExecutionEngine.register_status_callback e)
  | reachable_simulate_symbol e symbol price change now_ns :
      reachable e ->
      reachable (ExecutionEngine.simulate_symbol e symbol price change now_ns).2
  | reachable_process_order_queue e :
      reachable e -> reachable (ExecutionEngine.process_order_queue e).

(** The latency [submit_order] measures, in microseconds. *)
Definition measured_latency (start_time end_time : Z) : Z :=
  Z.quot (end_time - start_time) 1000.

(** The metrics after [submit_order] has recorded an accepted order. *)
Definition metrics_after (m : PerformanceMetrics.t) (latency : Z)
    (result : ExecutionResult) (order : Order.t) : PerformanceMetrics.t :=
  let m :=
    PerformanceMetrics.record_order_processed
      m latency (bool_decide (result = EXEC_SUCCESS)) in
  if bool_decide (result = EXEC_SUCCESS) && (0 <? Order.filled_quantity_ order)%float
  then PerformanceMetrics.record_fill
         m (Order.filled_quantity_ order)
         (Price.of_double (Price.to_double (Order.get_average_fill_price order)))
  else m.

(** Two engines that agree on what the matching of an order reads: the
    configuration, the books and the fill callback. *)
Definition same_market (e1 e2 : ExecutionEngine.t) : Prop :=
  ExecutionEngine.config_ e1 = ExecutionEngine.config_ e2
  /\ ExecutionEngine.order_books_ e1 = ExecutionEngine.order_books_ e2
  /\ ExecutionEngine.fill_callback_ e1 = ExecutionEngine.fill_callback_ e2.

(** Two engines that differ in their work queue at most. *)
Definition queue_apart (e1 e2 : ExecutionEngine.t) : Prop :=
  ExecutionEngine.set_orders e1 (ExecutionEngine.orders_store_ e1)
                             (ExecutionEngine.active_orders_ e1) []
  = ExecutionEngine.set_orders e2 (ExecutionEngine.orders_store_ e2)
                               (ExecutionEngine.active_orders_ e2) [].

End FurtherVocabulary.

Module FurtherExamples.

Local Open Scope string_scope.

(** BUY AAPL, limit 200, with a quantity that is not a number. *)
Definition nan_buy : COrderRequest.t :=
  COrderRequest.mk "NAN_001" "AAPL" ORDER_TYPE_LIMIT ORDER_SIDE_BUY
                   nan 200%float 0%float TIME_IN_FORCE_GTC 0 "TEST_CLIENT".

(** BUY 2 000 000 AAPL at market. *)
Definition oversized_buy : COrderRequest.t :=
  COrderRequest.mk "BIG_001" "AAPL" ORDER_TYPE_MARKET ORDER_SIDE_BUY
                   2000000%float 0%float 0%float TIME_IN_FORCE_IOC 0 "TEST_CLIENT".

(** The caller's record for a book snapshot, zeroed. *)
Definition blank_book : COrderBook.t :=
  COrderBook.mk "" 0 0%float 0%float 0%float 0%float 0%float 0%float.

End FurtherExamples.

(* ===================================================================== *)
(** ** Concrete engines, books and requests used by the examples *)
(* ===================================================================== *)

Module Examples.

Local Open Scope string_scope.

Definition no_clock : nat -> Z := fun _ => 0.

(** A caller's response record before the call. *)
Definition blank_response : COrderResponse.t :=
  COrderResponse.mk "" EXEC_SUCCESS ORDER_STATUS_PENDING "" 0%float 0%float 0 0.

(** An engine after [initialize] and [start]. *)
Definition started_engine : ExecutionEngine.t :=
  snd (ExecutionEngine.start
         (snd (ExecutionEngine.initialize (ExecutionEngine.new 0) "{}"))).

(** The same engine after the simulator has quoted AAPL once: the price
    150 moved by +0.1%%, bid 149.99984 and ask 150.30013, 1000 each. *)
Definition quoted_engine : ExecutionEngine.t :=
  snd (ExecutionEngine.simulate_symbol
         started_engine "AAPL" (Price.of_double 150) 0.001%float 5).

(** A market order with an empty order id. *)
Definition request_without_id : COrderRequest.t :=
  COrderRequest.mk "" "AAPL" ORDER_TYPE_MARKET ORDER_SIDE_BUY
                   10%float 0%float 0%float TIME_IN_FORCE_IOC 0 "TEST_CLIENT".

End Examples.

Module LimitExamples.

Local Open Scope string_scope.

(** BUY 10 AAPL, limit 200. *)
Definition aggressive_buy : COrderRequest.t :=
  COrderRequest.mk "LIMIT_001" "AAPL" ORDER_TYPE_LIMIT ORDER_SIDE_BUY
                   10%float 200%float 0%float TIME_IN_FORCE_GTC 0 "TEST_CLIENT".

(** BUY 1.1 AAPL, limit 2500. *)
Definition fractional_buy : COrderRequest.t :=
  COrderRequest.mk "LIMIT_002" "AAPL" ORDER_TYPE_LIMIT ORDER_SIDE_BUY
                   1.1%float 2500%float 0%float TIME_IN_FORCE_GTC 0 "TEST_CLIENT".

(** SELL 10 AAPL, stop 10. *)
Definition resting_stop : COrderRequest.t :=
  COrderRequest.mk "STOP_001" "AAPL" ORDER_TYPE_STOP ORDER_SIDE_SELL
                   10%float 0%float 10%float TIME_IN_FORCE_GTC 0 "TEST_CLIENT".

(** The AAPL book of [Examples.quoted_engine]. *)
Definition quoted_book : OrderBook.t :=
  OrderBook.update_ask
    (OrderBook.update_bid (OrderBook.new "AAPL") (Price.of_ticks 14999984) 1000%float 0 5)
    (Price.of_ticks 15030013) 1000%float 0 5.

End LimitExamples.

Module MarketExamples.

(** Asks with a gap: 10 at 100 ticks, an empty level, 10 at 102 ticks. *)
Definition gapped_book : OrderBook.t :=
  OrderBook.update_ask
    (OrderBook.update_ask (OrderBook.new "AAPL") (Price.of_ticks 100) 10%float 0 1)
    (Price.of_ticks 102) 10%float 2 2.

(** Asks of 1 at 100 ticks and [2^54] at 101 ticks. *)
Definition deep_book : OrderBook.t :=
  OrderBook.update_ask
    (OrderBook.update_ask (OrderBook.new "AAPL") (Price.of_ticks 100) 1%float 0 1)
    (Price.of_ticks 101) 18014398509481984%float 1 2.

(** Asks of an unbounded size at 100 ticks and 5 at 101 ticks. *)
Definition unbounded_book : OrderBook.t :=
  OrderBook.update_ask
    (OrderBook.update_ask (OrderBook.new "AAPL") (Price.of_ticks 100) infinity 0 1)
    (Price.of_ticks 101) 5%float 1 2.

(** Asks of 10 at 100 ticks and 10 at 101 ticks. *)
Definition two_level_book : OrderBook.t :=
  OrderBook.update_ask
    (OrderBook.update_ask (OrderBook.new "AAPL") (Price.of_ticks 100) 10%float 0 1)
    (Price.of_ticks 101) 10%float 1 2.

End MarketExamples.

Module Scenarios.

Local Open Scope string_scope.

(** BUY 10 ZZZZ at market. *)
Definition unknown_symbol : COrderRequest.t :=
  COrderRequest.mk "MKT_002" "ZZZZ" ORDER_TYPE_MARKET ORDER_SIDE_BUY
                   10%float 0%float 0%float TIME_IN_FORCE_IOC 0 "TEST_CLIENT".

(** BUY 100 AAPL at market. *)
Definition market_buy : COrderRequest.t :=
  COrderRequest.mk "TEST_001" "AAPL" ORDER_TYPE_MARKET ORDER_SIDE_BUY
                   100%float 0%float 0%float TIME_IN_FORCE_IOC 0 "TEST_CLIENT".

(** BUY 10 AAPL, limit 1. *)
Definition passive_buy : COrderRequest.t :=
  COrderRequest.mk "LIMIT_003" "AAPL" ORDER_TYPE_LIMIT ORDER_SIDE_BUY
                   10%float 1%float 0%float TIME_IN_FORCE_GTC 0 "TEST_CLIENT".

Definition submit (e : ExecutionEngine.t) (request : COrderRequest.t) :=
  ExecutionEngine.submit_order e request Examples.blank_response 1000 5000
                               Examples.no_clock.

End Scenarios.

(* ===================================================================== *)
(** ** Facts about binary64 used below *)
(* ===================================================================== *)

Section FloatFacts.

Local Open Scope float_scope.

Lemma Prim2SF_zero : Prim2SF 0 = S754_zero false.
Proof. reflexivity. Qed.

(** A comparison that holds has no NaN operand. *)
Lemma leb_true_not_nan (x y : float) :
  (x <=? y) = true -> Prim2SF x <> S754_nan /\ Prim2SF y <> S754_nan.
Proof.
  rewrite leb_spec. unfold SFleb, SFcompare.
  destruct (Prim2SF x), (Prim2SF y); intros H; split; congruence.
Qed.

(** [x <= x] for every [x] but NaN. *)
Lemma leb_refl (x : float) : Prim2SF x <> S754_nan -> (x <=? x) = true.
Proof.
  rewrite leb_spec. unfold SFleb, SFcompare.
  destruct (Prim2SF x) as [s|s| |s m e]; intros H; try congruence.
  - by destruct s.
  - rewrite Z.compare_refl.
    assert (Hm : Pos.compare_cont Eq m m = Eq) by apply Pos.compare_cont_refl.
    destruct s; rewrite Hm; reflexivity.
Qed.

(** [0.0 + x] is [x] when [x] is neither NaN nor [<= 0]. *)
Lemma add_zero_l_positive (x : float) :
  Prim2SF x <> S754_nan -> (x <=? 0) = false -> 0 + x = x.
Proof.
  intros Hnan Hpos. apply Prim2SF_inj.
  rewrite add_spec. rewrite leb_spec in Hpos.
  rewrite Prim2SF_zero in *. unfold SF64add, SFadd, SFleb, SFcompare in *.
  destruct (Prim2SF x) as [s|s| |s m e]; try congruence; reflexivity.
Qed.

End FloatFacts.

(* ===================================================================== *)
(** ** Exact values of doubles *)
(* ===================================================================== *)

Section ExactValues.

Lemma digits2_pos_bounds (m : positive) :
  2 ^ (Zpos (digits2_pos m) - 1) <= Zpos m < 2 ^ Zpos (digits2_pos m).
Proof.
  induction m as [p IH|p IH|]; cbn [digits2_pos]; [| |simpl; lia];
    rewrite Pos2Z.inj_succ;
    replace (Z.succ (Zpos (digits2_pos p)) - 1) with (Z.succ (Zpos (digits2_pos p) - 1))
      by lia;
    rewrite !Z.pow_succ_r by lia; lia.
Qed.

(** The mantissa and exponent of a finite double: the exponent is at
    least [-1074], the mantissa is below [2^53], and at least [2^52]
    unless the exponent is [-1074]. *)
Lemma finite_bounds (x : float) s m e :
  Prim2SF x = S754_finite s m e ->
  -1074 <= e /\ Zpos m < 2 ^ 53 /\ (-1074 < e -> 2 ^ 52 <= Zpos m).
Proof.
  intros Hx. pose proof (Prim2SF_valid x) as Hvalid. rewrite Hx in Hvalid.
  unfold SpecFloat.valid_binary, bounded, canonical_mantissa, fexp, SpecFloat.emin,
    prec, emax in Hvalid.
  apply andb_true_iff in Hvalid as [Hcanon _]. apply Z.eqb_eq in Hcanon.
  pose proof (digits2_pos_bounds m) as [Hlow Hhigh].
  assert (Hd : Zpos (digits2_pos m) <= 53) by lia.
  split; [lia|]. split.
  - eapply Z.lt_le_trans; [exact Hhigh|]. apply Z.pow_le_mono_r; lia.
  - intros He. replace (Zpos (digits2_pos m)) with 53 in Hlow by lia. exact Hlow.
Qed.

Lemma scaled_lt (m1 m2 a b : Z) :
  0 <= a < b -> 0 < m1 < 2 ^ 53 -> 2 ^ 52 <= m2 ->
  m1 * 2 ^ a < m2 * 2 ^ b.
Proof.
  intros Hab Hm1 Hm2.
  assert (Hpa : 0 < 2 ^ a) by (apply Z.pow_pos_nonneg; lia).
  assert (Hpb : 2 * 2 ^ a <= 2 ^ b).
  { rewrite <- Z.pow_succ_r by lia. apply Z.pow_le_mono_r; lia. }
  assert (H1 : m1 * 2 ^ a < 2 ^ 53 * 2 ^ a) by (apply Z.mul_lt_mono_pos_r; lia).
  assert (H2 : 2 ^ 52 * 2 ^ b <= m2 * 2 ^ b) by (apply Z.mul_le_mono_nonneg_r; lia).
  assert (H3 : 2 ^ 53 * 2 ^ a <= 2 ^ 52 * 2 ^ b).
  { change (2 ^ 53) with (2 ^ 52 * 2). rewrite <- Z.mul_assoc.
    apply Z.mul_le_mono_nonneg_l; lia. }
  lia.
Qed.

(** On positive finite doubles [<] is the order of the exact values. *)
Lemma ltb_units (x y : float) m1 e1 m2 e2 :
  Prim2SF x = S754_finite false m1 e1 ->
  Prim2SF y = S754_finite false m2 e2 ->
  (x <? y)%float = (double_units x <? double_units y).
Proof.
  intros Hx Hy.
  destruct (finite_bounds _ _ _ _ Hx) as (Hex & Hmx & Hnx).
  destruct (finite_bounds _ _ _ _ Hy) as (Hey & Hmy & Hny).
  rewrite ltb_spec. unfold double_units. rewrite Hx, Hy.
  unfold SFltb, SFcompare, cond_Zopp.
  destruct (Z.compare_spec e1 e2) as [He|He|He].
  - subst e2. change (PosDef.Pos.compare_cont Eq m1 m2) with (Pos.compare m1 m2).
    assert (Hp : 0 < 2 ^ (e1 + 1074)) by (apply Z.pow_pos_nonneg; lia).
    destruct (Pos.compare_spec m1 m2) as [Hm|Hm|Hm]; symmetry.
    + subst m2. apply Z.ltb_irrefl.
    + apply Z.ltb_lt. apply Z.mul_lt_mono_pos_r; [exact Hp|]. lia.
    + apply Z.ltb_ge. apply Z.mul_le_mono_nonneg_r; lia.
  - symmetry. apply Z.ltb_lt. apply scaled_lt; lia.
  - symmetry. apply Z.ltb_ge. apply Z.lt_le_incl. apply scaled_lt; lia.
Qed.

(** A finite double that is not [<= 0] is positive. *)
Lemma positive_finite (x : float) :
  is_finite x = true -> (x <=? 0)%float = false ->
  exists m e, Prim2SF x = S754_finite false m e.
Proof.
  unfold is_finite. rewrite leb_spec, Prim2SF_zero. unfold SFleb, SFcompare.
  destruct (Prim2SF x) as [s|s| |s m e]; try discriminate.
  destruct s; [discriminate|]. intros _ _. by exists m, e.
Qed.

Lemma positive_finite' (x : float) :
  is_finite x = true -> (0 <? x)%float = true ->
  exists m e, Prim2SF x = S754_finite false m e.
Proof.
  unfold is_finite. rewrite ltb_spec, Prim2SF_zero. unfold SFltb, SFcompare.
  destruct (Prim2SF x) as [s|s| |s m e]; try discriminate.
  destruct s; [discriminate|]. intros _ _. by exists m, e.
Qed.

Lemma positive_units (x : float) m e :
  Prim2SF x = S754_finite false m e -> 0 < double_units x.
Proof.
  intros Hx. destruct (finite_bounds _ _ _ _ Hx) as (He & _ & _).
  unfold double_units. rewrite Hx. simpl.
  apply Z.mul_pos_pos; [lia|]. apply Z.pow_pos_nonneg; lia.
Qed.

(** A finite double that is [<= 0] has a value that is not positive. *)
Lemma nonpositive_units (x : float) :
  (x <=? 0)%float = true -> double_units x <= 0.
Proof.
  rewrite leb_spec, Prim2SF_zero. unfold double_units, SFleb, SFcompare.
  destruct (Prim2SF x) as [s|s| |s m e] eqn:Hx; try lia.
  destruct s; [|discriminate]. intros _.
  destruct (finite_bounds _ _ _ _ Hx) as (He & _ & _). simpl.
  assert (0 < 2 ^ (e + 1074)) by (apply Z.pow_pos_nonneg; lia). lia.
Qed.

End ExactValues.

(* ===================================================================== *)
(** ** The difference of two positive doubles is finite *)
(* ===================================================================== *)

Section Subtraction.

Lemma shr_1_bounds mrs :
  0 <= shr_m mrs ->
  0 <= shr_m (shr_1 mrs) /\ 2 * shr_m (shr_1 mrs) <= shr_m mrs.
Proof.
  destruct mrs as [m r s]. cbn [shr_m shr_1].
  destruct m as [|[p|p|]|p]; cbn [shr_m]; lia.
Qed.

Lemma iter_shr_1_bounds n : forall mrs,
  0 <= shr_m mrs ->
  0 <= shr_m (SpecFloat.iter_pos shr_1 n mrs)
  /\ 2 ^ Zpos n * shr_m (SpecFloat.iter_pos shr_1 n mrs) <= shr_m mrs.
Proof.
  induction n as [n IH|n IH|]; intros mrs Hm; cbn [SpecFloat.iter_pos].
  - destruct (shr_1_bounds mrs Hm) as [H1 H1'].
    destruct (IH _ H1) as [H2 H2']. destruct (IH _ H2) as [H3 H3'].
    split; [exact H3|].
    replace (Zpos n~1) with (Zpos n + Zpos n + 1) by lia.
    rewrite !Z.pow_add_r by lia. change (2 ^ 1) with 2.
    assert (Hp : 0 < 2 ^ Zpos n) by (apply Z.pow_pos_nonneg; lia).
    set (P := 2 ^ Zpos n) in *.
    assert (P * (P * shr_m (SpecFloat.iter_pos shr_1 n
                              (SpecFloat.iter_pos shr_1 n (shr_1 mrs))))
            <= P * shr_m (SpecFloat.iter_pos shr_1 n (shr_1 mrs)))
      by (apply Z.mul_le_mono_nonneg_l; lia).
    lia.
  - destruct (IH _ Hm) as [H2 H2']. destruct (IH _ H2) as [H3 H3'].
    split; [exact H3|].
    replace (Zpos n~0) with (Zpos n + Zpos n) by lia.
    rewrite Z.pow_add_r by lia.
    assert (Hp : 0 < 2 ^ Zpos n) by (apply Z.pow_pos_nonneg; lia).
    set (P := 2 ^ Zpos n) in *.
    assert (P * (P * shr_m (SpecFloat.iter_pos shr_1 n (SpecFloat.iter_pos shr_1 n mrs)))
            <= P * shr_m (SpecFloat.iter_pos shr_1 n mrs))
      by (apply Z.mul_le_mono_nonneg_l; lia).
    lia.
  - destruct (shr_1_bounds mrs Hm) as [H1 H1']. split; [exact H1|].
    change (2 ^ 1) with 2. exact H1'.
Qed.

(** A shift to the right keeps a mantissa that is not negative so, and
    does not increase the value. *)
Lemma shr_bounds mrs e n :
  0 <= shr_m mrs ->
  0 <= shr_m (shr mrs e n).1
  /\ (shr mrs e n).2 = e + Z.max n 0
  /\ 2 ^ Z.max n 0 * shr_m (shr mrs e n).1 <= shr_m mrs.
Proof.
  intros Hm. unfold shr. destruct n as [|p|p]; cbn [fst snd].
  - rewrite Z.max_id, Z.add_0_r. change (2 ^ 0) with 1. lia.
  - destruct (iter_shr_1_bounds p mrs Hm) as [H1 H2].
    rewrite Z.max_l by lia. by repeat split.
  - rewrite Z.max_r by lia. rewrite Z.add_0_r. change (2 ^ 0) with 1. lia.
Qed.

Lemma round_nearest_even_bounds m l :
  m <= round_nearest_even m l <= m + 1.
Proof.
  unfold round_nearest_even. destruct l as [|[| |]]; try lia.
  destruct (Z.even m); lia.
Qed.

(** A number below [2^k] has at most [k] binary digits. *)
Lemma Zdigits2_bound m k :
  0 < m -> 0 <= k -> m < 2 ^ k -> Zdigits2 m <= k.
Proof.
  intros Hm Hk Hlt. destruct m as [|p|p]; try lia. cbn [Zdigits2].
  pose proof (digits2_pos_bounds p) as [Hlow _].
  destruct (Z_le_gt_dec (Zpos (digits2_pos p)) k) as [?|Hgt]; [done|].
  assert (2 ^ k <= 2 ^ (Zpos (digits2_pos p) - 1)) by (apply Z.pow_le_mono_r; lia).
  lia.
Qed.

Lemma shr_record_of_loc_m m l : shr_m (shr_record_of_loc m l) = m.
Proof. by destruct l as [|[| |]]. Qed.

(** Rounding a value below the largest double gives zero or a finite
    double.  The value is [mx * 2^ex], counted in units of [2^-1074]. *)
Lemma binary_round_aux_finite sx mx ex lx :
  0 <= mx -> -1074 <= ex <= 971 ->
  mx * 2 ^ (ex + 1074) < (2 ^ 53 - 1) * 2 ^ 2045 ->
  match binary_round_aux prec emax sx mx ex lx with
  | S754_zero _ | S754_finite _ _ _ => True
  | S754_infinity _ | S754_nan => False
  end.
Proof.
  intros Hmx Hex Hvalue.
  assert (Hfexp : forall d, fexp prec emax d = Z.max (d - 53) (-1074)) by reflexivity.
  assert (Hdigits : forall m e,
    0 <= m -> -1074 <= e -> m * 2 ^ (e + 1074) < 2 ^ 2098 ->
    fexp prec emax (Zdigits2 m + e) <= Z.max e 971 /\ (e <= 971 ->
    fexp prec emax (Zdigits2 m + e) <= 971)).
  { intros m e Hm He Hlt. rewrite Hfexp.
    destruct (Z.eq_dec m 0) as [->|Hne]; [cbn [Zdigits2]; lia|].
    assert (Hd : Zdigits2 m <= 1024 - e).
    { destruct (Z_le_gt_dec e 1024) as [Hle|Hgt].
      - apply Zdigits2_bound; [lia|lia|].
        apply (Z.mul_lt_mono_pos_r (2 ^ (e + 1074))); [apply Z.pow_pos_nonneg; lia|].
        rewrite <- Z.pow_add_r by lia. by replace (1024 - e + (e + 1074)) with 2098 by lia.
      - exfalso. assert (2 ^ 2098 <= 2 ^ (e + 1074)) by (apply Z.pow_le_mono_r; lia).
        assert (0 < 2 ^ (e + 1074)) by (apply Z.pow_pos_nonneg; lia). nia. }
    lia. }
  unfold binary_round_aux, shr_fexp.
  set (n1 := fexp prec emax (Zdigits2 mx + ex) - ex).
  destruct (shr_bounds (shr_record_of_loc mx lx) ex n1) as (Hm1 & He1 & Hv1);
    [rewrite shr_record_of_loc_m; exact Hmx|].
  rewrite shr_record_of_loc_m in Hv1.
  destruct (shr (shr_record_of_loc mx lx) ex n1) as [mrs1 e1]. cbn [fst snd] in *.
  assert (Hmax : (2 ^ 53 - 1) * 2 ^ 2045 = 2 ^ 2098 - 2 ^ 2045)
    by (change (2 ^ 2098) with (2 ^ 53 * 2 ^ 2045); lia).
  assert (Hp2045 : 0 < 2 ^ 2045) by (apply Z.pow_pos_nonneg; lia).
  destruct (Hdigits mx ex Hmx ltac:(lia) ltac:(lia)) as [_ Hn1]. specialize (Hn1 ltac:(lia)).
  assert (He1' : -1074 <= e1 <= 971) by (subst n1; lia).
  assert (Hu1 : shr_m mrs1 * 2 ^ (e1 + 1074) <= mx * 2 ^ (ex + 1074)).
  { rewrite He1. replace (ex + Z.max n1 0 + 1074) with (Z.max n1 0 + (ex + 1074)) by lia.
    rewrite Z.pow_add_r by lia.
    assert (0 < 2 ^ (ex + 1074)) by (apply Z.pow_pos_nonneg; lia). nia. }
  pose proof (round_nearest_even_bounds (shr_m mrs1) (loc_of_shr_record mrs1)) as Hround.
  set (m2 := round_nearest_even (shr_m mrs1) (loc_of_shr_record mrs1)) in *.
  set (n2 := fexp prec emax (Zdigits2 m2 + e1) - e1).
  destruct (shr_bounds (shr_record_of_loc m2 loc_Exact) e1 n2) as (Hm3 & He3 & _);
    [cbn [shr_record_of_loc shr_m]; lia|].
  destruct (shr (shr_record_of_loc m2 loc_Exact) e1 n2) as [mrs3 e3]. cbn [fst snd] in *.
  assert (Hu2 : m2 * 2 ^ (e1 + 1074) < 2 ^ 2098).
  { assert (Hp : 0 < 2 ^ (e1 + 1074) <= 2 ^ 2045).
    { split; [apply Z.pow_pos_nonneg; lia|apply Z.pow_le_mono_r; lia]. }
    nia. }
  destruct (Hdigits m2 e1 ltac:(lia) ltac:(lia) Hu2) as [_ Hn2].
  specialize (Hn2 ltac:(lia)).
  assert (He3' : e3 <= 971) by (subst n2; lia).
  destruct (shr_m mrs3) as [|m3|m3]; [exact I| |lia].
  change (emax - prec) with 971. by rewrite (proj2 (Z.leb_le e3 971) He3').
Qed.

Lemma pos_iter_xO (m d : positive) : Zpos (Pos.iter xO m d) = Zpos m * 2 ^ Zpos d.
Proof.
  revert m. induction d as [|d IH] using Pos.peano_ind; intros m.
  - cbn [Pos.iter]. lia.
  - rewrite Pos.iter_succ, Pos2Z.inj_xO, IH, Pos2Z.inj_succ, Z.pow_succ_r by lia. lia.
Qed.

(** The exponent of a finite double is at most [971]. *)
Lemma finite_exponent (x : float) s m e :
  Prim2SF x = S754_finite s m e -> -1074 <= e <= 971.
Proof.
  intros Hx. split; [by destruct (finite_bounds _ _ _ _ Hx)|].
  pose proof (Prim2SF_valid x) as Hvalid. rewrite Hx in Hvalid.
  unfold SpecFloat.valid_binary, bounded in Hvalid.
  apply andb_true_iff in Hvalid as [_ He]. by apply Z.leb_le in He.
Qed.

Lemma shl_align_units m e e' :
  -1074 <= e' ->
  (shl_align m e e').2 = Z.min e e'
  /\ Zpos (shl_align m e e').1 * 2 ^ ((shl_align m e e').2 + 1074)
     = Zpos m * 2 ^ (e + 1074).
Proof.
  intros He'. unfold shl_align.
  destruct (e' - e) as [|d|d] eqn:Hd; cbn [fst snd].
  - split; [lia|reflexivity].
  - split; [lia|reflexivity].
  - split; [lia|]. rewrite pos_iter_xO.
    replace (e + 1074) with (Zpos d + (e' + 1074)) by lia.
    rewrite (Z.pow_add_r 2 (Zpos d) (e' + 1074)) by lia. ring.
Qed.

(** The difference of two positive finite doubles, the smaller taken
    from the larger, is finite: it does not overflow and is no NaN. *)
Lemma sub_finite (x y : float) mx ex my ey :
  Prim2SF x = S754_finite false mx ex ->
  Prim2SF y = S754_finite false my ey ->
  double_units y <= double_units x ->
  is_finite (x - y)%float = true.
Proof.
  intros Hx Hy Hle.
  destruct (finite_exponent _ _ _ _ Hx) as [Hex Hex'].
  destruct (finite_exponent _ _ _ _ Hy) as [Hey Hey'].
  destruct (finite_bounds _ _ _ _ Hx) as (_ & Hmx & _).
  unfold is_finite. rewrite sub_spec, Hx, Hy.
  unfold double_units in Hle. rewrite Hx, Hy in Hle. cbn [cond_Zopp] in Hle.
  unfold SF64sub, SFsub. cbv zeta. cbn [cond_Zopp].
  set (ez := Z.min ex ey).
  destruct (shl_align_units mx ex ez ltac:(lia)) as [Hax Hvx].
  destruct (shl_align_units my ey ez ltac:(lia)) as [Hay Hvy].
  rewrite Hax in Hvx. rewrite Hay in Hvy.
  replace (Z.min ex ez) with ez in Hvx by lia.
  replace (Z.min ey ez) with ez in Hvy by lia.
  set (Mx := Zpos (shl_align mx ex ez).1) in *.
  set (My := Zpos (shl_align my ey ez).1) in *.
  assert (Hpz : 0 < 2 ^ (ez + 1074)) by (apply Z.pow_pos_nonneg; lia).
  assert (Hdiff : 0 <= Mx - My) by nia.
  assert (Hbound : (Mx - My) * 2 ^ (ez + 1074) < (2 ^ 53 - 1) * 2 ^ 2045).
  { assert (0 < My) by (subst My; lia).
    assert (Zpos mx * 2 ^ (ex + 1074) <= (2 ^ 53 - 1) * 2 ^ 2045).
    { assert (0 < 2 ^ (ex + 1074) <= 2 ^ 2045).
      { split; [apply Z.pow_pos_nonneg; lia|apply Z.pow_le_mono_r; lia]. }
      nia. }
    nia. }
  unfold binary_normalize.
  destruct (Mx - My) as [|p|p] eqn:Hp; [reflexivity| |lia].
  unfold binary_round.
  set (t := fexp prec emax (Zpos (digits2_pos p) + ez)).
  assert (Ht : -1074 <= t) by (subst t; unfold fexp, SpecFloat.emin, prec, emax; lia).
  destruct (shl_align_units p ez t Ht) as [Hap Hvp].
  destruct (shl_align p ez t) as [mz ez'] eqn:Halign. cbn [fst snd] in *.
  pose proof (binary_round_aux_finite false (Zpos mz) ez' loc_Exact
                ltac:(lia) ltac:(lia) ltac:(lia)) as Hfinite.
  by destruct (binary_round_aux prec emax false (Zpos mz) ez' loc_Exact).
Qed.

(** On doubles that are no NaN, [<=] is total. *)
Lemma ltb_false_leb (x y : float) :
  Prim2SF x <> S754_nan -> Prim2SF y <> S754_nan ->
  (x <? y)%float = false -> (y <=? x)%float = true.
Proof.
  rewrite ltb_spec, leb_spec. unfold SFltb, SFleb, SFcompare.
  destruct (Prim2SF x) as [s1|s1| |s1 m1 e1], (Prim2SF y) as [s2|s2| |s2 m2 e2];
    intros Hx Hy; try congruence;
    try destruct s1; try destruct s2; try discriminate; try reflexivity;
    rewrite (Z.compare_antisym e1 e2); destruct (e1 ?= e2); cbn [CompOpp];
    try discriminate; try reflexivity;
    pose proof (Pos.compare_cont_antisym m1 m2 Eq) as Hanti;
    change (CompOpp Eq) with Eq in Hanti; rewrite <- Hanti;
    destruct (Pos.compare_cont Eq m1 m2); cbn [CompOpp]; try discriminate;
    reflexivity.
Qed.

End Subtraction.

(* ===================================================================== *)
(** ** The arrays of a book keep their depth *)
(* ===================================================================== *)

Section Books.

Lemma well_formed_new symbol : OrderBook.well_formed (OrderBook.new symbol).
Proof. split; reflexivity. Qed.

Lemma well_formed_update_bid b price size level now_ns :
  OrderBook.well_formed b ->
  OrderBook.well_formed (OrderBook.update_bid b price size level now_ns).
Proof.
  intros [Hbids Hasks]. unfold OrderBook.update_bid.
  destruct (_ <=? _)%nat; split; simpl; try done. by rewrite length_alter.
Qed.

Lemma well_formed_update_ask b price size level now_ns :
  OrderBook.well_formed b ->
  OrderBook.well_formed (OrderBook.update_ask b price size level now_ns).
Proof.
  intros [Hbids Hasks]. unfold OrderBook.update_ask.
  destruct (_ <=? _)%nat; split; simpl; try done. by rewrite length_alter.
Qed.

(** A write at a level of the array is read back; a level beyond the
    depth is not written. *)
Lemma update_ask_level b price size level now_ns :
  OrderBook.well_formed b ->
  (level < OrderBook.ORDER_BOOK_DEPTH)%nat ->
  OrderBook.level_at (OrderBook.asks_ (OrderBook.update_ask b price size level now_ns)) level
  = OrderBookLevel.mk (Price.ticks price) size.
Proof.
  intros [_ Hasks] Hlevel. unfold OrderBook.update_ask, OrderBook.level_at.
  destruct (Nat.leb_spec OrderBook.ORDER_BOOK_DEPTH level); [lia|]. simpl.
  rewrite list_lookup_alter_eq.
  destruct (OrderBook.asks_ b !! level) eqn:Hl; [reflexivity|].
  apply lookup_ge_None in Hl. lia.
Qed.

Lemma update_ask_out_of_depth b price size level now_ns :
  (OrderBook.ORDER_BOOK_DEPTH <= level)%nat ->
  OrderBook.update_ask b price size level now_ns = b.
Proof.
  intros Hlevel. unfold OrderBook.update_ask.
  by destruct (Nat.leb_spec OrderBook.ORDER_BOOK_DEPTH level); [|lia].
Qed.

End Books.

(* ===================================================================== *)
(** ** Order validation and rejection at submission (C1) *)
(* ===================================================================== *)

Section Validation.

Local Open Scope string_scope.

Lemma validate_false_iff (order : Order.t) :
  Order.validate order = false <-> validation_fails order.
Proof.
  unfold Order.validate, validation_fails.
  destruct (Order.quantity_ order <=? 0)%float;
    destruct (Z.leb_spec (Price.ticks (Order.price_ order)) 0);
    destruct (Z.leb_spec (Price.ticks (Order.stop_price_ order)) 0);
    repeat case_bool_decide; simpl; split; intros ?;
    try reflexivity; try discriminate; try tauto;
    try (exfalso; intuition (congruence || lia)).
Qed.

Lemma submit_order_invalid e request response start_time end_time clock :
  Order.validate (Order.of_request request) = false ->
  ExecutionEngine.submit_order e request response start_time end_time clock
  = (EXEC_ERROR_INVALID_ORDER, e, invalid_order_response request response, []).
Proof.
  intros H. unfold ExecutionEngine.submit_order. rewrite H. reflexivity.
Qed.

(** An order that passes validation is either refused by the risk check
    or stored at a fresh address. *)
Lemma submit_order_valid e request response start_time end_time clock :
  Order.validate (Order.of_request request) = true ->
  let out := ExecutionEngine.submit_order e request response start_time end_time clock in
  out.1.1.1 = EXEC_ERROR_RISK_LIMIT_EXCEEDED
  \/ length (ExecutionEngine.orders_store_ out.1.1.2)
     = S (length (ExecutionEngine.orders_store_ e)).
Proof.
  intros H. unfold ExecutionEngine.submit_order. rewrite H. simpl negb. cbv iota.
  destruct (_ && _); [by left|right].
  destruct (ExecutionEngine.dispatch _ _ _) as [[r o] ev]. simpl.
  rewrite length_insert, length_app. simpl. lia.
Qed.

End Validation.

(** C1, as amended.  [Order::validate] fails exactly when the id or the
    symbol is empty, or [quantity <= 0], or the type is LIMIT with limit
    price ticks [<= 0], or the type is STOP with stop price ticks [<= 0].
    [submit_order] rejects the request at validation (it returns
    [INVALID_ORDER] and leaves the engine as it was) if and only if
    validation fails; on that failure the response carries the result
    [INVALID_ORDER], the message "Invalid order parameters" and the
    status [SUBMITTED] it was initialised with (the engine never assigns
    [REJECTED]), and no callback fires. *)
Theorem submit_order_validation
    (e : ExecutionEngine.t) (request : COrderRequest.t) (response : COrderResponse.t)
    (start_time end_time : Z) (clock : nat -> Z) :
  let order := Order.of_request request in
  let out := ExecutionEngine.submit_order e request response start_time end_time clock in
  (Order.validate order = false <-> validation_fails order)
  /\ ((out.1.1.1 = EXEC_ERROR_INVALID_ORDER /\ out.1.1.2 = e)
      <-> Order.validate order = false)
  /\ (Order.validate order = false ->
      out = (EXEC_ERROR_INVALID_ORDER, e, invalid_order_response request response, [])
      /\ COrderResponse.result out.1.2 = EXEC_ERROR_INVALID_ORDER
      /\ COrderResponse.status out.1.2 = ORDER_STATUS_SUBMITTED).
Proof.
  intros order out. split; [apply validate_false_iff|]. split.
  - split.
    + intros [Hr He]. destruct (Order.validate order) eqn:Hv; [|reflexivity].
      exfalso.
      destruct (submit_order_valid e request response start_time end_time clock Hv)
        as [Hrisk|Hlen]; fold out in Hrisk || fold out in Hlen.
      * congruence.
      * rewrite He in Hlen. lia.
    + intros Hv. subst out. rewrite submit_order_invalid by exact Hv. done.
  - intros Hv. subst out. rewrite submit_order_invalid by exact Hv. done.
Qed.

(** C1, as stated, fails: a market order with an empty id does not pass
    validation and [submit_order] returns [INVALID_ORDER], but the status
    of the response is [SUBMITTED], not [REJECTED]. *)
Lemma submit_order_rejected_status_counterexample :
  Order.validate (Order.of_request Examples.request_without_id) = false
  /\ (ExecutionEngine.submit_order Examples.started_engine Examples.request_without_id
        Examples.blank_response 0 0 Examples.no_clock).1.1.1 = EXEC_ERROR_INVALID_ORDER
  /\ COrderResponse.status
       (ExecutionEngine.submit_order Examples.started_engine Examples.request_without_id
          Examples.blank_response 0 0 Examples.no_clock).1.2
     <> ORDER_STATUS_REJECTED.
Proof. repeat split; vm_compute; congruence. Qed.

(* ===================================================================== *)
(** ** Market orders (C2) *)
(* ===================================================================== *)

Section MarketOrders.

Lemma add_fill_order_id o price quantity fee :
  Order.order_id_ (Order.add_fill o price quantity fee) = Order.order_id_ o.
Proof. reflexivity. Qed.

Lemma add_fill_fills o price quantity fee :
  Order.fills_ (Order.add_fill o price quantity fee)
  = Order.fills_ o ++ [(price, quantity)].
Proof. reflexivity. Qed.

Lemma add_fills_order_id fills : forall o,
  Order.order_id_ (add_fills o fills) = Order.order_id_ o.
Proof.
  induction fills as [|fill fills IH]; intros o; [reflexivity|].
  unfold add_fills in *. simpl. by rewrite IH.
Qed.

Lemma add_fills_fills fills : forall o,
  Order.fills_ (add_fills o fills) = Order.fills_ o ++ fills.
Proof.
  induction fills as [|[price quantity] fills IH]; intros o.
  - simpl. by rewrite app_nil_r.
  - unfold add_fills in *. simpl. rewrite IH, add_fill_fills.
    by rewrite <- app_assoc.
Qed.

Lemma process_fills_spec callback clock fills : forall k order,
  ExecutionEngine.process_fills callback clock k order fills
  = (add_fills order fills,
     if callback
     then imap (fun i fill => fill_notification order clock (k + i) fill) fills
     else []).
Proof.
  induction fills as [|fill fills IH]; intros k order.
  - simpl. by destruct callback.
  - simpl. rewrite IH. unfold add_fills. simpl. f_equal.
    destruct callback; [|reflexivity]. simpl. f_equal.
    + unfold fill_notification, ExecutionEngine.market_fill, Order.get_order_id.
      by rewrite Nat.add_0_r.
    + apply imap_ext. intros i x _. unfold fill_notification. simpl.
      by rewrite Nat.add_succ_r.
Qed.

End MarketOrders.

(** C2.  A market order whose symbol has no book yields [INVALID_ORDER];
    when the level walk of the book emits nothing the result is
    [INSUFFICIENT_LIQUIDITY] and the order is left as it was, with no fill
    recorded; otherwise every emitted (price, size) pair is added to the
    order by [add_fill], in the order of the walk, the fill callback (when
    one is registered) is invoked once for each pair with a fill record
    whose fee is [size * 0.001], and the result is [SUCCESS]. *)
Theorem execute_market_order_spec
    (e : ExecutionEngine.t) (clock : nat -> Z) (order : Order.t) :
  match ExecutionEngine.order_books_ e !! Order.symbol_ order with
  | None =>
      ExecutionEngine.execute_market_order e clock order
      = (EXEC_ERROR_INVALID_ORDER, order, [])
  | Some book =>
      let fills :=
        OrderBook.get_fills_for_market_order
          book (Order.side_ order) (Order.quantity_ order) in
      match fills with
      | [] =>
          ExecutionEngine.execute_market_order e clock order
          = (EXEC_ERROR_INSUFFICIENT_LIQUIDITY, order, [])
      | _ :: _ =>
          ExecutionEngine.execute_market_order e clock order
          = (EXEC_SUCCESS,
             add_fills order fills,
             if ExecutionEngine.fill_callback_ e
             then imap (fill_notification order clock) fills
             else [])
          /\ Order.fills_ (add_fills order fills) = Order.fills_ order ++ fills
      end
  end.
Proof.
  unfold ExecutionEngine.execute_market_order, Order.get_symbol, Order.get_side,
    Order.get_quantity.
  destruct (ExecutionEngine.order_books_ e !! Order.symbol_ order) as [book|];
    [|reflexivity].
  cbv zeta.
  destruct (OrderBook.get_fills_for_market_order _ _ _) as [|fill fills] eqn:Hf;
    [reflexivity|].
  rewrite process_fills_spec. split; [reflexivity|apply add_fills_fills].
Qed.

(* ===================================================================== *)
(** ** Fills of a market order (C3) *)
(* ===================================================================== *)

Section MarketWalk.

(** The pairs come from the leading run of valid levels, in level order. *)
Lemma market_walk_prices levels : forall remaining,
  map fst (OrderBook.market_walk remaining levels)
  = map OrderBookLevel.get_price
      (take (length (OrderBook.market_walk remaining levels)) (valid_run levels)).
Proof.
  induction levels as [|level rest IH]; intros remaining; [reflexivity|].
  unfold valid_run in *. simpl.
  destruct (OrderBookLevel.is_valid level); simpl; [|reflexivity].
  destruct (remaining <=? 0)%float; simpl; [reflexivity|].
  by rewrite IH.
Qed.

Lemma valid_run_sum_nonneg levels :
  Forall (fun level => is_finite (OrderBookLevel.get_size level) = true) (valid_run levels) ->
  0 <= sum_units (map OrderBookLevel.get_size (valid_run levels)).
Proof.
  unfold valid_run. induction levels as [|level rest IH]; simpl; [lia|].
  destruct (OrderBookLevel.is_valid level) eqn:Hvalid; simpl; [|lia].
  intros Hfinite. apply Forall_cons in Hfinite as [Hsize Hrest].
  apply andb_true_iff in Hvalid as [_ Hpos].
  destruct (positive_finite' _ Hsize Hpos) as (m & e & Hm).
  pose proof (positive_units _ _ _ Hm). specialize (IH Hrest). lia.
Qed.

(** The sizes taken, in exact arithmetic. *)
Lemma market_walk_sum levels : forall remaining,
  is_finite remaining = true ->
  0 <= double_units remaining ->
  Forall (fun level => is_finite (OrderBookLevel.get_size level) = true) (valid_run levels) ->
  walk_exact remaining levels ->
  sum_units (map snd (OrderBook.market_walk remaining levels))
  = Z.min (double_units remaining)
          (sum_units (map OrderBookLevel.get_size (valid_run levels)))
  /\ Forall2 (fun fill level =>
                double_units (snd fill) <= double_units (OrderBookLevel.get_size level))
       (OrderBook.market_walk remaining levels)
       (take (length (OrderBook.market_walk remaining levels)) (valid_run levels)).
Proof.
  induction levels as [|level rest IH]; intros remaining Hfin Hnonneg Hsizes Hexact.
  { simpl. split; [lia|constructor]. }
  pose proof (valid_run_sum_nonneg _ Hsizes) as Htotal.
  unfold valid_run in *. simpl in *.
  destruct (OrderBookLevel.is_valid level) eqn:Hvalid; simpl in *;
    [|split; [lia|constructor]].
  apply Forall_cons in Hsizes as [Hsize Hrest].
  pose proof (valid_run_sum_nonneg _ Hrest) as Hrest_total. unfold valid_run in Hrest_total.
  destruct (remaining <=? 0)%float eqn:Hrem; simpl in *.
  { apply nonpositive_units in Hrem. split; [lia|constructor]. }
  destruct Hexact as [[Hfin' Hsub] Hexact].
  apply andb_true_iff in Hvalid as [_ Hpos].
  destruct (positive_finite' _ Hsize Hpos) as (ms & es & Hs).
  destruct (positive_finite _ Hfin Hrem) as (mr & er & Hr).
  pose proof (positive_units _ _ _ Hs) as Hs_pos.
  pose proof (ltb_units _ _ _ _ _ _ Hs Hr) as Hlt.
  unfold OrderBookLevel.get_size in *.
  unfold std_min in *. rewrite Hlt in *.
  destruct (Z.ltb_spec (double_units (OrderBookLevel.size_ level)) (double_units remaining))
    as [Hless|Hmore].
  - destruct (IH _ Hfin' ltac:(lia) Hrest Hexact) as [IHsum IHle].
    split; [|constructor; [simpl; lia|exact IHle]].
    rewrite IHsum, Hsub. lia.
  - destruct (IH _ Hfin' ltac:(lia) Hrest Hexact) as [IHsum IHle].
    split; [|constructor; [simpl; lia|exact IHle]].
    rewrite IHsum, Hsub. lia.
Qed.

(** A size that is below a finite quantity is finite. *)
Lemma below_finite (size remaining : float) mr er :
  Prim2SF remaining = S754_finite false mr er ->
  (0 <? size)%float = true ->
  (size <? remaining)%float = true ->
  exists ms es, Prim2SF size = S754_finite false ms es.
Proof.
  intros Hr. rewrite !ltb_spec, Hr, Prim2SF_zero. unfold SFltb, SFcompare.
  destruct (Prim2SF size) as [s|s| |s ms es]; try discriminate.
  - destruct s; discriminate.
  - destruct s; [discriminate|]. intros _ _. by exists ms, es.
Qed.

Lemma ltb_true_not_nan (x y : float) :
  (x <? y)%float = true -> Prim2SF x <> S754_nan /\ Prim2SF y <> S754_nan.
Proof.
  rewrite ltb_spec. unfold SFltb, SFcompare.
  destruct (Prim2SF x), (Prim2SF y); intros H; split; congruence.
Qed.

(** The quantity that remains after a level is finite again, and what
    the level gives is at most its size. *)
Lemma market_walk_at_most levels : forall remaining,
  is_finite remaining = true ->
  Forall2 (fun fill level =>
             (snd fill <=? OrderBookLevel.get_size level)%float = true)
    (OrderBook.market_walk remaining levels)
    (take (length (OrderBook.market_walk remaining levels)) (valid_run levels)).
Proof.
  induction levels as [|level rest IH]; intros remaining Hfin; [constructor|].
  unfold valid_run in *. cbn [OrderBook.market_walk take_while].
  destruct (OrderBookLevel.is_valid level) eqn:Hvalid; cbn [negb orb];
    [|constructor].
  destruct (remaining <=? 0)%float eqn:Hrem; [constructor|].
  cbn [length take]. 
  apply andb_true_iff in Hvalid as [_ Hpos].
  change (OrderBookLevel.size_ level) with (OrderBookLevel.get_size level) in Hpos.
  destruct (positive_finite _ Hfin Hrem) as (mr & er & Hr).
  assert (Hrnan : Prim2SF remaining <> S754_nan) by (rewrite Hr; discriminate).
  destruct (ltb_true_not_nan _ _ Hpos) as [_ Hsnan].
  unfold std_min.
  destruct (OrderBookLevel.get_size level <? remaining)%float eqn:Hlt.
  - destruct (below_finite _ _ _ _ Hr Hpos Hlt) as (ms & es & Hs).
    constructor; [cbn [snd]; by apply leb_refl|].
    apply IH. apply (sub_finite _ _ _ _ _ _ Hr Hs).
    rewrite (ltb_units _ _ _ _ _ _ Hs Hr) in Hlt. apply Z.ltb_lt in Hlt. lia.
  - constructor; [cbn [snd]; by apply ltb_false_leb|].
    apply IH. apply (sub_finite _ _ _ _ _ _ Hr Hr). lia.
Qed.

End MarketWalk.

(** C3, as amended.  For every side and every quantity,
    [get_fills_for_market_order] emits (price, taken size) pairs in level
    order from the leading run of valid levels of the opposing side: the
    walk stops at the first invalid level and uses no level behind it.
    For every finite quantity [q > 0], each taken size is at most the
    size of its level.  When, besides, the sizes of that run are finite
    and the subtractions [remaining - taken] of the walk are exact in
    double arithmetic, the taken sizes sum to [min (q, sum of the sizes
    of the leading run of valid levels)]. *)
Theorem get_fills_for_market_order_spec
    (b : OrderBook.t) (side : OrderSide) (quantity : float) :
  let levels := opposing_levels b side in
  let fills := OrderBook.get_fills_for_market_order b side quantity in
  let used := take (length fills) (valid_run levels) in
  map fst fills = map OrderBookLevel.get_price used
  /\ (length fills <= length (valid_run levels))%nat
  /\ ((0 <? quantity)%float = true ->
      is_finite quantity = true ->
      Forall2 (fun fill level =>
                 (snd fill <=? OrderBookLevel.get_size level)%float = true)
        fills used
      /\ (Forall (fun level => is_finite (OrderBookLevel.get_size level) = true)
                 (valid_run levels) ->
          walk_exact quantity levels ->
          Forall2 (fun fill level =>
                     double_units (snd fill)
                     <= double_units (OrderBookLevel.get_size level))
            fills used
          /\ sum_units (map snd fills)
             = Z.min (double_units quantity)
                     (sum_units (map OrderBookLevel.get_size (valid_run levels))))).
Proof.
  intros levels fills used.
  assert (Hfills : fills = OrderBook.market_walk quantity levels)
    by (subst fills levels; by destruct side).
  assert (Hprices : map fst fills = map OrderBookLevel.get_price used)
    by (subst used; rewrite Hfills; apply market_walk_prices).
  split; [exact Hprices|]. split.
  { apply (f_equal length) in Hprices. subst used.
    rewrite !length_map, length_take in Hprices. lia. }
  intros Hpos Hfin. subst used. rewrite Hfills. split.
  { by apply market_walk_at_most. }
  intros Hsizes Hexact.
  destruct (positive_finite' _ Hfin Hpos) as (m & e & Hq).
  pose proof (positive_units _ _ _ Hq) as Hunits.
  destruct (market_walk_sum levels quantity Hfin ltac:(lia) Hsizes Hexact) as [Hsum Hle].
  split; [exact Hle|exact Hsum].
Qed.

(** A buy of 15 against two levels of 10: 10 and 5 are taken. *)
Lemma get_fills_for_market_order_spec_witness :
  map snd (OrderBook.get_fills_for_market_order
             MarketExamples.two_level_book ORDER_SIDE_BUY 15%float)
  = [10%float; 5%float]
  /\ sum_units
       (map snd (OrderBook.get_fills_for_market_order
                   MarketExamples.two_level_book ORDER_SIDE_BUY 15%float))
     = Z.min (double_units 15%float)
             (sum_units
                (map OrderBookLevel.get_size
                   (valid_run (opposing_levels MarketExamples.two_level_book
                                               ORDER_SIDE_BUY)))).
Proof.
  split; [reflexivity|].
  refine (proj2 (proj2 (proj2 (proj2 (get_fills_for_market_order_spec
                                        MarketExamples.two_level_book ORDER_SIDE_BUY
                                        15%float))
                              eq_refl eq_refl) _ _)).
  - repeat constructor.
  - vm_compute. repeat split.
Defined.

(** C3, as stated, fails.  First, the sum runs over the leading valid
    levels only: with asks of 10, an empty level and 10 again, a buy of
    15 takes 10 from level 0 and stops at the empty level, although the
    valid levels hold 20.  Second, the sum is that of exact arithmetic
    only while the subtractions are exact: a buy of [2^53 + 2] against
    asks of 1 and [2^54] takes 1 and then [2^53], because
    [(2^53 + 2) - 1] rounds to [2^53]; the taken sizes sum to
    [2^53 + 1].  Third, a quantity that is not finite can take more than
    a level offers: an unbounded buy against asks of an unbounded size
    and of 5 leaves [infinity - infinity], which is NaN, and takes NaN
    from the level of 5, and [NaN <= 5] is false. *)
Lemma get_fills_for_market_order_counterexample :
  (let fills :=
     OrderBook.get_fills_for_market_order MarketExamples.gapped_book ORDER_SIDE_BUY 15%float in
   let valid_sizes :=
     map OrderBookLevel.get_size
         (List.filter OrderBookLevel.is_valid (OrderBook.asks_ MarketExamples.gapped_book)) in
   fills = [(Price.of_ticks 100, 10%float)]
   /\ valid_sizes = [10%float; 10%float]
   /\ sum_units (map snd fills) <> Z.min (double_units 15%float) (sum_units valid_sizes))
  /\ (let quantity := 9007199254740994%float in
      let fills :=
        OrderBook.get_fills_for_market_order MarketExamples.deep_book ORDER_SIDE_BUY quantity in
      let valid_sizes :=
        map OrderBookLevel.get_size
            (List.filter OrderBookLevel.is_valid (OrderBook.asks_ MarketExamples.deep_book)) in
      map snd fills = [1%float; 9007199254740992%float]
      /\ sum_units (map snd fills) <> Z.min (double_units quantity) (sum_units valid_sizes))
  /\ (let fills :=
        OrderBook.get_fills_for_market_order
          MarketExamples.unbounded_book ORDER_SIDE_BUY infinity in
      (0 <? infinity)%float = true
      /\ map (fun fill => Prim2SF (snd fill)) fills = [S754_infinity false; S754_nan]
      /\ map OrderBookLevel.get_size
           (valid_run (OrderBook.asks_ MarketExamples.unbounded_book))
         = [infinity; 5%float]
      /\ Forall (fun fill => (snd fill <=? 5)%float = false) (drop 1 fills)).
Proof.
  cbv zeta. split; [|split].
  - split; [reflexivity|]. split; [reflexivity|]. vm_compute. discriminate.
  - split; [reflexivity|]. vm_compute. discriminate.
  - split; [reflexivity|]. split; [reflexivity|]. split; [reflexivity|].
    repeat constructor.
Qed.

(* ===================================================================== *)
(** ** Liquidity check of the book (C4) *)
(* ===================================================================== *)

Section Liquidity.

Lemma liquidity_walk_spec out_of_limit quantity levels : forall available,
  OrderBook.liquidity_walk out_of_limit quantity available levels
  = existsb (fun total => (quantity <=? total)%float)
      (running_totals available
         (map OrderBookLevel.get_size
            (take_while
               (fun level =>
                  OrderBookLevel.is_valid level
                  && negb (out_of_limit (OrderBookLevel.get_price level)))
               levels))).
Proof.
  induction levels as [|level rest IH]; intros available; [reflexivity|].
  simpl. destruct (OrderBookLevel.is_valid level); [|reflexivity].
  destruct (out_of_limit _); [reflexivity|]. simpl.
  destruct (quantity <=? _)%float; [reflexivity|]. apply IH.
Qed.

Lemma take_while_ext {A : Type} (f g : A -> bool) (l : list A) :
  (forall x, f x = g x) -> take_while f l = take_while g l.
Proof.
  intros Hfg. induction l as [|x l IH]; [reflexivity|].
  simpl. rewrite Hfg, IH. reflexivity.
Qed.

End Liquidity.

(** C4, as amended.  [has_sufficient_liquidity] walks the opposing side
    from level 0, adds up the size of each level whose price is
    acceptable ([<= limit] for BUY, [>= limit] for SELL), stops at the
    first invalid or out-of-limit level, and returns true if and only if
    the running total, after some level has been added, reaches the
    requested quantity. *)
Theorem has_sufficient_liquidity_spec
    (b : OrderBook.t) (side : OrderSide) (quantity : float) (limit_price : Price.t) :
  OrderBook.has_sufficient_liquidity b side quantity limit_price
  = existsb (fun total => (quantity <=? total)%float)
      (running_totals 0%float
         (map OrderBookLevel.get_size (acceptable_run b side limit_price))).
Proof.
  unfold OrderBook.has_sufficient_liquidity, acceptable_run.
  destruct side; simpl; rewrite liquidity_walk_spec; do 3 f_equal;
    apply take_while_ext; intros level; f_equal;
    unfold Price.gt, Price.lt, Price.le, Price.ge.
  - symmetry. apply Z.leb_antisym.
  - symmetry. apply Z.leb_antisym.
Qed.

(** C4, as stated, fails: on a book with no valid level the walk
    accumulates nothing, so the accumulated size [0] reaches the
    requested quantity [0], yet [has_sufficient_liquidity] returns
    false. *)
Lemma has_sufficient_liquidity_counterexample :
  let b := OrderBook.new "AAPL" in
  let limit_price := Price.of_ticks 100 in
  OrderBook.has_sufficient_liquidity b ORDER_SIDE_BUY 0%float limit_price = false
  /\ (0 <=? accumulated_size (acceptable_run b ORDER_SIDE_BUY limit_price))%float = true.
Proof. split; reflexivity. Qed.

(* ===================================================================== *)
(** ** Limit and stop orders (C5, C6) *)
(* ===================================================================== *)

Section LimitAndStop.

Lemma liquidity_walk_not_nan out_of_limit quantity levels : forall available,
  OrderBook.liquidity_walk out_of_limit quantity available levels = true ->
  Prim2SF quantity <> S754_nan.
Proof.
  induction levels as [|level rest IH]; intros available; simpl; [discriminate|].
  destruct (negb _); [discriminate|]. destruct (out_of_limit _); [discriminate|].
  destruct (quantity <=? _)%float eqn:Hq; [|apply IH].
  intros _. by apply leb_true_not_nan in Hq as [? _].
Qed.

Lemma has_sufficient_liquidity_not_nan book side quantity limit_price :
  OrderBook.has_sufficient_liquidity book side quantity limit_price = true ->
  Prim2SF quantity <> S754_nan.
Proof.
  unfold OrderBook.has_sufficient_liquidity.
  destruct side; apply liquidity_walk_not_nan.
Qed.

Lemma validate_quantity order :
  Order.validate order = true -> (Order.quantity_ order <=? 0)%float = false.
Proof.
  unfold Order.validate. destruct (_ || _); [discriminate|].
  by destruct (Order.quantity_ order <=? 0)%float.
Qed.

(** The first fill of a new order, for its whole quantity. *)
Lemma add_fill_whole_quantity request price :
  let order := Order.of_request request in
  Prim2SF (Order.quantity_ order) <> S754_nan ->
  (Order.quantity_ order <=? 0)%float = false ->
  let filled := Order.add_fill order price (Order.quantity_ order) 0%float in
  Order.fills_ filled = [(price, Order.quantity_ order)]
  /\ Order.filled_quantity_ filled = Order.quantity_ order
  /\ Order.status_ filled = ORDER_STATUS_FILLED
  /\ Order.average_fill_price_ticks_ filled
     = first_fill_average price (Order.quantity_ order).
Proof.
  intros order Hnan Hpos filled. subst filled order.
  unfold Order.add_fill, Order.of_request in *. cbn [Order.quantity_
    Order.filled_quantity_ Order.fills_ Order.status_ Order.average_fill_price_ticks_
    app] in *.
  rewrite (add_zero_l_positive _ Hnan Hpos), (leb_refl _ Hnan).
  repeat split; reflexivity.
Qed.

Lemma execute_limit_order_eq e order book :
  ExecutionEngine.order_books_ e !! Order.symbol_ order = Some book ->
  ExecutionEngine.execute_limit_order e order
  = if limit_crosses (Order.side_ order) (Order.price_ order)
         (reference_price book (Order.side_ order))
       && OrderBook.has_sufficient_liquidity book (Order.side_ order)
            (Order.quantity_ order) (Order.price_ order)
    then (EXEC_SUCCESS,
          Order.add_fill order (Order.price_ order) (Order.quantity_ order) 0%float,
          [])
    else (EXEC_SUCCESS, Order.set_status order ORDER_STATUS_SUBMITTED, []).
Proof.
  intros Hbook.
  unfold ExecutionEngine.execute_limit_order, Order.get_symbol, Order.get_side,
    Order.get_quantity, Order.get_price, limit_crosses, reference_price.
  rewrite Hbook. by destruct (Order.side_ order).
Qed.

Lemma execute_stop_order_eq e order book :
  ExecutionEngine.order_books_ e !! Order.symbol_ order = Some book ->
  ExecutionEngine.execute_stop_order e order
  = if stop_triggered (Order.side_ order) (OrderBook.get_mid_price book)
         (Order.stop_price_ order)
    then (EXEC_SUCCESS,
          Order.add_fill order (OrderBook.get_mid_price book)
                         (Order.quantity_ order) 0%float,
          [])
    else (EXEC_SUCCESS, Order.set_status order ORDER_STATUS_SUBMITTED, []).
Proof.
  intros Hbook.
  unfold ExecutionEngine.execute_stop_order, Order.get_symbol, Order.get_side,
    Order.get_quantity, Order.get_stop_price, stop_triggered.
  by rewrite Hbook.
Qed.

End LimitAndStop.

(** C5, as amended.  For a valid limit order on a known symbol, with
    [ref] the best ask for BUY and the best bid for SELL: the order fills
    immediately if and only if ((BUY and limit >= ref) or (SELL and
    limit <= ref)) and [has_sufficient_liquidity(side, qty, limit)] holds.
    When it fills, exactly one fill at the limit price for the full
    quantity is recorded, the filled quantity is the order quantity, the
    status is FILLED, the average fill price is the size-weighted mean
    evaluated in double arithmetic and truncated to ticks
    ([first_fill_average], which may fall short of the limit price), and
    the result is SUCCESS.  Otherwise the order is left with status
    SUBMITTED, nothing filled, and the result is still SUCCESS. *)
Theorem execute_limit_order_spec
    (e : ExecutionEngine.t) (request : COrderRequest.t) (book : OrderBook.t) :
  let order := Order.of_request request in
  ExecutionEngine.order_books_ e !! Order.symbol_ order = Some book ->
  Order.validate order = true ->
  let out := ExecutionEngine.execute_limit_order e order in
  let order' := out.1.2 in
  out.1.1 = EXEC_SUCCESS
  /\ out.2 = []
  /\ if limit_crosses (Order.side_ order) (Order.price_ order)
          (reference_price book (Order.side_ order))
        && OrderBook.has_sufficient_liquidity book (Order.side_ order)
             (Order.quantity_ order) (Order.price_ order)
     then Order.fills_ order' = [(Order.price_ order, Order.quantity_ order)]
          /\ Order.filled_quantity_ order' = Order.quantity_ order
          /\ Order.status_ order' = ORDER_STATUS_FILLED
          /\ Order.average_fill_price_ticks_ order'
             = first_fill_average (Order.price_ order) (Order.quantity_ order)
     else Order.fills_ order' = []
          /\ Order.filled_quantity_ order' = 0%float
          /\ Order.status_ order' = ORDER_STATUS_SUBMITTED.
Proof.
  intros order Hbook Hvalid out order'. subst out order'.
  rewrite (execute_limit_order_eq _ _ _ Hbook).
  destruct (limit_crosses _ _ _); simpl andb; [|by repeat split].
  destruct (OrderBook.has_sufficient_liquidity _ _ _ _) eqn:Hliq; [|by repeat split].
  split; [reflexivity|]. split; [reflexivity|].
  apply add_fill_whole_quantity.
  - by apply has_sufficient_liquidity_not_nan in Hliq.
  - by apply validate_quantity.
Qed.

(** A limit order that crosses the quoted book is filled in one fill. *)
Lemma execute_limit_order_spec_witness :
  Order.status_
    (ExecutionEngine.execute_limit_order
       Examples.quoted_engine (Order.of_request LimitExamples.aggressive_buy)).1.2
  = ORDER_STATUS_FILLED.
Proof.
  pose proof
    (execute_limit_order_spec Examples.quoted_engine LimitExamples.aggressive_buy
       LimitExamples.quoted_book eq_refl eq_refl) as H.
  cbv zeta in H. destruct H as (_ & _ & H).
  exact (proj1 (proj2 (proj2 H))).
Defined.

(** C5, as stated, fails: BUY 1.1 AAPL with limit 2500 passes validation
    and fills at once against the quoted book, with the single fill at
    the limit price of 250000000 ticks, but the average fill price of the
    order is 249999999 ticks: (250000000 * 1.1) / 1.1 rounds below
    250000000 in double arithmetic and is then truncated. *)
Lemma execute_limit_order_average_counterexample :
  let order := Order.of_request LimitExamples.fractional_buy in
  let order' := (ExecutionEngine.execute_limit_order Examples.quoted_engine order).1.2 in
  let response :=
    (ExecutionEngine.submit_order Examples.quoted_engine LimitExamples.fractional_buy
       Examples.blank_response 1000 5000 Examples.no_clock).1.2 in
  Order.validate order = true
  /\ Order.fills_ order' = [(Order.price_ order, Order.quantity_ order)]
  /\ Order.status_ order' = ORDER_STATUS_FILLED
  /\ Price.ticks (Order.price_ order) = 250000000
  /\ Order.average_fill_price_ticks_ order' = 249999999
  /\ COrderResponse.status response = ORDER_STATUS_FILLED
  /\ COrderResponse.average_price response = 2499.9999899999998%float.
Proof. repeat split; vm_compute; reflexivity. Qed.

(** C6.  For a stop order on a known symbol, with [p] the mid price of
    the book: the stop triggers if and only if (BUY and p >= stop price)
    or (SELL and p <= stop price); when triggered, exactly one fill at
    [p] for the full quantity is recorded and the result is SUCCESS;
    otherwise the order is left with status SUBMITTED and unfilled, and
    the result is still SUCCESS. *)
Theorem execute_stop_order_spec
    (e : ExecutionEngine.t) (request : COrderRequest.t) (book : OrderBook.t) :
  let order := Order.of_request request in
  ExecutionEngine.order_books_ e !! Order.symbol_ order = Some book ->
  let p := OrderBook.get_mid_price book in
  let out := ExecutionEngine.execute_stop_order e order in
  let order' := out.1.2 in
  out.1.1 = EXEC_SUCCESS
  /\ out.2 = []
  /\ if stop_triggered (Order.side_ order) p (Order.stop_price_ order)
     then order' = Order.add_fill order p (Order.quantity_ order) 0%float
          /\ Order.fills_ order' = [(p, Order.quantity_ order)]
     else Order.fills_ order' = []
          /\ Order.filled_quantity_ order' = 0%float
          /\ Order.status_ order' = ORDER_STATUS_SUBMITTED.
Proof.
  intros order Hbook p out order'. subst out order' p.
  rewrite (execute_stop_order_eq _ _ _ Hbook).
  destruct (stop_triggered _ _ _); by repeat split.
Qed.

(** A sell stop at 10 against a mid price near 150 is not triggered. *)
Lemma execute_stop_order_spec_witness :
  Order.status_
    (ExecutionEngine.execute_stop_order
       Examples.quoted_engine (Order.of_request LimitExamples.resting_stop)).1.2
  = ORDER_STATUS_SUBMITTED.
Proof.
  pose proof
    (execute_stop_order_spec Examples.quoted_engine LimitExamples.resting_stop
       LimitExamples.quoted_book eq_refl) as H.
  cbv zeta in H. destruct H as (_ & _ & H).
  exact (proj2 (proj2 H)).
Defined.

(* ===================================================================== *)
(** ** Cancellation (C7) *)
(* ===================================================================== *)

Section Cancel.

Lemma is_active_iff (order : Order.t) :
  Order.is_active order = true
  <-> Order.status_ order = ORDER_STATUS_SUBMITTED
      \/ Order.status_ order = ORDER_STATUS_PARTIALLY_FILLED.
Proof.
  unfold Order.is_active. rewrite orb_true_iff, !bool_decide_eq_true. reflexivity.
Qed.

Lemma cancel_order_unknown e order_id :
  ExecutionEngine.active_orders_ e !! order_id = None ->
  ExecutionEngine.cancel_order e order_id = (EXEC_ERROR_ORDER_NOT_FOUND, e, []).
Proof. intros H. unfold ExecutionEngine.cancel_order. by rewrite H. Qed.

Lemma cancel_order_inactive e order_id address order :
  ExecutionEngine.active_orders_ e !! order_id = Some address ->
  ExecutionEngine.orders_store_ e !! address = Some order ->
  Order.is_active order = false ->
  ExecutionEngine.cancel_order e order_id = (EXEC_ERROR_INVALID_ORDER, e, []).
Proof.
  intros Hm Hs Ha. unfold ExecutionEngine.cancel_order. by rewrite Hm, Hs, Ha.
Qed.

Lemma cancel_order_active e order_id address order :
  ExecutionEngine.active_orders_ e !! order_id = Some address ->
  ExecutionEngine.orders_store_ e !! address = Some order ->
  Order.is_active order = true ->
  ExecutionEngine.cancel_order e order_id
  = (EXEC_SUCCESS,
     ExecutionEngine.set_orders e
       (<[address := Order.set_status order ORDER_STATUS_CANCELLED]>
          (ExecutionEngine.orders_store_ e))
       (delete order_id (ExecutionEngine.active_orders_ e))
       (ExecutionEngine.order_queue_ e),
     if ExecutionEngine.status_callback_ e
     then [StatusNotification order_id ORDER_STATUS_CANCELLED "Order cancelled"]
     else []).
Proof.
  intros Hm Hs Ha. unfold ExecutionEngine.cancel_order. by rewrite Hm, Hs, Ha.
Qed.

End Cancel.

(** C7.  [cancel_order] returns [ORDER_NOT_FOUND] when the id is not in
    the active-orders map; it returns [INVALID_ORDER] when the order is
    present but not active (neither SUBMITTED nor PARTIALLY_FILLED) and
    leaves the engine, and so the order, unchanged; otherwise it sets
    the status of the order to CANCELLED, every other member of the
    order staying as it was, removes the id from the map, invokes the
    status callback (when one is registered) with the message "Order
    cancelled" and returns SUCCESS, so that a second cancel of the same
    id returns [ORDER_NOT_FOUND]. *)
Theorem cancel_order_spec (e : ExecutionEngine.t) (order_id : string) :
  (ExecutionEngine.active_orders_ e !! order_id = None ->
   ExecutionEngine.cancel_order e order_id = (EXEC_ERROR_ORDER_NOT_FOUND, e, []))
  /\ (forall address order,
        ExecutionEngine.active_orders_ e !! order_id = Some address ->
        ExecutionEngine.orders_store_ e !! address = Some order ->
        let out := ExecutionEngine.cancel_order e order_id in
        let e' := out.1.2 in
        if bool_decide (Order.status_ order = ORDER_STATUS_SUBMITTED
                        \/ Order.status_ order = ORDER_STATUS_PARTIALLY_FILLED)
        then out.1.1 = EXEC_SUCCESS
             /\ (exists cancelled,
                   ExecutionEngine.orders_store_ e' !! address = Some cancelled
                   /\ Order.status_ cancelled = ORDER_STATUS_CANCELLED
                   /\ Order.is_active cancelled = false
                   /\ cancelled
                      = Order.mk (Order.order_id_ order) (Order.symbol_ order)
                                 (Order.type_ order) (Order.side_ order)
                                 (Order.quantity_ order) (Order.price_ order)
                                 (Order.stop_price_ order)
                                 (Order.time_in_force_ order)
                                 ORDER_STATUS_CANCELLED
                                 (Order.filled_quantity_ order)
                                 (Order.average_fill_price_ticks_ order)
                                 (Order.timestamp_ns_ order)
                                 (Order.client_id_ order) (Order.fills_ order))
             /\ (forall other, other <> address ->
                   ExecutionEngine.orders_store_ e' !! other
                   = ExecutionEngine.orders_store_ e !! other)
             /\ ExecutionEngine.orders_store_ e' !! address
                = Some (Order.set_status order ORDER_STATUS_CANCELLED)
             /\ ExecutionEngine.active_orders_ e'
                = delete order_id (ExecutionEngine.active_orders_ e)
             /\ ExecutionEngine.active_orders_ e' !! order_id = None
             /\ out.2
                = (if ExecutionEngine.status_callback_ e
                   then [StatusNotification order_id ORDER_STATUS_CANCELLED
                                            "Order cancelled"]
                   else [])
             /\ ExecutionEngine.cancel_order e' order_id
                = (EXEC_ERROR_ORDER_NOT_FOUND, e', [])
        else out = (EXEC_ERROR_INVALID_ORDER, e, [])).
Proof.
  split; [apply cancel_order_unknown|].
  intros address order Hm Hs out e'. subst e' out.
  case_bool_decide as Hactive.
  - apply is_active_iff in Hactive.
    rewrite (cancel_order_active _ _ _ _ Hm Hs Hactive).
    cbn [fst snd ExecutionEngine.set_orders ExecutionEngine.orders_store_
           ExecutionEngine.active_orders_ ExecutionEngine.status_callback_].
    assert (Hstored :
      <[address := Order.set_status order ORDER_STATUS_CANCELLED]>
        (ExecutionEngine.orders_store_ e) !! address
      = Some (Order.set_status order ORDER_STATUS_CANCELLED)).
    { apply list_lookup_insert_eq. by eapply lookup_lt_Some. }
    split; [reflexivity|]. split.
    { eexists. split; [exact Hstored|]. by repeat split. }
    split.
    { intros other Hother. by apply list_lookup_insert_ne. }
    split; [exact Hstored|]. split; [reflexivity|].
    split; [apply lookup_delete_eq|]. split; [reflexivity|].
    apply cancel_order_unknown. simpl. apply lookup_delete_eq.
  - apply (cancel_order_inactive _ _ _ _ Hm Hs).
    destruct (Order.is_active order) eqn:Ha; [|reflexivity].
    by apply is_active_iff in Ha.
Qed.

(* ===================================================================== *)
(** ** Metrics (C8) *)
(* ===================================================================== *)

Section Metrics.

(** The counters count the recorded orders, modulo 2^64, and the buffer
    never holds more than [MAX_LATENCY_SAMPLES] samples. *)
Lemma recorded_counters n m :
  recorded n m ->
  PerformanceMetrics.total_orders_processed_ m = uint64_wrap (Z.of_nat n)
  /\ (exists s f : nat,
        (s + f = n)%nat
        /\ PerformanceMetrics.successful_executions_ m = uint64_wrap (Z.of_nat s)
        /\ PerformanceMetrics.failed_executions_ m = uint64_wrap (Z.of_nat f))
  /\ Z.of_nat (length (PerformanceMetrics.latency_samples_ m))
     <= PerformanceMetrics.MAX_LATENCY_SAMPLES.
Proof.
  unfold uint64_wrap, PerformanceMetrics.MAX_LATENCY_SAMPLES.
  induction 1 as [now|n m now _ _|n m lat success _ IH|n m q p _ IH|n m b _ IH|n m c _ IH];
    try exact IH;
    try (simpl; split; [reflexivity|]; split; [by exists 0%nat, 0%nat|lia]).
  destruct IH as (Htotal & (s & f & Hsum & Hs & Hf) & Hlen).
  cbn [PerformanceMetrics.record_order_processed
         PerformanceMetrics.total_orders_processed_
         PerformanceMetrics.successful_executions_
         PerformanceMetrics.failed_executions_
         PerformanceMetrics.latency_samples_].
  unfold uint64_wrap, PerformanceMetrics.MAX_LATENCY_SAMPLES.
  split; [|split].
  - rewrite Htotal, Nat2Z.inj_succ, <- Z.add_1_r. apply Zplus_mod_idemp_l.
  - destruct success.
    + exists (S s), f. split; [lia|]. split; [|exact Hf].
      rewrite Hs, Nat2Z.inj_succ, <- Z.add_1_r. apply Zplus_mod_idemp_l.
    + exists s, (S f). split; [lia|]. split; [exact Hs|].
      rewrite Hf, Nat2Z.inj_succ, <- Z.add_1_r. apply Zplus_mod_idemp_l.
  - destruct (Z.ltb_spec 10000
                (Z.of_nat (length (PerformanceMetrics.latency_samples_ m ++ [lat]))));
      [rewrite length_drop|]; lia.
Qed.

(** The newest sample is retained, and the buffer is the last
    [MAX_LATENCY_SAMPLES] samples of the buffer extended by it. *)
Lemma record_order_processed_samples m latency_micros success :
  let samples := PerformanceMetrics.latency_samples_ m ++ [latency_micros] in
  let m' := PerformanceMetrics.record_order_processed m latency_micros success in
  PerformanceMetrics.latency_samples_ m'
  = drop (length samples - Z.to_nat PerformanceMetrics.MAX_LATENCY_SAMPLES) samples
  /\ last (PerformanceMetrics.latency_samples_ m') = Some latency_micros.
Proof.
  intros samples m'. subst m'.
  cbn [PerformanceMetrics.record_order_processed PerformanceMetrics.latency_samples_].
  fold samples. unfold PerformanceMetrics.MAX_LATENCY_SAMPLES.
  assert (Hlast : forall k, (k < length samples)%nat ->
                            last (drop k samples) = Some latency_micros).
  { intros k Hk. rewrite last_lookup, lookup_drop, length_drop.
    replace (k + Nat.pred (length samples - k))%nat
      with (Nat.pred (length samples)) by lia.
    rewrite <- last_lookup. subst samples. apply last_snoc. }
  assert (Hlen : (0 < length samples)%nat)
    by (subst samples; rewrite length_app; simpl; lia).
  destruct (Z.ltb_spec 10000 (Z.of_nat (length samples))).
  - split; [f_equal; lia|]. apply Hlast. lia.
  - replace (length samples - Z.to_nat 10000)%nat with 0%nat by lia.
    split; [reflexivity|]. apply (Hlast 0%nat). lia.
Qed.

(** For every buffer size the engine can reach, the index computed in
    double arithmetic, [size * 0.99] truncated, is [floor (99 * size / 100)]. *)
Lemma p99_index_floor (size : nat) :
  Z.of_nat size <= PerformanceMetrics.MAX_LATENCY_SAMPLES ->
  PerformanceMetrics.p99_index size = 99 * Z.of_nat size / 100.
Proof.
  unfold PerformanceMetrics.MAX_LATENCY_SAMPLES. intros Hsize.
  assert (Hall :
            forallb (fun n => PerformanceMetrics.p99_index n =? 99 * Z.of_nat n / 100)
                    (seq 0 (Z.to_nat 10001)) = true)
    by (vm_compute; reflexivity).
  rewrite forallb_forall in Hall. apply Z.eqb_eq, Hall, in_seq. lia.
Qed.

Lemma sorted_samples_sorted m :
  Sorted Z.le (PerformanceMetrics.sorted_samples m)
  /\ PerformanceMetrics.sorted_samples m ≡ₚ PerformanceMetrics.latency_samples_ m.
Proof.
  unfold PerformanceMetrics.sorted_samples. split.
  - apply Sorted_merge_sort. intros x y. lia.
  - apply merge_sort_Permutation.
Qed.

(** The P99 of a snapshot over a non-empty buffer of at most
    [MAX_LATENCY_SAMPLES] samples. *)
Lemma get_metrics_p99 m now_ns :
  PerformanceMetrics.latency_samples_ m <> [] ->
  Z.of_nat (length (PerformanceMetrics.latency_samples_ m))
  <= PerformanceMetrics.MAX_LATENCY_SAMPLES ->
  let position := spec_p99_position (length (PerformanceMetrics.latency_samples_ m)) in
  CEngineMetrics.p99_latency_micros (PerformanceMetrics.get_metrics m now_ns)
  = int64_to_double (nth position (PerformanceMetrics.sorted_samples m) 0)
  /\ nth position (PerformanceMetrics.sorted_samples m) 0
     ∈ PerformanceMetrics.latency_samples_ m.
Proof.
  intros Hne Hlen position.
  destruct (sorted_samples_sorted m) as [_ Hperm].
  pose proof (Permutation_length Hperm) as Hlength.
  assert (Hpos : (position < length (PerformanceMetrics.sorted_samples m))%nat).
  { subst position. unfold spec_p99_position. rewrite Hlength.
    destruct (PerformanceMetrics.latency_samples_ m) as [|x l]; [done|].
    apply Nat2Z.inj_lt. rewrite Z2Nat.id by (apply Z.div_pos; lia).
    apply Z.div_lt_upper_bound; cbn [length]; lia. }
  split.
  - cbn [PerformanceMetrics.get_metrics CEngineMetrics.p99_latency_micros].
    destruct (PerformanceMetrics.latency_samples_ m) as [|x l] eqn:Hs; [done|].
    rewrite Hlength, p99_index_floor by exact Hlen.
    fold (spec_p99_position (length (x :: l))). fold position.
    destruct (Z.ltb_spec (99 * Z.of_nat (length (x :: l)) / 100)
                         (Z.of_nat (length (x :: l)))) as [_|Hge]; [reflexivity|].
    exfalso.
    assert (99 * Z.of_nat (length (x :: l)) / 100 < Z.of_nat (length (x :: l)))
      by (apply Z.div_lt_upper_bound; cbn [length]; lia).
    lia.
  - rewrite <- Hperm. apply list_elem_of_In, nth_In, Hpos.
Qed.

(** The snapshot of the engine is the snapshot of its metrics object,
    but for the count of active orders. *)
Lemma engine_snapshot e now_ns :
  let snapshot := ExecutionEngine.get_metrics e now_ns in
  let metrics := PerformanceMetrics.get_metrics (ExecutionEngine.metrics_ e) now_ns in
  CEngineMetrics.total_orders_processed snapshot
  = CEngineMetrics.total_orders_processed metrics
  /\ CEngineMetrics.successful_executions snapshot
     = CEngineMetrics.successful_executions metrics
  /\ CEngineMetrics.failed_executions snapshot
     = CEngineMetrics.failed_executions metrics
  /\ CEngineMetrics.average_latency_micros snapshot
     = CEngineMetrics.average_latency_micros metrics
  /\ CEngineMetrics.p99_latency_micros snapshot
     = CEngineMetrics.p99_latency_micros metrics
  /\ CEngineMetrics.active_orders snapshot
     = Z.of_nat (size (ExecutionEngine.active_orders_ e)).
Proof. repeat split. Qed.

(** The metrics object of an engine is only ever used through its
    methods: [submit_order] records at most one order. *)
Lemma recorded_submit_order n e request response start_time end_time clock :
  recorded n (ExecutionEngine.metrics_ e) ->
  let e' :=
    (ExecutionEngine.submit_order e request response start_time end_time clock).1.1.2 in
  recorded n (ExecutionEngine.metrics_ e') \/ recorded (S n) (ExecutionEngine.metrics_ e').
Proof.
  intros Hrec. unfold ExecutionEngine.submit_order.
  destruct (negb _); [by left|]. destruct (_ && _); [by left|]. right.
  destruct (ExecutionEngine.dispatch _ _ _) as [[r o] ev]. simpl.
  destruct (_ && _); [apply recorded_fill|]; by apply recorded_order.
Qed.

End Metrics.

(** C8.  For a metrics object that has recorded [n] orders since it was
    made or last reset, [n < 2^64], and every snapshot of it:
    [successful_executions + failed_executions = total_orders_processed]
    (each is the number of orders recorded, the total [n]); the latency
    buffer holds at most 10 000 samples, and recording an order keeps the
    newest sample, the buffer becoming the last 10 000 samples; the
    reported P99 is [0] on an empty buffer and otherwise the sample at
    position [floor (0.99 * size)] of the sorted buffer, which is an
    element of the buffer; the average latency is [0] when nothing was
    recorded and otherwise the latency sum divided by the total. *)
Theorem metrics_snapshot_spec (n : nat) (m : PerformanceMetrics.t) (now_ns : Z) :
  recorded n m ->
  Z.of_nat n < 2 ^ 64 ->
  let snapshot := PerformanceMetrics.get_metrics m now_ns in
  let samples := PerformanceMetrics.latency_samples_ m in
  CEngineMetrics.successful_executions snapshot
  + CEngineMetrics.failed_executions snapshot
  = CEngineMetrics.total_orders_processed snapshot
  /\ CEngineMetrics.total_orders_processed snapshot = Z.of_nat n
  /\ Z.of_nat (length samples) <= 10000
  /\ (forall latency_micros success,
        let m' := PerformanceMetrics.record_order_processed m latency_micros success in
        Z.of_nat (length (PerformanceMetrics.latency_samples_ m')) <= 10000
        /\ last (PerformanceMetrics.latency_samples_ m') = Some latency_micros
        /\ PerformanceMetrics.latency_samples_ m'
           = drop (length (samples ++ [latency_micros]) - Z.to_nat 10000)
                  (samples ++ [latency_micros]))
  /\ Sorted Z.le (PerformanceMetrics.sorted_samples m)
  /\ PerformanceMetrics.sorted_samples m ≡ₚ samples
  /\ match samples with
     | [] => CEngineMetrics.p99_latency_micros snapshot = 0%float
     | _ :: _ =>
         CEngineMetrics.p99_latency_micros snapshot
         = int64_to_double
             (nth (spec_p99_position (length samples))
                  (PerformanceMetrics.sorted_samples m) 0)
         /\ nth (spec_p99_position (length samples))
                (PerformanceMetrics.sorted_samples m) 0 ∈ samples
     end
  /\ CEngineMetrics.average_latency_micros snapshot
     = if CEngineMetrics.total_orders_processed snapshot =? 0 then 0%float
       else (int64_to_double (PerformanceMetrics.total_latency_micros_ m)
             / int64_to_double (CEngineMetrics.total_orders_processed snapshot))%float.
Proof.
  intros Hrec Hn snapshot samples.
  destruct (recorded_counters n m Hrec) as (Htotal & (s & f & Hsum & Hs & Hf) & Hlen).
  unfold uint64_wrap, PerformanceMetrics.MAX_LATENCY_SAMPLES in *.
  assert (Htotal' : CEngineMetrics.total_orders_processed snapshot = Z.of_nat n).
  { subst snapshot. cbn [PerformanceMetrics.get_metrics
                           CEngineMetrics.total_orders_processed].
    rewrite Htotal. apply Z.mod_small. lia. }
  split.
  { rewrite Htotal'. subst snapshot.
    cbn [PerformanceMetrics.get_metrics CEngineMetrics.successful_executions
           CEngineMetrics.failed_executions].
    rewrite Hs, Hf, !Z.mod_small by lia. lia. }
  split; [exact Htotal'|]. split; [exact Hlen|]. split.
  { intros lat success.
    destruct (recorded_counters _ _ (recorded_order n m lat success Hrec))
      as (_ & _ & Hlen').
    destruct (record_order_processed_samples m lat success) as [Hdrop Hlast].
    split; [exact Hlen'|]. split; [exact Hlast|exact Hdrop]. }
  split; [apply sorted_samples_sorted|]. split; [apply sorted_samples_sorted|]. split.
  { subst samples. destruct (PerformanceMetrics.latency_samples_ m) as [|x l] eqn:Hsamples.
    - subst snapshot. cbn [PerformanceMetrics.get_metrics CEngineMetrics.p99_latency_micros].
      by rewrite Hsamples.
    - rewrite <- Hsamples. apply get_metrics_p99; [by rewrite Hsamples|].
      unfold PerformanceMetrics.MAX_LATENCY_SAMPLES. by rewrite Hsamples. }
  subst snapshot.
  cbn [PerformanceMetrics.get_metrics CEngineMetrics.average_latency_micros
         CEngineMetrics.total_orders_processed].
  rewrite Htotal, Z.mod_small by lia.
  destruct (Z.ltb_spec 0 (Z.of_nat n)), (Z.eqb_spec (Z.of_nat n) 0); try reflexivity; lia.
Qed.

(** One order recorded with a latency of 4 microseconds. *)
Lemma metrics_snapshot_spec_witness :
  let m := PerformanceMetrics.record_order_processed (PerformanceMetrics.new 0) 4 true in
  let snapshot := PerformanceMetrics.get_metrics m 5000000000 in
  CEngineMetrics.successful_executions snapshot
  + CEngineMetrics.failed_executions snapshot
  = CEngineMetrics.total_orders_processed snapshot.
Proof.
  cbv zeta.
  exact (proj1 (metrics_snapshot_spec 1
                  (PerformanceMetrics.record_order_processed (PerformanceMetrics.new 0) 4 true)
                  5000000000
                  (recorded_order 0 _ 4 true (recorded_new 0))
                  eq_refl)).
Defined.

(* ===================================================================== *)
(** ** Lifecycle (C9) *)
(* ===================================================================== *)

Section Lifecycle.

Lemma initialize_result e config_json :
  (ExecutionEngine.initialize e config_json).1 = EXEC_SUCCESS
  /\ ExecutionEngine.initialized_ (ExecutionEngine.initialize e config_json).2 = true.
Proof. split; reflexivity. Qed.

(** [initialize] assigns a new, empty book to each seed symbol, whatever
    the book held before, and leaves the other books alone. *)
Lemma initialize_books e config_json symbol :
  ExecutionEngine.order_books_ (ExecutionEngine.initialize e config_json).2 !! symbol
  = if bool_decide (symbol ∈ ExecutionEngine.seed_symbols)
    then Some (OrderBook.new symbol)
    else ExecutionEngine.order_books_ e !! symbol.
Proof.
  unfold ExecutionEngine.initialize, ExecutionEngine.seed_symbols. simpl.
  case_bool_decide as Hin.
  - repeat (apply elem_of_cons in Hin as [->|Hin];
            [by repeat (rewrite lookup_insert_eq || rewrite lookup_insert_ne by done)|]).
    by apply elem_of_nil in Hin.
  - repeat rewrite lookup_insert_ne; [done|..];
      intros <-; apply Hin; repeat constructor.
Qed.

Lemma start_uninitialized e :
  ExecutionEngine.initialized_ e = false ->
  ExecutionEngine.start e = (EXEC_ERROR_SYSTEM_ERROR, e).
Proof. intros H. unfold ExecutionEngine.start. by rewrite H. Qed.

Lemma start_running e :
  ExecutionEngine.initialized_ e = true ->
  ExecutionEngine.running_ e = true ->
  ExecutionEngine.start e = (EXEC_SUCCESS, e).
Proof. intros Hi Hr. unfold ExecutionEngine.start. by rewrite Hi, Hr. Qed.

Lemma start_result e :
  ExecutionEngine.initialized_ e = true ->
  (ExecutionEngine.start e).1 = EXEC_SUCCESS
  /\ ExecutionEngine.running_ (ExecutionEngine.start e).2 = true.
Proof.
  intros Hi. unfold ExecutionEngine.start. rewrite Hi. simpl.
  by destruct (ExecutionEngine.running_ e) eqn:Hr.
Qed.

Lemma stop_result e :
  (ExecutionEngine.stop e).1 = EXEC_SUCCESS
  /\ ExecutionEngine.running_ (ExecutionEngine.stop e).2 = false
  /\ ExecutionEngine.worker_threads_ (ExecutionEngine.stop e).2 = 0%nat
  /\ ExecutionEngine.market_simulator_thread_ (ExecutionEngine.stop e).2 = false.
Proof. repeat split. Qed.

End Lifecycle.

(** C9 at the failing input: the engine has been initialised and started
    and the simulator has quoted AAPL.  A second [initialize] returns
    SUCCESS, but it is not a no-op: the AAPL book, which held the quote,
    is replaced by an empty book.  The rest of the claim holds: [start]
    on the running engine returns SUCCESS and changes nothing, [stop]
    returns SUCCESS also on an engine that is not running, and [start]
    on an engine that was never initialised returns SYSTEM_ERROR. *)
Theorem initialize_again_replaces_books :
  let e := Examples.quoted_engine in
  let e' := (ExecutionEngine.initialize e "{}").2 in
  ExecutionEngine.initialized_ e = true
  /\ (ExecutionEngine.initialize e "{}").1 = EXEC_SUCCESS
  /\ ExecutionEngine.order_books_ e !! "AAPL"%string = Some LimitExamples.quoted_book
  /\ ExecutionEngine.order_books_ e' !! "AAPL"%string = Some (OrderBook.new "AAPL")
  /\ OrderBook.get_best_ask LimitExamples.quoted_book = Price.of_ticks 15030013
  /\ OrderBook.get_best_ask (OrderBook.new "AAPL") = Price.of_ticks 0
  /\ ExecutionEngine.start e = (EXEC_SUCCESS, e)
  /\ (ExecutionEngine.stop (ExecutionEngine.new 0)).1 = EXEC_SUCCESS
  /\ (ExecutionEngine.start (ExecutionEngine.new 0)).1 = EXEC_ERROR_SYSTEM_ERROR.
Proof.
  cbv zeta. split; [reflexivity|]. split; [reflexivity|]. split; [reflexivity|].
  split; [by rewrite initialize_books|]. repeat split.
Qed.

(* ===================================================================== *)
(** ** Orders stay in the active-orders map (C10) *)
(* ===================================================================== *)

Section ActiveOrders.

(** What [submit_order] does with an order it accepts. *)
Lemma submit_order_accepted e request response start_time end_time clock :
  let order := Order.of_request request in
  Order.validate order = true ->
  passes_risk_check e order = true ->
  let address := length (ExecutionEngine.orders_store_ e) in
  let accepted :=
    ExecutionEngine.set_orders e
      (ExecutionEngine.orders_store_ e ++ [order])
      (<[Order.order_id_ order := address]> (ExecutionEngine.active_orders_ e))
      (ExecutionEngine.order_queue_ e ++ [address]) in
  let executed := ExecutionEngine.dispatch accepted clock order in
  let out := ExecutionEngine.submit_order e request response start_time end_time clock in
  out.1.1.1 = executed.1.1
  /\ ExecutionEngine.active_orders_ out.1.1.2
     = <[Order.order_id_ order := address]> (ExecutionEngine.active_orders_ e)
  /\ ExecutionEngine.orders_store_ out.1.1.2
     = ExecutionEngine.orders_store_ e ++ [executed.1.2]
  /\ COrderResponse.status out.1.2 = Order.status_ executed.1.2
  /\ out.2 = executed.2.
Proof.
  intros order Hvalid Hrisk address accepted executed out.
  subst out. unfold ExecutionEngine.submit_order.
  fold order. rewrite Hvalid. simpl negb. cbv iota.
  unfold passes_risk_check in Hrisk. apply negb_true_iff in Hrisk.
  unfold Order.get_quantity. rewrite Hrisk. cbv zeta.
  unfold Order.get_order_id. fold address. fold accepted.
  subst executed. destruct (ExecutionEngine.dispatch accepted clock order) as [[r o] ev].
  simpl. repeat split.
  subst address. rewrite insert_app_r_alt by lia. by rewrite Nat.sub_diag.
Qed.

End ActiveOrders.

(** C10.  An order that passes validation and the risk check is put
    into the active-orders map by [submit_order], at its id, and the
    matching routine removes nothing from the map: every other entry
    stays, and so does the entry of the order, whatever its final status.
    The order the map points to is the order as the matching routine
    left it; when that order is FILLED, a later [cancel_order] on its id
    finds it and returns [INVALID_ORDER], not [ORDER_NOT_FOUND], and
    changes nothing.  The [active_orders] count of the metrics snapshot
    is the size of the map, which counts the order. *)
Theorem submitted_order_stays_active
    (e : ExecutionEngine.t) (request : COrderRequest.t) (response : COrderResponse.t)
    (start_time end_time now_ns : Z) (clock : nat -> Z) :
  let order := Order.of_request request in
  Order.validate order = true ->
  passes_risk_check e order = true ->
  let out := ExecutionEngine.submit_order e request response start_time end_time clock in
  let e' := out.1.1.2 in
  let address := length (ExecutionEngine.orders_store_ e) in
  ExecutionEngine.active_orders_ e'
  = <[Order.order_id_ order := address]> (ExecutionEngine.active_orders_ e)
  /\ ExecutionEngine.active_orders_ e' !! Order.order_id_ order = Some address
  /\ (exists order',
        ExecutionEngine.orders_store_ e' !! address = Some order'
        /\ Order.status_ order' = COrderResponse.status out.1.2
        /\ (Order.status_ order' = ORDER_STATUS_FILLED ->
            ExecutionEngine.cancel_order e' (Order.order_id_ order)
            = (EXEC_ERROR_INVALID_ORDER, e', [])))
  /\ CEngineMetrics.active_orders (ExecutionEngine.get_metrics e' now_ns)
     = Z.of_nat (size (ExecutionEngine.active_orders_ e'))
  /\ (1 <= size (ExecutionEngine.active_orders_ e'))%nat.
Proof.
  intros order Hvalid Hrisk out e' address.
  destruct (submit_order_accepted e request response start_time end_time clock
              Hvalid Hrisk) as (_ & Hmap & Hstore & Hstatus & _).
  fold order address out e' in Hmap, Hstore, Hstatus.
  set (executed := ExecutionEngine.dispatch _ clock order) in *.
  assert (Hid : ExecutionEngine.active_orders_ e' !! Order.order_id_ order = Some address)
    by (rewrite Hmap; apply lookup_insert_eq).
  assert (Hat : ExecutionEngine.orders_store_ e' !! address = Some executed.1.2).
  { rewrite Hstore. subst address. rewrite lookup_app_r by lia.
    by rewrite Nat.sub_diag. }
  split; [exact Hmap|]. split; [exact Hid|]. split.
  - exists executed.1.2. split; [exact Hat|]. split; [by rewrite Hstatus|].
    intros Hfilled. apply (cancel_order_inactive _ _ _ _ Hid Hat).
    unfold Order.is_active. rewrite Hfilled. reflexivity.
  - split; [reflexivity|].
    pose proof (map_size_ne_0_lookup_2 _ _ (mk_is_Some _ _ Hid)). lia.
Qed.

(** A limit order that is filled at submission stays in the map: the
    cancel that follows is refused with [INVALID_ORDER]. *)
Lemma submitted_order_stays_active_witness :
  let out :=
    ExecutionEngine.submit_order Examples.quoted_engine LimitExamples.aggressive_buy
      Examples.blank_response 1000 5000 Examples.no_clock in
  COrderResponse.status out.1.2 = ORDER_STATUS_FILLED
  /\ (ExecutionEngine.cancel_order out.1.1.2 "LIMIT_001").1.1 = EXEC_ERROR_INVALID_ORDER.
Proof.
  cbv zeta.
  destruct
    (submitted_order_stays_active Examples.quoted_engine LimitExamples.aggressive_buy
       Examples.blank_response 1000 5000 0 Examples.no_clock eq_refl eq_refl)
    as (_ & _ & (order' & _ & Hstatus & Hcancel) & _).
  assert (Hfilled :
            COrderResponse.status
              (ExecutionEngine.submit_order Examples.quoted_engine
                 LimitExamples.aggressive_buy Examples.blank_response 1000 5000
                 Examples.no_clock).1.2 = ORDER_STATUS_FILLED)
    by (vm_compute; reflexivity).
  split; [exact Hfilled|].
  exact (f_equal (fun r => r.1.1) (Hcancel (eq_trans Hstatus Hfilled))).
Defined.

(* ===================================================================== *)
(** ** The store behind the shared pointers *)
(* ===================================================================== *)

Section Store.

Lemma store_ok_new now_ns : ExecutionEngine.store_ok (ExecutionEngine.new now_ns).
Proof. intros order_id address H. simpl in H. by rewrite lookup_empty in H. Qed.

Lemma store_ok_submit_order e request response start_time end_time clock :
  ExecutionEngine.store_ok e ->
  ExecutionEngine.store_ok
    (ExecutionEngine.submit_order e request response start_time end_time clock).1.1.2.
Proof.
  intros Hok.
  destruct (Order.validate (Order.of_request request)) eqn:Hvalid;
    [|by rewrite submit_order_invalid].
  destruct (passes_risk_check e (Order.of_request request)) eqn:Hrisk.
  - destruct (submit_order_accepted e request response start_time end_time clock
                Hvalid Hrisk) as (_ & Hmap & Hstore & _).
    intros order_id address. rewrite Hmap, Hstore, length_app. simpl.
    destruct (decide (Order.order_id_ (Order.of_request request) = order_id)) as [Heq|Hne].
    + subst order_id. rewrite lookup_insert_eq. intros [= <-]. lia.
    + rewrite lookup_insert_ne by done. intros H. apply Hok in H. lia.
  - unfold passes_risk_check in Hrisk. apply negb_false_iff in Hrisk.
    unfold ExecutionEngine.submit_order, Order.get_quantity.
    by rewrite Hvalid, Hrisk.
Qed.

Lemma store_ok_cancel_order e order_id :
  ExecutionEngine.store_ok e ->
  ExecutionEngine.store_ok (ExecutionEngine.cancel_order e order_id).1.2.
Proof.
  intros Hok. unfold ExecutionEngine.cancel_order.
  destruct (ExecutionEngine.active_orders_ e !! order_id) as [address|]; [|exact Hok].
  destruct (ExecutionEngine.orders_store_ e !! address) as [order|]; [|exact Hok].
  destruct (Order.is_active order); [|exact Hok].
  intros id a. simpl. rewrite length_insert. intros H.
  apply lookup_delete_Some in H as [_ H]. by apply Hok in H.
Qed.

(** From a state with a sound store, [cancel_order] never takes the
    branch of the model that has no counterpart in the program. *)
Lemma cancel_order_total e order_id :
  ExecutionEngine.store_ok e ->
  (ExecutionEngine.cancel_order e order_id).1.1 <> EXEC_ERROR_SYSTEM_ERROR.
Proof.
  intros Hok. unfold ExecutionEngine.cancel_order.
  destruct (ExecutionEngine.active_orders_ e !! order_id) as [address|] eqn:Hm;
    [|discriminate].
  destruct (ExecutionEngine.orders_store_ e !! address) as [order|] eqn:Hs.
  - by destruct (Order.is_active order).
  - apply Hok in Hm. apply lookup_ge_None in Hs. lia.
Qed.

End Store.

(* ===================================================================== *)
(** ** The scenarios of the specification, on the quoted engine *)
(* ===================================================================== *)

Section ScenarioChecks.

Local Open Scope string_scope.

Let submitted (request : COrderRequest.t) :=
  Scenarios.submit Examples.quoted_engine request.

Example market_buy_fills :
  (submitted Scenarios.market_buy).1.1.1 = EXEC_SUCCESS
  /\ COrderResponse.status (submitted Scenarios.market_buy).1.2 = ORDER_STATUS_FILLED
  /\ COrderResponse.executed_quantity (submitted Scenarios.market_buy).1.2 = 100%float.
Proof. repeat split; vm_compute; reflexivity. Qed.

Example unknown_symbol_invalid :
  (submitted Scenarios.unknown_symbol).1.1.1 = EXEC_ERROR_INVALID_ORDER.
Proof. vm_compute. reflexivity. Qed.

Example aggressive_limit_fills :
  COrderResponse.status (submitted LimitExamples.aggressive_buy).1.2 = ORDER_STATUS_FILLED
  /\ COrderResponse.average_price (submitted LimitExamples.aggressive_buy).1.2
     = 200%float.
Proof. split; vm_compute; reflexivity. Qed.

Example passive_limit_rests :
  (submitted Scenarios.passive_buy).1.1.1 = EXEC_SUCCESS
  /\ COrderResponse.status (submitted Scenarios.passive_buy).1.2 = ORDER_STATUS_SUBMITTED
  /\ COrderResponse.executed_quantity (submitted Scenarios.passive_buy).1.2 = 0%float.
Proof. repeat split; vm_compute; reflexivity. Qed.

Example resting_stop_not_triggered :
  (submitted LimitExamples.resting_stop).1.1.1 = EXEC_SUCCESS
  /\ COrderResponse.status (submitted LimitExamples.resting_stop).1.2
     = ORDER_STATUS_SUBMITTED.
Proof. split; vm_compute; reflexivity. Qed.

Example cancel_twice :
  let e := ExecutionEngine.register_status_callback Examples.quoted_engine in
  let e1 := (Scenarios.submit e Scenarios.passive_buy).1.1.2 in
  let first := ExecutionEngine.cancel_order e1 "LIMIT_003" in
  first.1.1 = EXEC_SUCCESS
  /\ first.2 = [StatusNotification "LIMIT_003" ORDER_STATUS_CANCELLED "Order cancelled"]
  /\ (ExecutionEngine.cancel_order first.1.2 "LIMIT_003").1.1
     = EXEC_ERROR_ORDER_NOT_FOUND.
Proof. repeat split; vm_compute; reflexivity. Qed.

End ScenarioChecks.

(* ===================================================================== *)
(** ** Prices *)
(* ===================================================================== *)

Section Prices.

Lemma int64_wrap_small z : in_int64 z -> int64_wrap z = z.
Proof. unfold in_int64, int64_wrap. intros Hz. rewrite Z.mod_small; lia. Qed.

Lemma int64_wrap_add_sub x y : int64_wrap (int64_wrap (x + y) - y) = int64_wrap x.
Proof.
  unfold int64_wrap. f_equal.
  replace ((x + y + 2 ^ 63) mod 2 ^ 64 - 2 ^ 63 - y + 2 ^ 63)
    with ((x + y + 2 ^ 63) mod 2 ^ 64 - y) by lia.
  rewrite Zminus_mod_idemp_l. f_equal. lia.
Qed.

Lemma price_eta (a : Price.t) : Price.of_ticks (Price.ticks a) = a.
Proof. by destruct a. Qed.

End Prices.

(** X1.  The comparisons of [Price] are those of a total order on the
    tick counts: [==] holds exactly for equal prices, [<=] is reflexive,
    antisymmetric, transitive and total, and [<], [>], [>=] are derived
    from it ([a < b] iff not [b <= a], [a > b] iff [b < a], [a >= b] iff
    [b <= a]). *)
Theorem price_total_order (a b c : Price.t) :
  (Price.eq a b = true <-> a = b)
  /\ Price.le a a = true
  /\ (Price.le a b = true -> Price.le b a = true -> a = b)
  /\ (Price.le a b = true -> Price.le b c = true -> Price.le a c = true)
  /\ (Price.le a b = true \/ Price.le b a = true)
  /\ Price.lt a b = negb (Price.le b a)
  /\ Price.gt a b = Price.lt b a
  /\ Price.ge a b = Price.le b a.
Proof.
  unfold Price.eq, Price.le, Price.lt, Price.gt, Price.ge.
  destruct a as [x], b as [y], c as [z]. simpl.
  repeat split.
  - intros H. apply Z.eqb_eq in H. by subst.
  - intros [= ->]. apply Z.eqb_refl.
  - apply Z.leb_refl.
  - intros H1 H2. apply Z.leb_le in H1, H2. f_equal. lia.
  - intros H1 H2. apply Z.leb_le in H1, H2. apply Z.leb_le. lia.
  - destruct (Z.leb_spec x y); [by left|right]. apply Z.leb_le. lia.
  - apply Z.ltb_antisym.
Qed.

(** X2.  Adding a price and subtracting it again gives back the first
    price, for every first price in the range of [int64_t], also when the
    sum wraps around. *)
Theorem price_add_sub (a b : Price.t) :
  in_int64 (Price.ticks a) -> Price.sub (Price.add a b) b = a.
Proof.
  intros Ha. unfold Price.sub, Price.add, Price.of_ticks. simpl.
  rewrite int64_wrap_add_sub, int64_wrap_small by exact Ha. by destruct a.
Qed.

(** The sum wraps around and the difference still is the first price. *)
Lemma price_add_sub_witness :
  let a := Price.of_ticks (2 ^ 63 - 1) in
  let b := Price.of_ticks 5 in
  Price.ticks (Price.add a b) = - 2 ^ 63 + 4 /\ Price.sub (Price.add a b) b = a.
Proof.
  split; [reflexivity|].
  apply (price_add_sub (Price.of_ticks (2 ^ 63 - 1)) (Price.of_ticks 5)).
  unfold in_int64. simpl. lia.
Defined.

(* ===================================================================== *)
(** ** Reading and writing the levels of a book *)
(* ===================================================================== *)

Section BookLevels.

Lemma quot2_between x y : x <= y -> x <= Z.quot (x + y) 2 <= y.
Proof.
  intros Hxy. pose proof (Z.quot_rem' (x + y) 2) as Hq.
  destruct (Z_le_gt_dec 0 (x + y)) as [Hpos|Hneg].
  - pose proof (Z.rem_bound_pos (x + y) 2 Hpos ltac:(lia)). lia.
  - pose proof (Z.rem_bound_pos_neg (x + y) 2 ltac:(lia) ltac:(lia)). lia.
Qed.

Lemma update_bid_level b price size level now_ns :
  OrderBook.well_formed b ->
  (level < OrderBook.ORDER_BOOK_DEPTH)%nat ->
  OrderBook.level_at (OrderBook.bids_ (OrderBook.update_bid b price size level now_ns)) level
  = OrderBookLevel.mk (Price.ticks price) size.
Proof.
  intros [Hbids _] Hlevel. unfold OrderBook.update_bid, OrderBook.level_at.
  destruct (Nat.leb_spec OrderBook.ORDER_BOOK_DEPTH level); [lia|]. simpl.
  rewrite list_lookup_alter_eq.
  destruct (OrderBook.bids_ b !! level) eqn:Hl; [reflexivity|].
  apply lookup_ge_None in Hl. lia.
Qed.

Lemma market_walk_length levels : forall remaining,
  (length (OrderBook.market_walk remaining levels) <= length levels)%nat.
Proof.
  induction levels as [|level rest IH]; intros remaining; simpl; [lia|].
  destruct (_ || _); simpl; [lia|].
  match goal with |- context [OrderBook.market_walk ?r rest] => specialize (IH r) end.
  lia.
Qed.

Lemma market_walk_valid_prices levels : forall remaining,
  Forall (fun fill => 0 < Price.ticks (fst fill)) (OrderBook.market_walk remaining levels).
Proof.
  induction levels as [|level rest IH]; intros remaining; simpl; [constructor|].
  destruct (OrderBookLevel.is_valid level) eqn:Hvalid; simpl; [|constructor].
  destruct (remaining <=? 0)%float; simpl; constructor; [|apply IH].
  apply andb_true_iff in Hvalid as [Hticks _]. simpl. by apply Z.ltb_lt.
Qed.

Lemma market_walk_nonpositive levels remaining :
  (remaining <=? 0)%float = true -> OrderBook.market_walk remaining levels = [].
Proof.
  intros H. destruct levels as [|level rest]; simpl; [reflexivity|].
  rewrite H. by rewrite orb_true_r.
Qed.

End BookLevels.

(** X3.  On a book whose best bid is not above its best ask and whose sum
    of the two tick counts fits [int64_t], the mid price lies between the
    best bid and the best ask. *)
Theorem mid_price_between (b : OrderBook.t) :
  Price.le (OrderBook.get_best_bid b) (OrderBook.get_best_ask b) = true ->
  in_int64 (Price.ticks (OrderBook.get_best_bid b) + Price.ticks (OrderBook.get_best_ask b)) ->
  Price.le (OrderBook.get_best_bid b) (OrderBook.get_mid_price b) = true
  /\ Price.le (OrderBook.get_mid_price b) (OrderBook.get_best_ask b) = true.
Proof.
  intros Hle Hsum. unfold Price.le in *. apply Z.leb_le in Hle.
  assert (Hmid : Price.ticks (OrderBook.get_mid_price b)
                 = Z.quot (Price.ticks (OrderBook.get_best_bid b)
                           + Price.ticks (OrderBook.get_best_ask b)) 2).
  { unfold OrderBook.get_mid_price. cbn [Price.ticks Price.of_ticks].
    by rewrite int64_wrap_small by exact Hsum. }
  rewrite Hmid. pose proof (quot2_between _ _ Hle). split; apply Z.leb_le; lia.
Qed.

(** The quoted AAPL book: bid 14999984, mid 15014998, ask 15030013. *)
Lemma mid_price_between_witness :
  Price.le (OrderBook.get_best_bid LimitExamples.quoted_book)
           (OrderBook.get_mid_price LimitExamples.quoted_book) = true
  /\ Price.le (OrderBook.get_mid_price LimitExamples.quoted_book)
              (OrderBook.get_best_ask LimitExamples.quoted_book) = true.
Proof.
  apply (mid_price_between LimitExamples.quoted_book); [reflexivity|].
  unfold in_int64. simpl. lia.
Defined.

(** X4.  A write to a level within the depth of a book is read back:
    after [update_bid(price, size, level)] the bid size of the level is
    [size], its price is [price] (the best bid, when the level is 0), the
    time of the last update is the clock reading, and the other bid
    levels and all asks are as before; [update_ask] does the same on the
    asks.  A write to a level at or beyond the depth changes nothing. *)
Theorem update_level_read_back
    (b : OrderBook.t) (price : Price.t) (size : float) (level : nat) (now_ns : Z) :
  OrderBook.well_formed b ->
  let bid := OrderBook.update_bid b price size level now_ns in
  let ask := OrderBook.update_ask b price size level now_ns in
  if (level <? OrderBook.ORDER_BOOK_DEPTH)%nat
  then OrderBook.get_bid_size bid level = size
       /\ OrderBookLevel.get_price (OrderBook.level_at (OrderBook.bids_ bid) level) = price
       /\ (forall other, other <> level ->
            OrderBook.bids_ bid !! other = OrderBook.bids_ b !! other)
       /\ OrderBook.asks_ bid = OrderBook.asks_ b
       /\ OrderBook.last_update_time_ bid = now_ns
       /\ OrderBook.get_ask_size ask level = size
       /\ OrderBookLevel.get_price (OrderBook.level_at (OrderBook.asks_ ask) level) = price
       /\ (forall other, other <> level ->
            OrderBook.asks_ ask !! other = OrderBook.asks_ b !! other)
       /\ OrderBook.bids_ ask = OrderBook.bids_ b
       /\ OrderBook.last_update_time_ ask = now_ns
  else bid = b /\ ask = b
       /\ OrderBook.get_bid_size b level = 0%float
       /\ OrderBook.get_ask_size b level = 0%float.
Proof.
  intros Hwf bid ask. subst bid ask.
  destruct (Nat.ltb_spec level OrderBook.ORDER_BOOK_DEPTH) as [Hlevel|Hlevel].
  - unfold OrderBook.get_bid_size, OrderBook.get_ask_size.
    destruct (Nat.leb_spec OrderBook.ORDER_BOOK_DEPTH level) as [?|_]; [lia|].
    rewrite update_bid_level, update_ask_level by assumption.
    unfold OrderBook.update_bid, OrderBook.update_ask.
    destruct (Nat.leb_spec OrderBook.ORDER_BOOK_DEPTH level) as [?|_]; [lia|]. simpl.
    unfold OrderBookLevel.get_price. simpl. rewrite price_eta.
    repeat split; intros other Hother; by apply list_lookup_alter_ne.
  - unfold OrderBook.update_bid, OrderBook.update_ask, OrderBook.get_bid_size,
      OrderBook.get_ask_size.
    by destruct (Nat.leb_spec OrderBook.ORDER_BOOK_DEPTH level) as [_|?]; [|lia].
Qed.

(** The ask written at level 0 of a new book is its best ask. *)
Lemma update_level_read_back_witness :
  OrderBook.get_best_ask
    (OrderBook.update_ask (OrderBook.new "AAPL") (Price.of_ticks 15030013) 1000%float 0 5)
  = Price.of_ticks 15030013.
Proof.
  pose proof (update_level_read_back (OrderBook.new "AAPL") (Price.of_ticks 15030013)
                1000%float 0 5 (well_formed_new "AAPL")) as H.
  cbv zeta in H. change (0 <? OrderBook.ORDER_BOOK_DEPTH)%nat with true in H.
  cbv iota in H.
  exact (proj1 (proj2 (proj2 (proj2 (proj2 (proj2 (proj2 H))))))).
Defined.

(** X5.  The fills of a market order on a book of the engine are at most
    [ORDER_BOOK_DEPTH], one per level at most; each carries the price of
    a valid level, so a positive number of ticks; and a quantity that is
    [<= 0] yields no fill at all. *)
Theorem market_fills_bounded (b : OrderBook.t) (side : OrderSide) (quantity : float) :
  OrderBook.well_formed b ->
  let fills := OrderBook.get_fills_for_market_order b side quantity in
  (length fills <= OrderBook.ORDER_BOOK_DEPTH)%nat
  /\ Forall (fun fill => 0 < Price.ticks (fst fill)) fills
  /\ ((quantity <=? 0)%float = true -> fills = []).
Proof.
  intros [Hbids Hasks] fills. subst fills. unfold OrderBook.get_fills_for_market_order.
  destruct side; (split; [|split]);
    try apply market_walk_valid_prices; try apply market_walk_nonpositive.
  - rewrite <- Hasks. apply market_walk_length.
  - rewrite <- Hbids. apply market_walk_length.
Qed.

(** A buy of 15 against two levels of 10 gives two fills. *)
Lemma market_fills_bounded_witness :
  (length (OrderBook.get_fills_for_market_order
             MarketExamples.two_level_book ORDER_SIDE_BUY 15%float)
   <= OrderBook.ORDER_BOOK_DEPTH)%nat.
Proof.
  apply (market_fills_bounded MarketExamples.two_level_book ORDER_SIDE_BUY 15%float).
  split; reflexivity.
Defined.

(* ===================================================================== *)
(** ** The memory pool *)
(* ===================================================================== *)

Section Pool.

Lemma acquire_many_spec k : forall size available,
  acquire_many k (MemoryPool.mk size available)
  = (map Some (take k available) ++ replicate (k - length available) None,
     MemoryPool.mk size (drop k available)).
Proof.
  induction k as [|k IH]; intros size available.
  - simpl. by rewrite ?drop_0.
  - simpl. unfold MemoryPool.acquire. simpl.
    destruct available as [|ptr rest]; simpl.
    + rewrite IH. simpl. by rewrite ?take_nil, ?drop_nil, ?Nat.sub_0_r.
    + by rewrite IH.
Qed.

Lemma release_many_available ptrs : forall p,
  MemoryPool.available_ (foldl MemoryPool.release p ptrs)
  = MemoryPool.available_ p ++ ptrs
  /\ MemoryPool.pool_size (foldl MemoryPool.release p ptrs) = MemoryPool.pool_size p.
Proof.
  induction ptrs as [|ptr ptrs IH]; intros p; simpl.
  - by rewrite app_nil_r.
  - destruct (IH (MemoryPool.release p ptr)) as [-> ->]. simpl.
    by rewrite <- app_assoc.
Qed.

End Pool.

(** X6.  A new pool of [size] entries hands out each of its entries
    once, in the order of the vector, and after that [acquire] returns
    the null pointer for as long as nothing is released. *)
Theorem pool_exhaustion (size more : nat) :
  acquire_many (size + more) (MemoryPool.new size)
  = (map Some (seq 0 size) ++ replicate more None, MemoryPool.mk size []).
Proof.
  unfold MemoryPool.new. rewrite acquire_many_spec, length_seq.
  rewrite take_ge, drop_ge by (rewrite length_seq; lia).
  by replace (size + more - size)%nat with more by lia.
Qed.

(** X7.  The pool is a queue that trusts its callers: released pointers
    are handed out again in the order of their release, after the
    pointers that were already available, and [release] checks nothing,
    so a pointer released twice is handed out twice. *)
Theorem pool_release_order (p : MemoryPool.t) (ptrs : list nat) :
  acquire_many (length (MemoryPool.available_ p) + length ptrs)
               (foldl MemoryPool.release p ptrs)
  = (map Some (MemoryPool.available_ p ++ ptrs),
     MemoryPool.mk (MemoryPool.pool_size p) []).
Proof.
  destruct (release_many_available ptrs p) as [Havailable Hsize].
  destruct (foldl MemoryPool.release p ptrs) as [size available]. simpl in *.
  subst size available. rewrite acquire_many_spec.
  rewrite take_ge, drop_ge by (rewrite length_app; lia).
  rewrite length_app.
  replace (_ - _)%nat with 0%nat by lia. simpl. by rewrite app_nil_r.
Qed.

(* ===================================================================== *)
(** ** The fill history of an order *)
(* ===================================================================== *)

Section OrderHistory.

Lemma double_sum_snoc sizes size :
  double_sum (sizes ++ [size]) = (double_sum sizes + size)%float.
Proof. unfold double_sum. by rewrite foldl_app. Qed.

(** The two statuses [add_fill] can leave. *)
Lemma add_fill_status o price quantity fee :
  let o' := Order.add_fill o price quantity fee in
  (Order.status_ o' = ORDER_STATUS_FILLED /\ Order.is_fully_filled o' = true)
  \/ (Order.status_ o' = ORDER_STATUS_PARTIALLY_FILLED /\ Order.is_fully_filled o' = false).
Proof.
  unfold Order.add_fill, Order.is_fully_filled. simpl.
  destruct (_ <=? _)%float; [left|right]; by split.
Qed.

Lemma add_fills_status fills : forall o,
  fills <> [] ->
  Order.status_ (add_fills o fills) = ORDER_STATUS_FILLED
  \/ Order.status_ (add_fills o fills) = ORDER_STATUS_PARTIALLY_FILLED.
Proof.
  induction fills as [|fill fills IH]; intros o Hne; [done|].
  unfold add_fills in *. simpl. destruct fills as [|fill' fills].
  - simpl. destruct (add_fill_status o fill.1 fill.2 0%float) as [[? _]|[? _]]; tauto.
  - by apply IH.
Qed.

End OrderHistory.

(** X8.  Whatever fills are added to an order and whatever statuses are
    set, the order keeps the id, symbol, type, side, quantity, limit
    price and stop price of its request, and its filled quantity is the
    sum of the sizes in its fill history, added in double arithmetic in
    the order of the fills. *)
Theorem order_history_invariant (request : COrderRequest.t) (o : Order.t) :
  history (Order.of_request request) o ->
  Order.filled_quantity_ o = double_sum (map snd (Order.fills_ o))
  /\ Order.order_id_ o = COrderRequest.order_id request
  /\ Order.symbol_ o = COrderRequest.symbol request
  /\ Order.type_ o = COrderRequest.order_type request
  /\ Order.side_ o = COrderRequest.side request
  /\ Order.quantity_ o = COrderRequest.quantity request
  /\ Order.price_ o = Price.of_double (COrderRequest.price request)
  /\ Order.stop_price_ o = Price.of_double (COrderRequest.stop_price request).
Proof.
  induction 1 as [|o price quantity fee _ IH|o status _ IH].
  - by repeat split.
  - destruct IH as (Hfilled & Hrest). split; [|exact Hrest].
    cbn [Order.add_fill Order.filled_quantity_ Order.fills_].
    rewrite map_app. cbn [map snd]. by rewrite double_sum_snoc, Hfilled.
  - exact IH.
Qed.

(** Two fills of 10 and 5: the filled quantity is 15. *)
Lemma order_history_invariant_witness :
  let o :=
    Order.add_fill
      (Order.add_fill (Order.of_request Scenarios.market_buy)
                      (Price.of_ticks 100) 10%float 0%float)
      (Price.of_ticks 101) 5%float 0%float in
  Order.filled_quantity_ o = double_sum [10%float; 5%float].
Proof.
  exact (proj1 (order_history_invariant Scenarios.market_buy _
                  (history_add_fill _ _ (Price.of_ticks 101) 5%float 0%float
                     (history_add_fill _ _ (Price.of_ticks 100) 10%float 0%float
                        (history_start _))))).
Defined.

(* ===================================================================== *)
(** ** What a submission does to the engine *)
(* ===================================================================== *)

Section Submission.

(** The engine after an accepted order, field by field. *)
Lemma submit_order_accepted_engine e request response start_time end_time clock :
  let order := Order.of_request request in
  Order.validate order = true ->
  passes_risk_check e order = true ->
  let address := length (ExecutionEngine.orders_store_ e) in
  let accepted :=
    ExecutionEngine.set_orders e
      (ExecutionEngine.orders_store_ e ++ [order])
      (<[Order.order_id_ order := address]> (ExecutionEngine.active_orders_ e))
      (ExecutionEngine.order_queue_ e ++ [address]) in
  let executed := ExecutionEngine.dispatch accepted clock order in
  let latency := measured_latency start_time end_time in
  ExecutionEngine.submit_order e request response start_time end_time clock
  = (executed.1.1,
     ExecutionEngine.mk
       (ExecutionEngine.config_ e) (ExecutionEngine.worker_threads_ e)
       (ExecutionEngine.market_simulator_thread_ e) (ExecutionEngine.running_ e)
       (ExecutionEngine.orders_store_ e ++ [executed.1.2])
       (<[Order.order_id_ order := address]> (ExecutionEngine.active_orders_ e))
       (ExecutionEngine.order_books_ e)
       (ExecutionEngine.order_queue_ e ++ [address])
       (metrics_after (ExecutionEngine.metrics_ e) latency executed.1.1 executed.1.2)
       (ExecutionEngine.fill_callback_ e) (ExecutionEngine.status_callback_ e)
       (ExecutionEngine.initialized_ e) (ExecutionEngine.healthy_ e),
     COrderResponse.mk
       (COrderRequest.order_id request) executed.1.1 (Order.status_ executed.1.2)
       (COrderResponse.message response)
       (Order.filled_quantity_ executed.1.2)
       (Price.to_double (Order.get_average_fill_price executed.1.2))
       end_time latency,
     executed.2).
Proof.
  intros order Hvalid Hrisk address accepted executed latency.
  unfold ExecutionEngine.submit_order.
  fold order. rewrite Hvalid. simpl negb. cbv iota.
  unfold passes_risk_check in Hrisk. apply negb_true_iff in Hrisk.
  unfold Order.get_quantity. rewrite Hrisk. cbv zeta.
  unfold Order.get_order_id. fold address. fold accepted.
  subst executed. destruct (ExecutionEngine.dispatch accepted clock order) as [[r o] ev].
  simpl. unfold metrics_after, Order.get_filled_quantity, Order.get_status.
  fold latency. subst latency. unfold measured_latency.
  subst address. rewrite insert_app_r_alt by lia. rewrite Nat.sub_diag. simpl.
  reflexivity.
Qed.

Lemma submit_order_risk e request response start_time end_time clock :
  Order.validate (Order.of_request request) = true ->
  passes_risk_check e (Order.of_request request) = false ->
  ExecutionEngine.submit_order e request response start_time end_time clock
  = (EXEC_ERROR_RISK_LIMIT_EXCEEDED, e,
     COrderResponse.mk (COrderRequest.order_id request)
                       EXEC_ERROR_RISK_LIMIT_EXCEEDED ORDER_STATUS_SUBMITTED
                       "Order size exceeds risk limits"
                       0%float 0%float 0 (COrderResponse.latency_micros response),
     []).
Proof.
  intros Hvalid Hrisk. unfold passes_risk_check in Hrisk. apply negb_false_iff in Hrisk.
  unfold ExecutionEngine.submit_order, Order.get_quantity. by rewrite Hvalid, Hrisk.
Qed.

(** The matching of an order reads the books and the fill callback of
    the engine and nothing else. *)
Lemma dispatch_same_market e1 e2 clock order :
  ExecutionEngine.order_books_ e1 = ExecutionEngine.order_books_ e2 ->
  ExecutionEngine.fill_callback_ e1 = ExecutionEngine.fill_callback_ e2 ->
  ExecutionEngine.dispatch e1 clock order = ExecutionEngine.dispatch e2 clock order.
Proof.
  intros Hbooks Hcallback.
  unfold ExecutionEngine.dispatch, ExecutionEngine.execute_market_order,
    ExecutionEngine.execute_limit_order, ExecutionEngine.execute_stop_order.
  by rewrite Hbooks, Hcallback.
Qed.

(** When the matching does not succeed it has not touched the order. *)
Lemma dispatch_failure e clock order :
  (ExecutionEngine.dispatch e clock order).1.1 <> EXEC_SUCCESS ->
  ((ExecutionEngine.dispatch e clock order).1.1 = EXEC_ERROR_INVALID_ORDER
   \/ ((ExecutionEngine.dispatch e clock order).1.1 = EXEC_ERROR_INSUFFICIENT_LIQUIDITY
       /\ Order.type_ order = ORDER_TYPE_MARKET))
  /\ (ExecutionEngine.dispatch e clock order).1.2 = order
  /\ (ExecutionEngine.dispatch e clock order).2 = [].
Proof.
  unfold ExecutionEngine.dispatch, ExecutionEngine.execute_market_order,
    ExecutionEngine.execute_limit_order, ExecutionEngine.execute_stop_order,
    Order.get_type.
  destruct (Order.type_ order) eqn:Htype;
    destruct (ExecutionEngine.order_books_ e !! Order.get_symbol order) as [book|];
    simpl; try tauto.
  - destruct (OrderBook.get_fills_for_market_order _ _ _) as [|fill fills]; simpl;
      [tauto|].
    destruct (ExecutionEngine.process_fills _ _ _ _ _) as [o ev]. simpl. congruence.
  - destruct (_ && _); simpl; congruence.
  - destruct (_ || _); simpl; congruence.
Qed.

(** Only a market order is notified to the fill callback. *)
Lemma dispatch_events e clock order :
  Order.type_ order <> ORDER_TYPE_MARKET ->
  (ExecutionEngine.dispatch e clock order).2 = [].
Proof.
  unfold ExecutionEngine.dispatch, ExecutionEngine.execute_limit_order,
    ExecutionEngine.execute_stop_order, Order.get_type.
  destruct (Order.type_ order); intros Htype; try done;
    destruct (ExecutionEngine.order_books_ e !! Order.get_symbol order) as [book|];
    try reflexivity.
  - by destruct (_ && _).
  - by destruct (_ || _).
Qed.

End Submission.

Section SubmissionOutcomes.

Lemma execute_market_order_eq e clock order :
  ExecutionEngine.execute_market_order e clock order
  = match ExecutionEngine.order_books_ e !! Order.symbol_ order with
    | None => (EXEC_ERROR_INVALID_ORDER, order, [])
    | Some book =>
        let fills :=
          OrderBook.get_fills_for_market_order
            book (Order.side_ order) (Order.quantity_ order) in
        if bool_decide (fills = [])
        then (EXEC_ERROR_INSUFFICIENT_LIQUIDITY, order, [])
        else (EXEC_SUCCESS, add_fills order fills,
              if ExecutionEngine.fill_callback_ e
              then imap (fill_notification order clock) fills else [])
    end.
Proof.
  unfold ExecutionEngine.execute_market_order, Order.get_symbol, Order.get_side,
    Order.get_quantity.
  destruct (ExecutionEngine.order_books_ e !! Order.symbol_ order) as [book|];
    [|reflexivity].
  cbv zeta.
  destruct (OrderBook.get_fills_for_market_order _ _ _) as [|fill fills] eqn:Hfills;
    [reflexivity|].
  rewrite bool_decide_eq_false_2 by discriminate.
  by rewrite process_fills_spec.
Qed.

Lemma add_fills_filled fills : forall o,
  Order.filled_quantity_ (add_fills o fills)
  = foldl (fun total size => (total + size)%float) (Order.filled_quantity_ o)
          (map snd fills).
Proof.
  induction fills as [|fill fills IH]; intros o; [reflexivity|].
  unfold add_fills in *. simpl. by rewrite IH.
Qed.

Lemma dispatch_fill_events e clock order :
  Forall (fun event => exists fill, event = FillNotification fill)
         (ExecutionEngine.dispatch e clock order).2.
Proof.
  destruct (decide (Order.type_ order = ORDER_TYPE_MARKET)) as [Htype|Htype];
    [|rewrite dispatch_events by exact Htype; constructor].
  unfold ExecutionEngine.dispatch, Order.get_type. rewrite Htype.
  rewrite execute_market_order_eq.
  destruct (ExecutionEngine.order_books_ e !! Order.symbol_ order) as [book|];
    [|constructor].
  cbv zeta. case_bool_decide; [constructor|]. cbn [snd].
  destruct (ExecutionEngine.fill_callback_ e); [|constructor].
  apply Forall_forall. intros event Hin.
  apply elem_of_lookup_imap in Hin as (i & f & -> & _). by eexists.
Qed.

Lemma dispatch_results e clock order :
  let result := (ExecutionEngine.dispatch e clock order).1.1 in
  (result = EXEC_SUCCESS \/ result = EXEC_ERROR_INVALID_ORDER
   \/ result = EXEC_ERROR_INSUFFICIENT_LIQUIDITY)
  /\ (Order.type_ order = ORDER_TYPE_STOP_LIMIT
      \/ Order.type_ order = ORDER_TYPE_TRAILING_STOP ->
      result = EXEC_ERROR_INVALID_ORDER).
Proof.
  cbv zeta.
  destruct (decide ((ExecutionEngine.dispatch e clock order).1.1 = EXEC_SUCCESS))
    as [Hok|Hfail].
  - split; [by left|]. intros Htype. exfalso. revert Hok.
    unfold ExecutionEngine.dispatch, Order.get_type. by destruct Htype as [-> | ->].
  - destruct (dispatch_failure _ _ _ Hfail) as ([Hr|[Hr _]] & _ & _);
      (split; [tauto|]).
    + by intros _.
    + intros Htype. exfalso. revert Hr.
      unfold ExecutionEngine.dispatch, Order.get_type. by destruct Htype as [-> | ->].
Qed.

End SubmissionOutcomes.

(** X9.  [submit_order] returns one of SUCCESS, INVALID_ORDER,
    INSUFFICIENT_LIQUIDITY and RISK_LIMIT_EXCEEDED, and the response
    carries the same code.  INSUFFICIENT_LIQUIDITY is returned to market
    orders only; an order of type STOP_LIMIT or TRAILING_STOP never
    succeeds.  The only events of a submission are fill notifications,
    and only a market order has any: the fill of a limit or stop order
    is not notified. *)
Theorem submit_order_outcomes
    (e : ExecutionEngine.t) (request : COrderRequest.t) (response : COrderResponse.t)
    (start_time end_time : Z) (clock : nat -> Z) :
  let out := ExecutionEngine.submit_order e request response start_time end_time clock in
  let result := out.1.1.1 in
  (result = EXEC_SUCCESS \/ result = EXEC_ERROR_INVALID_ORDER
   \/ result = EXEC_ERROR_INSUFFICIENT_LIQUIDITY
   \/ result = EXEC_ERROR_RISK_LIMIT_EXCEEDED)
  /\ COrderResponse.result out.1.2 = result
  /\ (result = EXEC_ERROR_INSUFFICIENT_LIQUIDITY ->
      COrderRequest.order_type request = ORDER_TYPE_MARKET)
  /\ (COrderRequest.order_type request = ORDER_TYPE_STOP_LIMIT
      \/ COrderRequest.order_type request = ORDER_TYPE_TRAILING_STOP ->
      result <> EXEC_SUCCESS)
  /\ (COrderRequest.order_type request <> ORDER_TYPE_MARKET -> out.2 = [])
  /\ Forall (fun event => exists fill, event = FillNotification fill) out.2.
Proof.
  intros out result. subst result out.
  destruct (Order.validate (Order.of_request request)) eqn:Hvalid.
  2:{ rewrite submit_order_invalid by exact Hvalid. simpl.
      repeat split; try tauto; try discriminate; try constructor. }
  destruct (passes_risk_check e (Order.of_request request)) eqn:Hrisk.
  2:{ rewrite submit_order_risk by assumption. simpl.
      repeat split; try tauto; try discriminate; try constructor. }
  rewrite submit_order_accepted_engine by assumption.
  cbn [fst snd COrderResponse.result].
  match goal with
  | |- context [ExecutionEngine.dispatch ?a clock ?o] =>
      pose proof (dispatch_results a clock o) as [Hres Hunsupported];
      pose proof (dispatch_failure a clock o) as Hfailure;
      pose proof (dispatch_events a clock o) as Hevents;
      pose proof (dispatch_fill_events a clock o) as Hfills;
      set (executed := ExecutionEngine.dispatch a clock o) in *
  end.
  cbv zeta in Hres.
  change (Order.type_ (Order.of_request request))
    with (COrderRequest.order_type request) in *.
  split; [tauto|]. split; [reflexivity|]. split.
  { intros Hr. destruct Hfailure as ([Hinv|[_ Htype]] & _ & _); [congruence| |exact Htype].
    congruence. }
  split.
  { intros Htype Hok. rewrite (Hunsupported Htype) in Hok. discriminate. }
  split; [exact Hevents|exact Hfills].
Qed.

(** X10.  A market order that [submit_order] reports as SUCCESS was
    matched against the book of its symbol: the walk of the book emitted
    at least one fill, the status of the response is FILLED or
    PARTIALLY_FILLED, and the executed quantity of the response is the
    sum of the emitted sizes. *)
Theorem market_order_success
    (e : ExecutionEngine.t) (request : COrderRequest.t) (response : COrderResponse.t)
    (start_time end_time : Z) (clock : nat -> Z) :
  let out := ExecutionEngine.submit_order e request response start_time end_time clock in
  COrderRequest.order_type request = ORDER_TYPE_MARKET ->
  out.1.1.1 = EXEC_SUCCESS ->
  exists book,
    ExecutionEngine.order_books_ e !! COrderRequest.symbol request = Some book
    /\ let fills :=
         OrderBook.get_fills_for_market_order
           book (COrderRequest.side request) (COrderRequest.quantity request) in
       fills <> []
       /\ (COrderResponse.status out.1.2 = ORDER_STATUS_FILLED
           \/ COrderResponse.status out.1.2 = ORDER_STATUS_PARTIALLY_FILLED)
       /\ COrderResponse.executed_quantity out.1.2 = double_sum (map snd fills).
Proof.
  intros out Htype Hok. subst out.
  destruct (Order.validate (Order.of_request request)) eqn:Hvalid;
    [|by rewrite submit_order_invalid in Hok].
  destruct (passes_risk_check e (Order.of_request request)) eqn:Hrisk;
    [|by rewrite submit_order_risk in Hok].
  rewrite submit_order_accepted_engine in * by assumption.
  cbn [fst snd COrderResponse.status COrderResponse.executed_quantity] in *.
  unfold ExecutionEngine.dispatch, Order.get_type in *.
  change (Order.type_ (Order.of_request request))
    with (COrderRequest.order_type request) in *.
  rewrite Htype in *. rewrite execute_market_order_eq in *.
  cbn [ExecutionEngine.set_orders ExecutionEngine.order_books_
       ExecutionEngine.fill_callback_] in *.
  change (Order.symbol_ (Order.of_request request))
    with (COrderRequest.symbol request) in *.
  change (Order.side_ (Order.of_request request))
    with (COrderRequest.side request) in *.
  change (Order.quantity_ (Order.of_request request))
    with (COrderRequest.quantity request) in *.
  destruct (ExecutionEngine.order_books_ e !! COrderRequest.symbol request)
    as [book|]; [|discriminate].
  exists book. split; [reflexivity|]. cbv zeta in *.
  case_bool_decide as Hfills; [discriminate|]. cbn [fst snd].
  split; [exact Hfills|]. split.
  - by apply add_fills_status.
  - by rewrite add_fills_filled.
Qed.

(** BUY 100 AAPL at market against the quoted book. *)
Lemma market_order_success_witness :
  exists book,
    ExecutionEngine.order_books_ Examples.quoted_engine !! "AAPL"%string = Some book
    /\ OrderBook.get_fills_for_market_order book ORDER_SIDE_BUY 100%float <> [].
Proof.
  destruct (market_order_success Examples.quoted_engine Scenarios.market_buy
              Examples.blank_response 1000 5000 Examples.no_clock eq_refl eq_refl)
    as (book & Hbook & Hfills & _).
  exists book. split; [exact Hbook|exact Hfills].
Defined.

(** X11.  An order that is accepted (it passes validation and the risk
    check) and then fails to match (unknown symbol, unsupported type, or
    no liquidity for a market order) is left behind in the engine: it
    stays in the active-orders map, untouched and with status PENDING,
    the response reports PENDING, the failure is counted in
    [failed_executions], and the order cannot be cancelled, since
    [cancel_order] answers INVALID_ORDER and changes nothing. *)
Theorem failed_order_stays_pending
    (e : ExecutionEngine.t) (request : COrderRequest.t) (response : COrderResponse.t)
    (start_time end_time : Z) (clock : nat -> Z) :
  let order := Order.of_request request in
  let out := ExecutionEngine.submit_order e request response start_time end_time clock in
  let e' := out.1.1.2 in
  let address := length (ExecutionEngine.orders_store_ e) in
  Order.validate order = true ->
  passes_risk_check e order = true ->
  out.1.1.1 <> EXEC_SUCCESS ->
  (out.1.1.1 = EXEC_ERROR_INVALID_ORDER
   \/ out.1.1.1 = EXEC_ERROR_INSUFFICIENT_LIQUIDITY)
  /\ ExecutionEngine.active_orders_ e' !! COrderRequest.order_id request = Some address
  /\ ExecutionEngine.orders_store_ e' !! address = Some order
  /\ COrderResponse.status out.1.2 = ORDER_STATUS_PENDING
  /\ PerformanceMetrics.failed_executions_ (ExecutionEngine.metrics_ e')
     = uint64_wrap
         (PerformanceMetrics.failed_executions_ (ExecutionEngine.metrics_ e) + 1)
  /\ ExecutionEngine.cancel_order e' (COrderRequest.order_id request)
     = (EXEC_ERROR_INVALID_ORDER, e', []).
Proof.
  intros order out e' address Hvalid Hrisk Hfail. subst out e'.
  rewrite submit_order_accepted_engine in * by assumption.
  cbn [fst snd] in *.
  match type of Hfail with
  | context [ExecutionEngine.dispatch ?a clock ?o] =>
      destruct (dispatch_failure a clock o Hfail) as (Hres & Horder & _);
      set (executed := ExecutionEngine.dispatch a clock o) in *
  end.
  fold order in Horder. rewrite Horder.
  assert (Hmap :
            (<[Order.order_id_ order := address]> (ExecutionEngine.active_orders_ e))
              !! COrderRequest.order_id request = Some address)
    by apply lookup_insert_eq.
  assert (Hstore :
            (ExecutionEngine.orders_store_ e ++ [order]) !! address = Some order).
  { subst address. rewrite lookup_app_r by lia. by rewrite Nat.sub_diag. }
  split; [tauto|]. split; [exact Hmap|]. split; [exact Hstore|].
  split; [reflexivity|]. split.
  - unfold metrics_after. rewrite bool_decide_eq_false_2 by exact Hfail. reflexivity.
  - by apply (cancel_order_inactive _ _ address order).
Qed.

(** BUY 10 ZZZZ at market: there is no book for ZZZZ. *)
Lemma failed_order_stays_pending_witness :
  let e' := (Scenarios.submit Examples.quoted_engine Scenarios.unknown_symbol).1.1.2 in
  ExecutionEngine.cancel_order e' "MKT_002" = (EXEC_ERROR_INVALID_ORDER, e', []).
Proof.
  exact (proj2 (proj2 (proj2 (proj2 (proj2
           (failed_order_stays_pending Examples.quoted_engine Scenarios.unknown_symbol
              Examples.blank_response 1000 5000 Examples.no_clock
              eq_refl eq_refl ltac:(vm_compute; discriminate))))))).
Defined.

(** X12.  The metrics count the accepted orders and nothing else.  A
    request refused by validation or by the risk check leaves the
    metrics as they are.  An accepted order adds one to
    [total_orders_processed], one to [successful_executions] when the
    result is SUCCESS and one to [failed_executions] otherwise, adds its
    latency, [(end - start) / 1000] microseconds, to the latency sum and
    to the samples, and the traded volume moves only on a SUCCESS with a
    positive filled quantity. *)
Theorem submit_order_metrics
    (e : ExecutionEngine.t) (request : COrderRequest.t) (response : COrderResponse.t)
    (start_time end_time : Z) (clock : nat -> Z) :
  let order := Order.of_request request in
  let out := ExecutionEngine.submit_order e request response start_time end_time clock in
  let m := ExecutionEngine.metrics_ e in
  let m' := ExecutionEngine.metrics_ out.1.1.2 in
  let latency := measured_latency start_time end_time in
  if Order.validate order && passes_risk_check e order
  then PerformanceMetrics.total_orders_processed_ m'
       = uint64_wrap (PerformanceMetrics.total_orders_processed_ m + 1)
       /\ PerformanceMetrics.successful_executions_ m'
          = (if bool_decide (out.1.1.1 = EXEC_SUCCESS)
             then uint64_wrap (PerformanceMetrics.successful_executions_ m + 1)
             else PerformanceMetrics.successful_executions_ m)
       /\ PerformanceMetrics.failed_executions_ m'
          = (if bool_decide (out.1.1.1 = EXEC_SUCCESS)
             then PerformanceMetrics.failed_executions_ m
             else uint64_wrap (PerformanceMetrics.failed_executions_ m + 1))
       /\ PerformanceMetrics.total_latency_micros_ m'
          = uint64_wrap (PerformanceMetrics.total_latency_micros_ m + latency)
       /\ last (PerformanceMetrics.latency_samples_ m') = Some latency
       /\ COrderResponse.latency_micros out.1.2 = latency
       /\ (PerformanceMetrics.total_volume_ m' <> PerformanceMetrics.total_volume_ m ->
           out.1.1.1 = EXEC_SUCCESS
           /\ (0 <? COrderResponse.executed_quantity out.1.2)%float = true)
  else m' = m /\ out.1.1.1 <> EXEC_SUCCESS.
Proof.
  intros order out m m' latency. subst out m m'.
  destruct (Order.validate order) eqn:Hvalid.
  2:{ subst order. by rewrite submit_order_invalid. }
  destruct (passes_risk_check e order) eqn:Hrisk.
  2:{ subst order. by rewrite submit_order_risk. }
  subst order. rewrite submit_order_accepted_engine by assumption.
  cbn [andb fst snd ExecutionEngine.metrics_ COrderResponse.latency_micros
       COrderResponse.executed_quantity].
  match goal with
  | |- context [ExecutionEngine.dispatch ?a clock ?o] =>
      set (executed := ExecutionEngine.dispatch a clock o)
  end.
  fold latency. unfold metrics_after.
  destruct (record_order_processed_samples (ExecutionEngine.metrics_ e) latency
              (bool_decide (executed.1.1 = EXEC_SUCCESS))) as [_ Hlast].
  destruct (bool_decide (executed.1.1 = EXEC_SUCCESS)) eqn:Hok;
    destruct (0 <? Order.filled_quantity_ executed.1.2)%float eqn:Hfilled;
    cbn [andb];
    repeat split; try exact Hlast;
    try (by apply bool_decide_eq_true_1 in Hok);
    try (exfalso; match goal with H : _ <> _ |- _ => apply H; reflexivity end).
Qed.

(** X13.  Orders do not consume the book.  [submit_order] and
    [cancel_order] leave the configuration, the books and the callbacks
    of the engine as they are, and the result, the response and the
    events of a submission depend on nothing else in the engine: a
    request gets the same answer whatever was submitted or cancelled
    before it, and however often it is repeated. *)
Theorem submissions_leave_the_market
    (e : ExecutionEngine.t) (earlier request : COrderRequest.t)
    (earlier_response response : COrderResponse.t)
    (t0 t1 start_time end_time : Z) (earlier_clock clock : nat -> Z)
    (order_id : string) :
  let after_submit :=
    (ExecutionEngine.submit_order e earlier earlier_response t0 t1 earlier_clock).1.1.2 in
  let after_cancel := (ExecutionEngine.cancel_order e order_id).1.2 in
  let answer (engine : ExecutionEngine.t) :=
    let out :=
      ExecutionEngine.submit_order engine request response start_time end_time clock in
    (out.1.1.1, out.1.2, out.2) in
  same_market e after_submit
  /\ same_market e after_cancel
  /\ answer after_submit = answer e
  /\ answer after_cancel = answer e.
Proof.
  intros after_submit after_cancel answer.
  assert (Hsubmit : same_market e after_submit).
  { subst after_submit.
    destruct (Order.validate (Order.of_request earlier)) eqn:Hvalid;
      [|by rewrite submit_order_invalid].
    destruct (passes_risk_check e (Order.of_request earlier)) eqn:Hrisk;
      [|by rewrite submit_order_risk].
    by rewrite submit_order_accepted_engine by assumption. }
  assert (Hcancel : same_market e after_cancel).
  { subst after_cancel. unfold ExecutionEngine.cancel_order.
    destruct (ExecutionEngine.active_orders_ e !! order_id) as [address|]; [|done].
    destruct (ExecutionEngine.orders_store_ e !! address) as [order|]; [|done].
    by destruct (Order.is_active order). }
  assert (Hanswer : forall e', same_market e e' -> answer e' = answer e).
  { intros e' (Hconfig & Hbooks & Hcallback). subst answer. cbv zeta.
    assert (Hrisk' : passes_risk_check e' (Order.of_request request)
                     = passes_risk_check e (Order.of_request request))
      by (unfold passes_risk_check; by rewrite Hconfig).
    destruct (Order.validate (Order.of_request request)) eqn:Hvalid;
      [|by rewrite !submit_order_invalid].
    destruct (passes_risk_check e (Order.of_request request)) eqn:Hrisk;
      [|by rewrite !submit_order_risk].
    rewrite !submit_order_accepted_engine by assumption. cbn [fst snd].
    match goal with
    | |- context [ExecutionEngine.dispatch ?a clock ?o] =>
        rewrite (dispatch_same_market a
                   (ExecutionEngine.set_orders e
                      (ExecutionEngine.orders_store_ e ++ [o])
                      (<[Order.order_id_ o := length (ExecutionEngine.orders_store_ e)]>
                         (ExecutionEngine.active_orders_ e))
                      (ExecutionEngine.order_queue_ e
                       ++ [length (ExecutionEngine.orders_store_ e)]))
                   clock o) by (simpl; congruence)
    end.
    reflexivity. }
  split; [exact Hsubmit|]. split; [exact Hcancel|]. split; by apply Hanswer.
Qed.

(** X14.  The active-orders map is keyed by the order id alone.  When a
    second accepted request carries the id of an earlier accepted one,
    its order replaces the entry: the map does not grow, the id now
    leads to the second order, and the first order, still in the store
    as the first submission left it, can no longer be reached by its
    id. *)
Theorem duplicate_id_replaces_entry
    (e : ExecutionEngine.t) (first second : COrderRequest.t)
    (response1 response2 : COrderResponse.t)
    (t0 t1 t2 t3 : Z) (clock1 clock2 : nat -> Z) :
  let e1 := (ExecutionEngine.submit_order e first response1 t0 t1 clock1).1.1.2 in
  let e2 := (ExecutionEngine.submit_order e1 second response2 t2 t3 clock2).1.1.2 in
  let address := length (ExecutionEngine.orders_store_ e) in
  Order.validate (Order.of_request first) = true ->
  passes_risk_check e (Order.of_request first) = true ->
  Order.validate (Order.of_request second) = true ->
  passes_risk_check e (Order.of_request second) = true ->
  COrderRequest.order_id first = COrderRequest.order_id second ->
  ExecutionEngine.active_orders_ e1 !! COrderRequest.order_id first = Some address
  /\ ExecutionEngine.active_orders_ e2 !! COrderRequest.order_id first = Some (S address)
  /\ ExecutionEngine.active_orders_ e2
     = <[COrderRequest.order_id first := S address]> (ExecutionEngine.active_orders_ e)
  /\ size (ExecutionEngine.active_orders_ e2) = size (ExecutionEngine.active_orders_ e1)
  /\ length (ExecutionEngine.orders_store_ e2) = S (S address)
  /\ ExecutionEngine.orders_store_ e2 !! address
     = ExecutionEngine.orders_store_ e1 !! address.
Proof.
  intros e1 e2 address Hvalid1 Hrisk1 Hvalid2 Hrisk2 Hid. subst e2 e1.
  rewrite (submit_order_accepted_engine e first) by assumption. cbn [fst snd].
  match goal with
  | |- context [ExecutionEngine.submit_order ?e1 second] =>
      assert (Hrisk2' : passes_risk_check e1 (Order.of_request second) = true)
        by exact Hrisk2;
      rewrite (submit_order_accepted_engine e1 second) by assumption
  end.
  cbn [fst snd ExecutionEngine.active_orders_ ExecutionEngine.orders_store_].
  change (Order.order_id_ (Order.of_request first))
    with (COrderRequest.order_id first).
  change (Order.order_id_ (Order.of_request second))
    with (COrderRequest.order_id second).
  rewrite <- Hid, !length_app. cbn [length]. fold address.
  replace (address + 1)%nat with (S address) by lia.
  split; [apply lookup_insert_eq|]. split; [apply lookup_insert_eq|].
  split; [apply insert_insert_eq|]. split.
  - apply map_size_insert_Some. rewrite lookup_insert_eq. by eexists.
  - split; [lia|]. rewrite lookup_app_l; [reflexivity|].
    rewrite length_app. simpl. lia.
Qed.

(** The resting limit order submitted twice. *)
Lemma duplicate_id_replaces_entry_witness :
  let e1 := (Scenarios.submit Examples.quoted_engine Scenarios.passive_buy).1.1.2 in
  let e2 := (Scenarios.submit e1 Scenarios.passive_buy).1.1.2 in
  size (ExecutionEngine.active_orders_ e2) = size (ExecutionEngine.active_orders_ e1).
Proof.
  exact (proj1 (proj2 (proj2 (proj2
           (duplicate_id_replaces_entry Examples.quoted_engine
              Scenarios.passive_buy Scenarios.passive_buy
              Examples.blank_response Examples.blank_response
              1000 5000 1000 5000 Examples.no_clock Examples.no_clock
              eq_refl eq_refl eq_refl eq_refl eq_refl))))).
Defined.

Section Unquoted.


Lemma leb_nan_l (x y : float) : Prim2SF x = S754_nan -> (x <=? y)%float = false.
Proof. intros Hx. rewrite leb_spec, Hx. reflexivity. Qed.

Lemma ltb_nan_r (x y : float) : Prim2SF y = S754_nan -> (x <? y)%float = false.
Proof.
  intros Hy. rewrite ltb_spec, Hy. unfold SFltb, SFcompare. by destruct (Prim2SF x).
Qed.

Lemma liquidity_walk_nan out_of_limit quantity levels : forall available,
  Prim2SF quantity = S754_nan ->
  OrderBook.liquidity_walk out_of_limit quantity available levels = false.
Proof.
  induction levels as [|level rest IH]; intros available Hnan; [reflexivity|].
  simpl. destruct (negb _); [reflexivity|]. destruct (out_of_limit _); [reflexivity|].
  rewrite leb_nan_l by exact Hnan. by apply IH.
Qed.

End Unquoted.



(** X16.  Validation and the risk check compare the quantity with [<=]
    and [>], which are false on NaN: a request whose quantity is NaN is
    accepted whenever its other fields pass validation, whatever the
    risk limit, and its order is put into the active-orders map.  As a
    limit order it is never filled. *)
Theorem nan_quantity_is_accepted
    (e : ExecutionEngine.t) (request : COrderRequest.t) (response : COrderResponse.t)
    (start_time end_time : Z) (clock : nat -> Z) :
  let order := Order.of_request request in
  let out := ExecutionEngine.submit_order e request response start_time end_time clock in
  Prim2SF (COrderRequest.quantity request) = S754_nan ->
  COrderRequest.order_id request <> EmptyString ->
  COrderRequest.symbol request <> EmptyString ->
  (COrderRequest.order_type request = ORDER_TYPE_LIMIT ->
   0 < Price.ticks (Order.price_ order)) ->
  (COrderRequest.order_type request = ORDER_TYPE_STOP ->
   0 < Price.ticks (Order.stop_price_ order)) ->
  Order.validate order = true
  /\ passes_risk_check e order = true
  /\ ExecutionEngine.active_orders_ out.1.1.2 !! COrderRequest.order_id request
     = Some (length (ExecutionEngine.orders_store_ e))
  /\ (COrderRequest.order_type request = ORDER_TYPE_LIMIT ->
      COrderResponse.executed_quantity out.1.2 = 0%float).
Proof.
  intros order out Hnan Hid Hsymbol Hlimit Hstop. subst out.
  assert (Hvalid : Order.validate order = true).
  { destruct (Order.validate order) eqn:Hv; [reflexivity|]. exfalso.
    apply validate_false_iff in Hv as [H|[H|[H|[[Htype H]|[Htype H]]]]].
    - by apply Hid.
    - by apply Hsymbol.
    - rewrite leb_nan_l in H by exact Hnan. discriminate.
    - specialize (Hlimit Htype). lia.
    - specialize (Hstop Htype). lia. }
  assert (Hrisk : passes_risk_check e order = true).
  { unfold passes_risk_check. rewrite ltb_nan_r by exact Hnan.
    by rewrite andb_false_r. }
  split; [exact Hvalid|]. split; [exact Hrisk|].
  subst order. rewrite submit_order_accepted_engine by assumption.
  cbn [fst snd ExecutionEngine.active_orders_ COrderResponse.executed_quantity].
  split; [apply lookup_insert_eq|].
  intros Htype. unfold ExecutionEngine.dispatch, Order.get_type.
  change (Order.type_ (Order.of_request request))
    with (COrderRequest.order_type request).
  rewrite Htype. unfold ExecutionEngine.execute_limit_order.
  destruct (_ !! _) as [book|]; [|reflexivity].
  cbv zeta.
  replace (OrderBook.has_sufficient_liquidity _ _ _ _) with false.
  - by rewrite andb_false_r.
  - symmetry. unfold OrderBook.has_sufficient_liquidity.
    destruct (Order.get_side _); by apply liquidity_walk_nan.
Qed.

(** An order that is not a number, at the limit 200. *)
Lemma nan_quantity_is_accepted_witness :
  Order.validate (Order.of_request FurtherExamples.nan_buy) = true
  /\ COrderResponse.status
       (Scenarios.submit Examples.quoted_engine FurtherExamples.nan_buy).1.2
     = ORDER_STATUS_SUBMITTED.
Proof.
  split; [|vm_compute; reflexivity].
  refine (proj1 (nan_quantity_is_accepted Examples.quoted_engine FurtherExamples.nan_buy
                   Examples.blank_response 1000 5000 Examples.no_clock
                   eq_refl _ _ _ _)).
  - discriminate.
  - discriminate.
  - intros _. vm_compute. reflexivity.
  - discriminate.
Defined.

(* ===================================================================== *)
(** ** What every state of the engine has in common *)
(* ===================================================================== *)

Section Reachability.

(** What [submit_order] leaves alone. *)
Lemma submit_order_frame e request response start_time end_time clock :
  let e' :=
    (ExecutionEngine.submit_order e request response start_time end_time clock).1.1.2 in
  ExecutionEngine.config_ e' = ExecutionEngine.config_ e
  /\ ExecutionEngine.worker_threads_ e' = ExecutionEngine.worker_threads_ e
  /\ ExecutionEngine.market_simulator_thread_ e'
     = ExecutionEngine.market_simulator_thread_ e
  /\ ExecutionEngine.running_ e' = ExecutionEngine.running_ e
  /\ ExecutionEngine.order_books_ e' = ExecutionEngine.order_books_ e
  /\ ExecutionEngine.initialized_ e' = ExecutionEngine.initialized_ e
  /\ ExecutionEngine.healthy_ e' = ExecutionEngine.healthy_ e.
Proof.
  cbv zeta.
  destruct (Order.validate (Order.of_request request)) eqn:Hvalid;
    [|by rewrite submit_order_invalid].
  destruct (passes_risk_check e (Order.of_request request)) eqn:Hrisk;
    [|by rewrite submit_order_risk].
  by rewrite submit_order_accepted_engine by assumption.
Qed.

(** What [cancel_order] leaves alone. *)
Lemma cancel_order_frame e order_id :
  let e' := (ExecutionEngine.cancel_order e order_id).1.2 in
  ExecutionEngine.config_ e' = ExecutionEngine.config_ e
  /\ ExecutionEngine.worker_threads_ e' = ExecutionEngine.worker_threads_ e
  /\ ExecutionEngine.market_simulator_thread_ e'
     = ExecutionEngine.market_simulator_thread_ e
  /\ ExecutionEngine.running_ e' = ExecutionEngine.running_ e
  /\ ExecutionEngine.order_books_ e' = ExecutionEngine.order_books_ e
  /\ ExecutionEngine.initialized_ e' = ExecutionEngine.initialized_ e
  /\ ExecutionEngine.healthy_ e' = ExecutionEngine.healthy_ e.
Proof.
  cbv zeta. unfold ExecutionEngine.cancel_order.
  destruct (ExecutionEngine.active_orders_ e !! order_id) as [address|]; [|done].
  destruct (ExecutionEngine.orders_store_ e !! address) as [order|]; [|done].
  by destruct (Order.is_active order).
Qed.

(** A turn of the simulator writes to the books only. *)
Lemma simulate_symbol_frame e symbol price change now_ns :
  let e' := (ExecutionEngine.simulate_symbol e symbol price change now_ns).2 in
  ExecutionEngine.config_ e' = ExecutionEngine.config_ e
  /\ ExecutionEngine.worker_threads_ e' = ExecutionEngine.worker_threads_ e
  /\ ExecutionEngine.market_simulator_thread_ e'
     = ExecutionEngine.market_simulator_thread_ e
  /\ ExecutionEngine.running_ e' = ExecutionEngine.running_ e
  /\ ExecutionEngine.orders_store_ e' = ExecutionEngine.orders_store_ e
  /\ ExecutionEngine.active_orders_ e' = ExecutionEngine.active_orders_ e
  /\ ExecutionEngine.initialized_ e' = ExecutionEngine.initialized_ e
  /\ ExecutionEngine.healthy_ e' = ExecutionEngine.healthy_ e.
Proof.
  cbv zeta. unfold ExecutionEngine.simulate_symbol.
  by destruct (ExecutionEngine.order_books_ e !! symbol).
Qed.

(** [start] changes the flags and the threads only. *)
Lemma start_frame e :
  let e' := (ExecutionEngine.start e).2 in
  ExecutionEngine.config_ e' = ExecutionEngine.config_ e
  /\ ExecutionEngine.orders_store_ e' = ExecutionEngine.orders_store_ e
  /\ ExecutionEngine.active_orders_ e' = ExecutionEngine.active_orders_ e
  /\ ExecutionEngine.order_books_ e' = ExecutionEngine.order_books_ e
  /\ ExecutionEngine.initialized_ e' = ExecutionEngine.initialized_ e.
Proof.
  cbv zeta.
  destruct (ExecutionEngine.initialized_ e) eqn:Hi;
    [|rewrite start_uninitialized by exact Hi; simpl; by repeat split].
  destruct (ExecutionEngine.running_ e) eqn:Hr;
    [rewrite start_running by assumption; simpl; by repeat split|].
  unfold ExecutionEngine.start. rewrite Hi, Hr. simpl. by repeat split.
Qed.

(** A worker writes to the queue only. *)
Lemma process_order_queue_frame e :
  let e' := ExecutionEngine.process_order_queue e in
  ExecutionEngine.config_ e' = ExecutionEngine.config_ e
  /\ ExecutionEngine.worker_threads_ e' = ExecutionEngine.worker_threads_ e
  /\ ExecutionEngine.market_simulator_thread_ e'
     = ExecutionEngine.market_simulator_thread_ e
  /\ ExecutionEngine.running_ e' = ExecutionEngine.running_ e
  /\ ExecutionEngine.orders_store_ e' = ExecutionEngine.orders_store_ e
  /\ ExecutionEngine.active_orders_ e' = ExecutionEngine.active_orders_ e
  /\ ExecutionEngine.order_books_ e' = ExecutionEngine.order_books_ e
  /\ ExecutionEngine.initialized_ e' = ExecutionEngine.initialized_ e
  /\ ExecutionEngine.healthy_ e' = ExecutionEngine.healthy_ e.
Proof.
  cbv zeta. unfold ExecutionEngine.process_order_queue.
  destruct (decide (ExecutionEngine.running_ e = true)) as [Hr|Hr];
    [rewrite Hr|apply not_true_is_false in Hr; rewrite Hr]; by repeat split.
Qed.

(** No method writes to the configuration: it is the default one. *)
Lemma reachable_config e :
  reachable e -> ExecutionEngine.config_ e = ExecutionEngine.Config.default.
Proof.
  induction 1 as [now_ns|e config_json _ IH|e _ IH|e _ IH
                 |e request response start_time end_time clock _ IH
                 |e order_id _ IH|e _ IH|e _ IH|e symbol price change now_ns _ IH
                 |e _ IH].
  - reflexivity.
  - exact IH.
  - by rewrite (proj1 (start_frame e)).
  - exact IH.
  - by rewrite (proj1 (submit_order_frame e request response start_time end_time clock)).
  - by rewrite (proj1 (cancel_order_frame e order_id)).
  - exact IH.
  - exact IH.
  - by rewrite (proj1 (simulate_symbol_frame e symbol price change now_ns)).
  - by rewrite (proj1 (process_order_queue_frame e)).
Qed.

(** The books of the engine are those of the seed symbols, made by
    [initialize]; each is kept under its own symbol and keeps its
    [ORDER_BOOK_DEPTH] levels a side. *)
Lemma reachable_books e symbol :
  reachable e ->
  (is_Some (ExecutionEngine.order_books_ e !! symbol)
   <-> ExecutionEngine.initialized_ e = true
       /\ symbol ∈ ExecutionEngine.seed_symbols)
  /\ (forall book,
        ExecutionEngine.order_books_ e !! symbol = Some book ->
        OrderBook.well_formed book /\ OrderBook.symbol_ book = symbol).
Proof.
  intros H. revert symbol.
  induction H as [now_ns|e config_json _ IH|e _ IH|e _ IH
                 |e request response start_time end_time clock _ IH
                 |e order_id _ IH|e _ IH|e _ IH|e symbol' price change now_ns _ IH
                 |e _ IH];
    intros symbol.
  - simpl. rewrite lookup_empty. split; [|done].
    split; [by intros [? ?]|by intros [? _]].
  - rewrite initialize_books. destruct (IH symbol) as [Hdom Hwf].
    change (ExecutionEngine.initialized_ (ExecutionEngine.initialize e config_json).2)
      with true.
    case_bool_decide as Hin.
    + split; [split; [done|by eexists]|].
      intros book [= <-]. split; [apply well_formed_new|reflexivity].
    + split; [|exact Hwf]. rewrite Hdom. tauto.
  - destruct (start_frame e) as (_ & _ & _ & -> & ->). apply IH.
  - apply IH.
  - destruct (submit_order_frame e request response start_time end_time clock)
      as (_ & _ & _ & _ & -> & -> & _).
    apply IH.
  - destruct (cancel_order_frame e order_id) as (_ & _ & _ & _ & -> & -> & _).
    apply IH.
  - apply IH.
  - apply IH.
  - destruct (simulate_symbol_frame e symbol' price change now_ns)
      as (_ & _ & _ & _ & _ & _ & -> & _).
    destruct (IH symbol) as [Hdom Hwf].
    unfold ExecutionEngine.simulate_symbol.
    destruct (ExecutionEngine.order_books_ e !! symbol') as [book'|] eqn:Hbook';
      [|by split].
    cbn [snd ExecutionEngine.set_order_books ExecutionEngine.order_books_].
    destruct (decide (symbol' = symbol)) as [->|Hne].
    + rewrite lookup_insert_eq. split.
      * rewrite <- Hdom. split; by eexists.
      * intros book [= <-]. destruct (Hwf book' Hbook') as [Hwf' Hsym].
        split; [by apply well_formed_update_ask, well_formed_update_bid|].
        rewrite <- Hsym. unfold OrderBook.update_ask, OrderBook.update_bid.
        by repeat (destruct (_ <=? _)%nat).
    + rewrite lookup_insert_ne by done. by split.
  - destruct (process_order_queue_frame e) as (_ & _ & _ & _ & _ & _ & -> & -> & _).
    apply IH.
Qed.

(** The order the matching hands back has the id of the order it was
    given, and a status that is neither REJECTED, CANCELLED nor EXPIRED. *)
Lemma dispatch_order e clock order :
  let o := (ExecutionEngine.dispatch e clock order).1.2 in
  Order.order_id_ o = Order.order_id_ order
  /\ (Order.status_ order = ORDER_STATUS_PENDING ->
      Order.status_ o = ORDER_STATUS_PENDING
      \/ Order.status_ o = ORDER_STATUS_SUBMITTED
      \/ Order.status_ o = ORDER_STATUS_PARTIALLY_FILLED
      \/ Order.status_ o = ORDER_STATUS_FILLED).
Proof.
  cbv zeta. unfold ExecutionEngine.dispatch, Order.get_type.
  destruct (Order.type_ order); try (split; [reflexivity|tauto]).
  - rewrite execute_market_order_eq.
    destruct (ExecutionEngine.order_books_ e !! Order.symbol_ order) as [book|];
      [|split; [reflexivity|tauto]].
    cbv zeta. case_bool_decide as Hfills; [split; [reflexivity|tauto]|].
    cbn [fst snd]. split; [apply add_fills_order_id|].
    intros _. destruct (add_fills_status _ order Hfills); tauto.
  - unfold ExecutionEngine.execute_limit_order.
    destruct (ExecutionEngine.order_books_ e !! Order.get_symbol order) as [book|];
      [|split; [reflexivity|tauto]].
    cbv zeta. destruct (_ && _); cbn [fst snd].
    + split; [reflexivity|]. intros _.
      destruct (add_fill_status order (Order.get_price order)
                  (Order.get_quantity order) 0%float) as [[? _]|[? _]]; tauto.
    + split; [reflexivity|]. intros _. right. by left.
  - unfold ExecutionEngine.execute_stop_order.
    destruct (ExecutionEngine.order_books_ e !! Order.get_symbol order) as [book|];
      [|split; [reflexivity|tauto]].
    cbv zeta. destruct (_ || _); cbn [fst snd].
    + split; [reflexivity|]. intros _.
      destruct (add_fill_status order (OrderBook.get_mid_price book)
                  (Order.get_quantity order) 0%float) as [[? _]|[? _]]; tauto.
    + split; [reflexivity|]. intros _. right. by left.
Qed.

(** Every entry of the active-orders map leads to an order of the store
    that carries the id of the entry and has not been cancelled. *)
Lemma reachable_orders e :
  reachable e ->
  forall order_id address,
    ExecutionEngine.active_orders_ e !! order_id = Some address ->
    exists order,
      ExecutionEngine.orders_store_ e !! address = Some order
      /\ Order.order_id_ order = order_id
      /\ (Order.status_ order = ORDER_STATUS_PENDING
          \/ Order.status_ order = ORDER_STATUS_SUBMITTED
          \/ Order.status_ order = ORDER_STATUS_PARTIALLY_FILLED
          \/ Order.status_ order = ORDER_STATUS_FILLED).
Proof.
  induction 1 as [now_ns|e config_json _ IH|e _ IH|e _ IH
                 |e request response start_time end_time clock _ IH
                 |e order_id' _ IH|e _ IH|e _ IH|e symbol price change now_ns _ IH
                 |e _ IH];
    intros order_id address.
  - simpl. by rewrite lookup_empty.
  - apply IH.
  - destruct (start_frame e) as (_ & -> & -> & _). apply IH.
  - apply IH.
  - destruct (Order.validate (Order.of_request request)) eqn:Hvalid;
      [|rewrite submit_order_invalid by exact Hvalid; apply IH].
    destruct (passes_risk_check e (Order.of_request request)) eqn:Hrisk;
      [|rewrite submit_order_risk by assumption; apply IH].
    rewrite submit_order_accepted_engine by assumption.
    cbn [fst snd ExecutionEngine.active_orders_ ExecutionEngine.orders_store_].
    match goal with
    | |- context [ExecutionEngine.dispatch ?a clock ?o] =>
        destruct (dispatch_order a clock o) as [Hid Hstatus];
        set (executed := ExecutionEngine.dispatch a clock o) in *
    end.
    destruct (decide (Order.order_id_ (Order.of_request request) = order_id))
      as [Heq|Hne].
    + rewrite Heq, lookup_insert_eq. intros [= <-]. exists executed.1.2.
      split; [by apply list_lookup_middle|]. split; [congruence|by apply Hstatus].
    + rewrite lookup_insert_ne by done. intros Hm.
      destruct (IH _ _ Hm) as (order & Hs & Ho). exists order.
      split; [by apply lookup_app_l_Some|exact Ho].
  - unfold ExecutionEngine.cancel_order.
    destruct (ExecutionEngine.active_orders_ e !! order_id') as [address'|] eqn:Hm';
      [|apply IH].
    destruct (ExecutionEngine.orders_store_ e !! address') as [order'|] eqn:Hs';
      [|apply IH].
    destruct (Order.is_active order'); [|apply IH].
    cbn [fst snd negb ExecutionEngine.set_orders ExecutionEngine.active_orders_
           ExecutionEngine.orders_store_].
    intros Hm. apply lookup_delete_Some in Hm as [Hne Hm].
    destruct (IH _ _ Hm) as (order & Hs & Hid & Hstatus).
    destruct (IH _ _ Hm') as (o' & Hs'' & Hid' & _).
    exists order. split; [|by split].
    rewrite list_lookup_insert_ne; [exact Hs|].
    intros <-. congruence.
  - apply IH.
  - apply IH.
  - destruct (simulate_symbol_frame e symbol price change now_ns)
      as (_ & _ & _ & _ & -> & -> & _).
    apply IH.
  - destruct (process_order_queue_frame e) as (_ & _ & _ & _ & -> & -> & _).
    apply IH.
Qed.

(** The engine of the examples is one the methods reach. *)
Lemma reachable_started_engine : reachable Examples.started_engine.
Proof. apply reachable_start, reachable_initialize, reachable_new. Defined.

Lemma reachable_quoted_engine : reachable Examples.quoted_engine.
Proof. apply reachable_simulate_symbol, reachable_started_engine. Defined.

End Reachability.

(** X17.  In every state the methods of the engine, its simulator and
    its workers reach, the configuration is the default one (the string given to
    [initialize] is not read), the health flag equals the running flag,
    so [is_healthy] tells exactly whether the engine runs, a running
    engine is initialized and has its four workers and its simulator
    thread, and a stopped one has no thread left: [start] never assigns
    a new simulator thread over a joinable one. *)
Theorem engine_lifecycle_invariant (e : ExecutionEngine.t) :
  reachable e ->
  ExecutionEngine.config_ e = ExecutionEngine.Config.default
  /\ ExecutionEngine.healthy_ e = ExecutionEngine.running_ e
  /\ ExecutionEngine.market_simulator_thread_ e = ExecutionEngine.running_ e
  /\ ExecutionEngine.worker_threads_ e
     = (if ExecutionEngine.running_ e then 4 else 0)%nat
  /\ (ExecutionEngine.running_ e = true -> ExecutionEngine.initialized_ e = true)
  /\ ExecutionEngine.is_healthy e = ExecutionEngine.running_ e.
Proof.
  intros H. split; [by apply reachable_config|].
  assert (Hflags :
    ExecutionEngine.healthy_ e = ExecutionEngine.running_ e
    /\ ExecutionEngine.market_simulator_thread_ e = ExecutionEngine.running_ e
    /\ ExecutionEngine.worker_threads_ e
       = (if ExecutionEngine.running_ e then 4 else 0)%nat
    /\ (ExecutionEngine.running_ e = true -> ExecutionEngine.initialized_ e = true)).
  { induction H as [now_ns|e config_json _ IH|e H IH|e _ IH
                   |e request response start_time end_time clock _ IH
                   |e order_id _ IH|e _ IH|e _ IH|e symbol price change now_ns _ IH
                 |e _ IH].
    - by repeat split.
    - destruct IH as (Hh & Hs & Hw & _). by repeat split.
    - destruct (decide (ExecutionEngine.initialized_ e = true)) as [Hi|Hi];
        [|apply not_true_is_false in Hi;
          by rewrite start_uninitialized by exact Hi].
      destruct (decide (ExecutionEngine.running_ e = true)) as [Hr|Hr];
        [by rewrite start_running by assumption|apply not_true_is_false in Hr].
      destruct IH as (_ & _ & Hw & _).
      unfold ExecutionEngine.start. rewrite Hi, Hr. simpl.
      rewrite (reachable_config e H), Hw, Hr. by repeat split.
    - by repeat split.
    - destruct (submit_order_frame e request response start_time end_time clock)
        as (_ & -> & -> & -> & _ & -> & ->).
      exact IH.
    - destruct (cancel_order_frame e order_id) as (_ & -> & -> & -> & _ & -> & ->).
      exact IH.
    - exact IH.
    - exact IH.
    - destruct (simulate_symbol_frame e symbol price change now_ns)
        as (_ & -> & -> & -> & _ & _ & -> & ->).
      exact IH.
    - destruct (process_order_queue_frame e)
        as (_ & -> & -> & -> & _ & _ & _ & -> & ->).
      exact IH. }
  destruct Hflags as (Hh & Hs & Hw & Hi). repeat split; try assumption.
  unfold ExecutionEngine.is_healthy. rewrite Hh. apply andb_diag.
Qed.

(** The engine of the examples runs, so it is healthy. *)
Lemma engine_lifecycle_invariant_witness :
  ExecutionEngine.is_healthy Examples.quoted_engine = true.
Proof.
  exact (proj2 (proj2 (proj2 (proj2 (proj2
           (engine_lifecycle_invariant Examples.quoted_engine
              reachable_quoted_engine)))))).
Defined.

Section Results.

Local Open Scope string_scope.

(** The matching refuses an order as invalid when the engine has no book
    for its symbol or does not support its type, and only then. *)
Lemma dispatch_invalid_iff e clock order :
  (ExecutionEngine.dispatch e clock order).1.1 = EXEC_ERROR_INVALID_ORDER
  <-> ExecutionEngine.order_books_ e !! Order.symbol_ order = None
      \/ Order.type_ order = ORDER_TYPE_STOP_LIMIT
      \/ Order.type_ order = ORDER_TYPE_TRAILING_STOP.
Proof.
  unfold ExecutionEngine.dispatch, Order.get_type.
  destruct (Order.type_ order) eqn:Htype.
  - rewrite execute_market_order_eq.
    destruct (ExecutionEngine.order_books_ e !! Order.symbol_ order) as [book|];
      [|simpl; tauto].
    cbv zeta. case_bool_decide; simpl; (split; [discriminate|]);
      intros [?|[?|?]]; discriminate.
  - unfold ExecutionEngine.execute_limit_order, Order.get_symbol.
    destruct (ExecutionEngine.order_books_ e !! Order.symbol_ order) as [book|];
      [|simpl; tauto].
    cbv zeta. destruct (_ && _); simpl; (split; [discriminate|]);
      intros [?|[?|?]]; discriminate.
  - unfold ExecutionEngine.execute_stop_order, Order.get_symbol.
    destruct (ExecutionEngine.order_books_ e !! Order.symbol_ order) as [book|];
      [|simpl; tauto].
    cbv zeta. destruct (_ || _); simpl; (split; [discriminate|]);
      intros [?|[?|?]]; discriminate.
  - simpl. tauto.
  - simpl. tauto.
Qed.

(** The matching finds too little liquidity when the book of a market
    order yields no fill, and only then. *)
Lemma dispatch_insufficient_iff e clock order :
  (ExecutionEngine.dispatch e clock order).1.1 = EXEC_ERROR_INSUFFICIENT_LIQUIDITY
  <-> Order.type_ order = ORDER_TYPE_MARKET
      /\ exists book,
           ExecutionEngine.order_books_ e !! Order.symbol_ order = Some book
           /\ OrderBook.get_fills_for_market_order
                book (Order.side_ order) (Order.quantity_ order) = [].
Proof.
  split.
  - intros Hr.
    destruct (dispatch_failure e clock order) as ([Hinv|[_ Htype]] & _ & _);
      [congruence|congruence|].
    split; [exact Htype|]. revert Hr.
    unfold ExecutionEngine.dispatch, Order.get_type. rewrite Htype.
    rewrite execute_market_order_eq.
    destruct (ExecutionEngine.order_books_ e !! Order.symbol_ order) as [book|];
      [|discriminate].
    cbv zeta. case_bool_decide as Hfills; [|discriminate].
    intros _. by exists book.
  - intros (Htype & book & Hbook & Hfills).
    unfold ExecutionEngine.dispatch, Order.get_type. rewrite Htype.
    rewrite execute_market_order_eq, Hbook. cbv zeta.
    by rewrite bool_decide_eq_true_2.
Qed.

End Results.

(** X18.  On an engine the methods reach, the result of [submit_order]
    is decided as follows.  RISK_LIMIT_EXCEEDED: the order passes
    validation and its quantity is above 1 000 000, a limit no call can
    change.  INVALID_ORDER: the order fails validation, or it is within
    the limit and the engine is not initialized, or the symbol is not
    one of the five seed symbols, or the type is STOP_LIMIT or
    TRAILING_STOP.  INSUFFICIENT_LIQUIDITY: a valid market order within
    the limit whose book yields no fill.  *)
Theorem submit_order_result_decided
    (e : ExecutionEngine.t) (request : COrderRequest.t) (response : COrderResponse.t)
    (start_time end_time : Z) (clock : nat -> Z) :
  reachable e ->
  let order := Order.of_request request in
  let result :=
    (ExecutionEngine.submit_order e request response start_time end_time clock).1.1.1 in
  let over_limit := (1000000 <? COrderRequest.quantity request)%float in
  (result = EXEC_ERROR_RISK_LIMIT_EXCEEDED
   <-> Order.validate order = true /\ over_limit = true)
  /\ (result = EXEC_ERROR_INVALID_ORDER
      <-> Order.validate order = false
          \/ (over_limit = false
              /\ (ExecutionEngine.initialized_ e = false
                  \/ COrderRequest.symbol request ∉ ExecutionEngine.seed_symbols
                  \/ COrderRequest.order_type request = ORDER_TYPE_STOP_LIMIT
                  \/ COrderRequest.order_type request = ORDER_TYPE_TRAILING_STOP)))
  /\ (result = EXEC_ERROR_INSUFFICIENT_LIQUIDITY
      <-> Order.validate order = true /\ over_limit = false
          /\ COrderRequest.order_type request = ORDER_TYPE_MARKET
          /\ exists book,
               ExecutionEngine.order_books_ e !! COrderRequest.symbol request
               = Some book
               /\ OrderBook.get_fills_for_market_order
                    book (COrderRequest.side request) (COrderRequest.quantity request)
                  = []).
Proof.
  intros H order result over_limit. subst result.
  assert (Hrisk : passes_risk_check e order = negb over_limit).
  { unfold passes_risk_check. by rewrite (reachable_config e H). }
  destruct (reachable_books e (COrderRequest.symbol request) H) as [Hdom _].
  assert (Hnone :
    ExecutionEngine.order_books_ e !! COrderRequest.symbol request = None
    <-> ExecutionEngine.initialized_ e = false
        \/ COrderRequest.symbol request ∉ ExecutionEngine.seed_symbols).
  { rewrite eq_None_not_Some, Hdom.
    destruct (ExecutionEngine.initialized_ e); [|intuition discriminate].
    intuition discriminate. }
  destruct (Order.validate order) eqn:Hvalid.
  2:{ subst order. rewrite submit_order_invalid by exact Hvalid. cbn [fst].
      repeat split; try discriminate; try tauto;
        intros (? & ?); discriminate. }
  destruct over_limit eqn:Hover.
  { subst order. rewrite submit_order_risk by assumption. cbn [fst].
    repeat split; try discriminate; try tauto.
    - intros [?|[? _]]; discriminate.
    - intros (_ & ? & _); discriminate. }
  subst order. rewrite submit_order_accepted_engine by assumption. cbn [fst].
  match goal with
  | |- context [ExecutionEngine.dispatch ?a clock ?o] =>
      pose proof (dispatch_results a clock o) as [Hres _];
      pose proof (dispatch_invalid_iff a clock o) as Hinvalid;
      pose proof (dispatch_insufficient_iff a clock o) as Hinsufficient;
      set (executed := ExecutionEngine.dispatch a clock o) in *
  end.
  cbv zeta in Hres.
  cbn [ExecutionEngine.set_orders ExecutionEngine.order_books_] in Hinvalid, Hinsufficient.
  change (Order.symbol_ (Order.of_request request))
    with (COrderRequest.symbol request) in *.
  change (Order.type_ (Order.of_request request))
    with (COrderRequest.order_type request) in *.
  change (Order.side_ (Order.of_request request))
    with (COrderRequest.side request) in *.
  change (Order.quantity_ (Order.of_request request))
    with (COrderRequest.quantity request) in *.
  rewrite Hnone in Hinvalid.
  split; [|split].
  - split; [intros Hr; rewrite Hr in Hres; intuition discriminate
           |intros [_ ?]; discriminate].
  - rewrite Hinvalid. split; [intros ?; right; tauto|].
    intros [?|[_ ?]]; [discriminate|tauto].
  - rewrite Hinsufficient. tauto.
Qed.

(** An order of 2 000 000 shares is refused by the risk check. *)
Lemma submit_order_result_decided_witness :
  (Scenarios.submit Examples.quoted_engine FurtherExamples.oversized_buy).1.1.1
  = EXEC_ERROR_RISK_LIMIT_EXCEEDED.
Proof.
  apply (proj1 (submit_order_result_decided Examples.quoted_engine
                  FurtherExamples.oversized_buy Examples.blank_response
                  1000 5000 Examples.no_clock reachable_quoted_engine)).
  split; reflexivity.
Defined.

Section BookCopies.

(** The level 0 written by [update_bid] is the top of the bids; the
    deeper bids, the asks and the symbol are as before. *)
Lemma update_bid_top b price size now_ns :
  OrderBook.well_formed b ->
  let b' := OrderBook.update_bid b price size 0 now_ns in
  OrderBook.get_best_bid b' = price
  /\ OrderBook.get_bid_size b' 0 = size
  /\ OrderBook.asks_ b' = OrderBook.asks_ b
  /\ OrderBook.symbol_ b' = OrderBook.symbol_ b
  /\ (forall level, (0 < level)%nat ->
        OrderBook.bids_ b' !! level = OrderBook.bids_ b !! level).
Proof.
  intros Hwf b'. subst b'.
  unfold OrderBook.get_best_bid, OrderBook.get_bid_size.
  change (OrderBook.ORDER_BOOK_DEPTH <=? 0)%nat with false. cbv iota.
  rewrite update_bid_level by (exact Hwf || (unfold OrderBook.ORDER_BOOK_DEPTH; lia)).
  unfold OrderBook.update_bid.
  change (OrderBook.ORDER_BOOK_DEPTH <=? 0)%nat with false. cbv iota.
  unfold OrderBookLevel.get_price, OrderBookLevel.get_size. simpl.
  rewrite price_eta. repeat split.
  intros level Hlevel. apply list_lookup_alter_ne. lia.
Qed.

Lemma update_ask_top b price size now_ns :
  OrderBook.well_formed b ->
  let b' := OrderBook.update_ask b price size 0 now_ns in
  OrderBook.get_best_ask b' = price
  /\ OrderBook.get_ask_size b' 0 = size
  /\ OrderBook.bids_ b' = OrderBook.bids_ b
  /\ OrderBook.symbol_ b' = OrderBook.symbol_ b
  /\ (forall level, (0 < level)%nat ->
        OrderBook.asks_ b' !! level = OrderBook.asks_ b !! level).
Proof.
  intros Hwf b'. subst b'.
  unfold OrderBook.get_best_ask, OrderBook.get_ask_size.
  change (OrderBook.ORDER_BOOK_DEPTH <=? 0)%nat with false. cbv iota.
  rewrite update_ask_level by (exact Hwf || (unfold OrderBook.ORDER_BOOK_DEPTH; lia)).
  unfold OrderBook.update_ask.
  change (OrderBook.ORDER_BOOK_DEPTH <=? 0)%nat with false. cbv iota.
  unfold OrderBookLevel.get_price, OrderBookLevel.get_size. simpl.
  rewrite price_eta. repeat split.
  intros level Hlevel. apply list_lookup_alter_ne. lia.
Qed.

(** The book [get_order_book] hands back, side by side. *)
Lemma get_order_book_sides e symbol book now_ns source :
  OrderBook.well_formed book ->
  ExecutionEngine.order_books_ e !! symbol = Some source ->
  let out := (ExecutionEngine.get_order_book e symbol book now_ns).2 in
  (if 0 <? Price.ticks (OrderBook.get_best_bid source)
   then OrderBook.get_best_bid out = OrderBook.get_best_bid source
        /\ OrderBook.get_bid_size out 0 = OrderBook.get_bid_size source 0
   else OrderBook.bids_ out = OrderBook.bids_ book)
  /\ (if 0 <? Price.ticks (OrderBook.get_best_ask source)
      then OrderBook.get_best_ask out = OrderBook.get_best_ask source
           /\ OrderBook.get_ask_size out 0 = OrderBook.get_ask_size source 0
      else OrderBook.asks_ out = OrderBook.asks_ book)
  /\ (forall level, (0 < level)%nat ->
        OrderBook.bids_ out !! level = OrderBook.bids_ book !! level
        /\ OrderBook.asks_ out !! level = OrderBook.asks_ book !! level)
  /\ OrderBook.symbol_ out = OrderBook.symbol_ book.
Proof.
  intros Hwf Hsource out. subst out.
  unfold ExecutionEngine.get_order_book. rewrite Hsource. cbv zeta. cbn [snd].
  set (bid := OrderBook.get_best_bid source).
  set (ask := OrderBook.get_best_ask source).
  set (bid_size := OrderBook.get_bid_size source 0).
  set (ask_size := OrderBook.get_ask_size source 0).
  destruct (update_bid_top book bid bid_size now_ns Hwf)
    as (Hb1 & Hb2 & Hb3 & Hb4 & Hb5).
  pose proof (well_formed_update_bid book bid bid_size 0 now_ns Hwf) as Hwf'.
  destruct (update_ask_top book ask ask_size now_ns Hwf)
    as (Ha1 & Ha2 & Ha3 & Ha4 & Ha5).
  destruct (update_ask_top (OrderBook.update_bid book bid bid_size 0 now_ns)
              ask ask_size now_ns Hwf')
    as (Hc1 & Hc2 & Hc3 & Hc4 & Hc5).
  unfold OrderBook.get_best_bid, OrderBook.get_bid_size in *.
  destruct (0 <? Price.ticks bid); destruct (0 <? Price.ticks ask).
  all: rewrite ?Hc3, ?Hc4, ?Ha3; repeat split; try assumption; intros;
    rewrite ?Hc5, ?Ha5, ?Hb5 by assumption; by rewrite ?Hb3.
Qed.

End BookCopies.

(** X19.  [get_order_book] succeeds exactly for the five seed symbols of
    an initialized engine; otherwise it returns INVALID_ORDER and leaves
    the caller's book alone.  On success it copies the top of each side
    whose best price is positive, price and size, into level 0 of the
    caller's book, and nothing else: a side whose best price is not
    positive, every deeper level and the symbol of the caller's book
    stay as they were. *)
Theorem get_order_book_copies_top
    (e : ExecutionEngine.t) (symbol : string) (book : OrderBook.t) (now_ns : Z) :
  reachable e ->
  OrderBook.well_formed book ->
  let out := ExecutionEngine.get_order_book e symbol book now_ns in
  (out.1 = EXEC_SUCCESS
   <-> ExecutionEngine.initialized_ e = true /\ symbol ∈ ExecutionEngine.seed_symbols)
  /\ (out.1 <> EXEC_SUCCESS -> out = (EXEC_ERROR_INVALID_ORDER, book))
  /\ (forall source,
        ExecutionEngine.order_books_ e !! symbol = Some source ->
        (if 0 <? Price.ticks (OrderBook.get_best_bid source)
         then OrderBook.get_best_bid out.2 = OrderBook.get_best_bid source
              /\ OrderBook.get_bid_size out.2 0 = OrderBook.get_bid_size source 0
         else OrderBook.bids_ out.2 = OrderBook.bids_ book)
        /\ (if 0 <? Price.ticks (OrderBook.get_best_ask source)
            then OrderBook.get_best_ask out.2 = OrderBook.get_best_ask source
                 /\ OrderBook.get_ask_size out.2 0 = OrderBook.get_ask_size source 0
            else OrderBook.asks_ out.2 = OrderBook.asks_ book)
        /\ (forall level, (0 < level)%nat ->
              OrderBook.bids_ out.2 !! level = OrderBook.bids_ book !! level
              /\ OrderBook.asks_ out.2 !! level = OrderBook.asks_ book !! level)
        /\ OrderBook.symbol_ out.2 = OrderBook.symbol_ book).
Proof.
  intros H Hwf out. subst out.
  destruct (reachable_books e symbol H) as [Hdom _].
  split; [|split].
  - rewrite <- Hdom. unfold ExecutionEngine.get_order_book.
    destruct (ExecutionEngine.order_books_ e !! symbol) as [source|]; simpl.
    + split; [by eexists|reflexivity].
    + split; [discriminate|by intros [? ?]].
  - unfold ExecutionEngine.get_order_book.
    destruct (ExecutionEngine.order_books_ e !! symbol) as [source|]; simpl; done.
  - intros source Hsource. by apply get_order_book_sides.
Qed.

(** The top of the quoted AAPL book, copied into a new book. *)
Lemma get_order_book_copies_top_witness :
  (ExecutionEngine.get_order_book Examples.quoted_engine "AAPL"
     (OrderBook.new "COPY") 7).1 = EXEC_SUCCESS.
Proof.
  apply (proj1 (get_order_book_copies_top Examples.quoted_engine "AAPL"
                  (OrderBook.new "COPY") 7 reachable_quoted_engine
                  (well_formed_new "COPY"))).
  split; [reflexivity|apply list_elem_of_here].
Defined.

(** X20.  In every state the methods reach, an id of the active-orders
    map leads to an order of the store that carries this id, two ids
    never lead to the same order, and the order is PENDING, SUBMITTED,
    PARTIALLY_FILLED or FILLED: a cancelled order is never in the map.
    So [cancel_order] returns ORDER_NOT_FOUND exactly when the id is not
    in the map, SUCCESS exactly when its order is SUBMITTED or
    PARTIALLY_FILLED, and INVALID_ORDER exactly when its order is
    PENDING (its matching failed) or FILLED; whenever the result is not
    SUCCESS the engine is left as it was, so that no call of
    [cancel_order] takes a PENDING or FILLED order out of the map. *)
Theorem active_orders_invariant (e : ExecutionEngine.t) (order_id : string) :
  reachable e ->
  let result := (ExecutionEngine.cancel_order e order_id).1.1 in
  let entry (statuses : list OrderStatus) :=
    exists address order,
      ExecutionEngine.active_orders_ e !! order_id = Some address
      /\ ExecutionEngine.orders_store_ e !! address = Some order
      /\ Order.order_id_ order = order_id
      /\ Order.status_ order ∈ statuses in
  (forall address,
     ExecutionEngine.active_orders_ e !! order_id = Some address ->
     entry [ORDER_STATUS_PENDING; ORDER_STATUS_SUBMITTED;
            ORDER_STATUS_PARTIALLY_FILLED; ORDER_STATUS_FILLED]
     /\ forall other,
          ExecutionEngine.active_orders_ e !! other = Some address ->
          other = order_id)
  /\ (result = EXEC_ERROR_ORDER_NOT_FOUND
      <-> ExecutionEngine.active_orders_ e !! order_id = None)
  /\ (result = EXEC_SUCCESS
      <-> entry [ORDER_STATUS_SUBMITTED; ORDER_STATUS_PARTIALLY_FILLED])
  /\ (result = EXEC_ERROR_INVALID_ORDER
      <-> entry [ORDER_STATUS_PENDING; ORDER_STATUS_FILLED])
  /\ (result <> EXEC_SUCCESS ->
      ExecutionEngine.cancel_order e order_id = (result, e, [])).
Proof.
  intros H result entry. subst result.
  pose proof (reachable_orders e H) as Hinv.
  assert (Hsame :
    (ExecutionEngine.cancel_order e order_id).1.1 <> EXEC_SUCCESS ->
    ExecutionEngine.cancel_order e order_id
    = ((ExecutionEngine.cancel_order e order_id).1.1, e, [])).
  { unfold ExecutionEngine.cancel_order.
    destruct (ExecutionEngine.active_orders_ e !! order_id) as [address|]; [|done].
    destruct (ExecutionEngine.orders_store_ e !! address) as [order|]; [|done].
    by destruct (Order.is_active order). }
  assert (Hentry : forall address,
    ExecutionEngine.active_orders_ e !! order_id = Some address ->
    exists order,
      ExecutionEngine.orders_store_ e !! address = Some order
      /\ Order.order_id_ order = order_id
      /\ (Order.status_ order = ORDER_STATUS_PENDING
          \/ Order.status_ order = ORDER_STATUS_SUBMITTED
          \/ Order.status_ order = ORDER_STATUS_PARTIALLY_FILLED
          \/ Order.status_ order = ORDER_STATUS_FILLED))
    by (intros address; apply Hinv).
  split; [|split; [|split; [|split; [|exact Hsame]]]].
  - intros address Hm. destruct (Hentry address Hm) as (order & Hs & Hid & Hstatus).
    split.
    + exists address, order. repeat split; try assumption.
      rewrite !elem_of_cons. tauto.
    + intros other Hother. destruct (Hinv other address Hother) as (o & Hs' & Hid' & _).
      congruence.
  - unfold ExecutionEngine.cancel_order.
    destruct (ExecutionEngine.active_orders_ e !! order_id) as [address|] eqn:Hm;
      [|done].
    destruct (Hentry address eq_refl) as (order & -> & _).
    by destruct (Order.is_active order).
  - unfold ExecutionEngine.cancel_order, entry.
    destruct (ExecutionEngine.active_orders_ e !! order_id) as [address|] eqn:Hm.
    2:{ split; [discriminate|]. by intros (? & ? & ? & _). }
    destruct (Hentry address eq_refl) as (order & Hs & Hid & Hstatus). rewrite Hs.
    destruct (Order.is_active order) eqn:Ha; simpl.
    + split; [|reflexivity]. intros _. exists address, order.
      apply is_active_iff in Ha. rewrite !elem_of_cons. tauto.
    + split; [discriminate|]. intros (a & o & [= <-] & Hs' & _ & Hin).
      rewrite Hs in Hs'. injection Hs' as <-.
      assert (Order.is_active order = true); [|congruence].
      apply is_active_iff. revert Hin. rewrite !elem_of_cons, elem_of_nil. tauto.
  - unfold ExecutionEngine.cancel_order, entry.
    destruct (ExecutionEngine.active_orders_ e !! order_id) as [address|] eqn:Hm.
    2:{ split; [discriminate|]. by intros (? & ? & ? & _). }
    destruct (Hentry address eq_refl) as (order & Hs & Hid & Hstatus). rewrite Hs.
    destruct (Order.is_active order) eqn:Ha; simpl.
    + split; [discriminate|]. intros (a & o & [= <-] & Hs' & _ & Hin).
      rewrite Hs in Hs'. injection Hs' as <-.
      apply is_active_iff in Ha. revert Hin.
      rewrite !elem_of_cons, elem_of_nil. intros [Hp|[Hf|[]]]; destruct Ha; congruence.
    + split; [|reflexivity]. intros _. exists address, order.
      repeat split; try assumption. rewrite !elem_of_cons.
      destruct Hstatus as [?|[Hst|[Hst|?]]]; try tauto;
        (assert (Order.is_active order = true) by (apply is_active_iff; tauto));
        congruence.
Qed.

(** The filled market order of the scenario cannot be cancelled. *)
Lemma active_orders_invariant_witness :
  let e := (Scenarios.submit Examples.quoted_engine Scenarios.market_buy).1.1.2 in
  (ExecutionEngine.cancel_order e (COrderRequest.order_id Scenarios.market_buy)).1.1
  = EXEC_ERROR_INVALID_ORDER.
Proof.
  intros e.
  apply (proj1 (proj2 (proj2 (proj2
           (active_orders_invariant e (COrderRequest.order_id Scenarios.market_buy)
              (reachable_submit_order _ _ _ _ _ _ reachable_quoted_engine)))))).
  eexists _, _. split; [vm_compute; reflexivity|].
  split; [vm_compute; reflexivity|]. split; [reflexivity|].
  apply list_elem_of_further, list_elem_of_here.
Defined.

Section CInterface.

Local Open Scope string_scope.

(** The five seed symbols fit the 16 bytes of [COrderBook::symbol]. *)
Lemma seed_symbol_fits symbol :
  symbol ∈ ExecutionEngine.seed_symbols -> String.substring 0 15 symbol = symbol.
Proof.
  unfold ExecutionEngine.seed_symbols. rewrite !elem_of_cons, elem_of_nil.
  intros [->|[->|[->|[->|[->|[]]]]]]; reflexivity.
Qed.

(** [submit_order] never returns SYSTEM_ERROR. *)
Lemma submit_order_no_system_error e request response start_time end_time clock :
  (ExecutionEngine.submit_order e request response start_time end_time clock).1.1.1
  <> EXEC_ERROR_SYSTEM_ERROR.
Proof.
  destruct (Order.validate (Order.of_request request)) eqn:Hvalid;
    [|by rewrite submit_order_invalid].
  destruct (passes_risk_check e (Order.of_request request)) eqn:Hrisk;
    [|by rewrite submit_order_risk].
  rewrite submit_order_accepted_engine by assumption. cbn [fst].
  match goal with
  | |- context [ExecutionEngine.dispatch ?a clock ?o] =>
      destruct (dispatch_results a clock o) as [[Hr|[Hr|Hr]] _]; cbv zeta in Hr;
      by rewrite Hr
  end.
Qed.

End CInterface.

(** X21.  [engine_get_order_book] on an engine that has a book for the
    symbol returns SUCCESS and fills the caller's record with the symbol,
    the best bid and ask in currency units and their sizes, last size 0,
    and as last price the mid of the two prices.  A side whose best
    price is not positive is reported with price 0 and size 0, whatever
    the book holds, and enters the mid price as 0. *)
Theorem engine_get_order_book_snapshot
    (e : ExecutionEngine.t) (symbol : string) (book : COrderBook.t) (now_ns : Z)
    (source : OrderBook.t) :
  reachable e ->
  ExecutionEngine.order_books_ e !! symbol = Some source ->
  let quoted (price : Price.t) := 0 <? Price.ticks price in
  let bid :=
    if quoted (OrderBook.get_best_bid source) then OrderBook.get_best_bid source
    else Price.of_ticks 0 in
  let ask :=
    if quoted (OrderBook.get_best_ask source) then OrderBook.get_best_ask source
    else Price.of_ticks 0 in
  exists snapshot,
    CApi.engine_get_order_book (Some e) (Some symbol) (Some book) now_ns
    = (EXEC_SUCCESS, Some snapshot)
    /\ COrderBook.symbol snapshot = symbol
    /\ COrderBook.bid_price snapshot = Price.to_double bid
    /\ COrderBook.ask_price snapshot = Price.to_double ask
    /\ COrderBook.bid_size snapshot
       = (if quoted (OrderBook.get_best_bid source)
          then OrderBook.get_bid_size source 0 else 0%float)
    /\ COrderBook.ask_size snapshot
       = (if quoted (OrderBook.get_best_ask source)
          then OrderBook.get_ask_size source 0 else 0%float)
    /\ COrderBook.last_price snapshot
       = Price.to_double
           (Price.of_ticks (Z.quot (int64_wrap (Price.ticks bid + Price.ticks ask)) 2))
    /\ COrderBook.last_size snapshot = 0%float.
Proof.
  intros H Hsource quoted bid ask.
  destruct (reachable_books e symbol H) as [Hdom _].
  assert (Hsymbol : String.substring 0 15 symbol = symbol).
  { apply seed_symbol_fits. apply Hdom. by eexists. }
  destruct (get_order_book_sides e symbol (OrderBook.new symbol) now_ns source
              (well_formed_new symbol) Hsource)
    as (Hbid & Hask & _ & _).
  cbv zeta in Hbid, Hask.
  unfold CApi.engine_get_order_book.
  assert (Hresult :
    (ExecutionEngine.get_order_book e symbol (OrderBook.new symbol) now_ns).1
    = EXEC_SUCCESS)
    by (unfold ExecutionEngine.get_order_book; by rewrite Hsource).
  destruct (ExecutionEngine.get_order_book e symbol (OrderBook.new symbol) now_ns)
    as [result cpp_book].
  cbn [fst snd] in Hresult, Hbid, Hask. subst result.
  rewrite bool_decide_eq_true_2 by reflexivity.
  eexists. split; [reflexivity|]. cbn [COrderBook.symbol COrderBook.bid_price
    COrderBook.ask_price COrderBook.bid_size COrderBook.ask_size
    COrderBook.last_price COrderBook.last_size].
  split; [exact Hsymbol|].
  assert (Hb : OrderBook.get_best_bid cpp_book = bid
               /\ OrderBook.get_bid_size cpp_book 0
                  = (if quoted (OrderBook.get_best_bid source)
                     then OrderBook.get_bid_size source 0 else 0%float)).
  { subst bid quoted. cbv beta.
    destruct (0 <? Price.ticks (OrderBook.get_best_bid source)); [exact Hbid|].
    unfold OrderBook.get_best_bid, OrderBook.get_bid_size. by rewrite Hbid. }
  assert (Ha : OrderBook.get_best_ask cpp_book = ask
               /\ OrderBook.get_ask_size cpp_book 0
                  = (if quoted (OrderBook.get_best_ask source)
                     then OrderBook.get_ask_size source 0 else 0%float)).
  { subst ask quoted. cbv beta.
    destruct (0 <? Price.ticks (OrderBook.get_best_ask source)); [exact Hask|].
    unfold OrderBook.get_best_ask, OrderBook.get_ask_size. by rewrite Hask. }
  destruct Hb as [Hb1 Hb2], Ha as [Ha1 Ha2].
  unfold OrderBook.get_mid_price. rewrite Hb1, Hb2, Ha1, Ha2. by repeat split.
Qed.

(** The snapshot of the quoted AAPL book: bid 149.99984, ask 150.30013. *)
Lemma engine_get_order_book_snapshot_witness :
  exists snapshot,
    CApi.engine_get_order_book (Some Examples.quoted_engine) (Some "AAPL"%string)
                               (Some FurtherExamples.blank_book) 7
    = (EXEC_SUCCESS, Some snapshot)
    /\ COrderBook.bid_price snapshot = 149.99984%float
    /\ COrderBook.ask_price snapshot = 150.30013%float.
Proof.
  destruct (engine_get_order_book_snapshot Examples.quoted_engine "AAPL"
              FurtherExamples.blank_book 7
              LimitExamples.quoted_book reachable_quoted_engine)
    as (snapshot & Hout & _ & Hbid & Hask & _).
  - vm_compute. reflexivity.
  - exists snapshot. split; [exact Hout|]. split.
    + rewrite Hbid. vm_compute. reflexivity.
    + rewrite Hask. vm_compute. reflexivity.
Defined.

(** X22.  [engine_stop] stops the engine and destroys it: afterwards
    there is no engine, so [engine_start] returns SYSTEM_ERROR and
    [engine_is_healthy] 0, and [engine_initialize] makes a new engine,
    which does not run and has none of the orders, metrics and callbacks
    of the old one: an id submitted before the stop is not found. *)
Theorem engine_stop_destroys_engine
    (g_engine : option ExecutionEngine.t) (config_json : option string) (now_ns : Z) :
  let stopped := CApi.engine_stop g_engine in
  let again := CApi.engine_initialize stopped.2 config_json now_ns in
  stopped = (EXEC_SUCCESS, None)
  /\ CApi.engine_start stopped.2 = (EXEC_ERROR_SYSTEM_ERROR, None)
  /\ CApi.engine_is_healthy stopped.2 = 0
  /\ again.1 = EXEC_SUCCESS
  /\ exists e,
       again.2 = Some e
       /\ reachable e
       /\ ExecutionEngine.running_ e = false
       /\ ExecutionEngine.orders_store_ e = []
       /\ ExecutionEngine.active_orders_ e = ∅
       /\ ExecutionEngine.metrics_ e = PerformanceMetrics.new now_ns
       /\ ExecutionEngine.fill_callback_ e = false
       /\ ExecutionEngine.status_callback_ e = false
       /\ (forall order_id,
             (CApi.engine_cancel_order again.2 (Some order_id)).1.1
             = EXEC_ERROR_ORDER_NOT_FOUND)
       /\ (CApi.engine_start again.2).1 = EXEC_SUCCESS.
Proof.
  intros stopped again.
  assert (Hstopped : stopped = (EXEC_SUCCESS, None)) by (by destruct g_engine).
  subst again. rewrite Hstopped. cbn [snd].
  split; [reflexivity|]. split; [reflexivity|]. split; [reflexivity|].
  split; [reflexivity|].
  exists (ExecutionEngine.initialize (ExecutionEngine.new now_ns)
            (default EmptyString config_json)).2.
  split; [reflexivity|]. split; [apply reachable_initialize, reachable_new|].
  repeat split.
Qed.

(** X23.  The functions of the C interface that take pointers return
    SYSTEM_ERROR exactly when there is no engine or a pointer is null,
    and then touch neither the engine nor the caller's records;
    [engine_start] returns it exactly when there is no engine or the
    engine is not initialized, and the two registration functions
    exactly when there is no engine. *)
Theorem c_interface_system_error
    (g_engine : option ExecutionEngine.t)
    (request : option COrderRequest.t) (response : option COrderResponse.t)
    (start_time end_time : Z) (clock : nat -> Z)
    (order_id symbol : option string) (book : option COrderBook.t)
    (metrics : option CEngineMetrics.t) (callback : bool) (now_ns : Z) :
  (forall e, g_engine = Some e -> reachable e) ->
  let submitted :=
    CApi.engine_submit_order g_engine request response start_time end_time clock in
  let cancelled := CApi.engine_cancel_order g_engine order_id in
  let snapshot := CApi.engine_get_order_book g_engine symbol book now_ns in
  let measured := CApi.engine_get_metrics g_engine metrics now_ns in
  (submitted.1.1.1 = EXEC_ERROR_SYSTEM_ERROR
   <-> g_engine = None \/ request = None \/ response = None)
  /\ (submitted.1.1.1 = EXEC_ERROR_SYSTEM_ERROR ->
      submitted = (EXEC_ERROR_SYSTEM_ERROR, response, [], g_engine))
  /\ (cancelled.1.1 = EXEC_ERROR_SYSTEM_ERROR <-> g_engine = None \/ order_id = None)
  /\ (cancelled.1.1 = EXEC_ERROR_SYSTEM_ERROR ->
      cancelled = (EXEC_ERROR_SYSTEM_ERROR, [], g_engine))
  /\ (snapshot.1 = EXEC_ERROR_SYSTEM_ERROR
      <-> g_engine = None \/ symbol = None \/ book = None)
  /\ (snapshot.1 <> EXEC_SUCCESS -> snapshot.2 = book)
  /\ (measured.1 = EXEC_ERROR_SYSTEM_ERROR <-> g_engine = None \/ metrics = None)
  /\ (measured.1 <> EXEC_SUCCESS -> measured.2 = metrics)
  /\ ((CApi.engine_start g_engine).1 = EXEC_ERROR_SYSTEM_ERROR
      <-> g_engine = None
          \/ exists e, g_engine = Some e /\ ExecutionEngine.initialized_ e = false)
  /\ ((CApi.engine_register_fill_callback g_engine callback).1
      = EXEC_ERROR_SYSTEM_ERROR <-> g_engine = None)
  /\ ((CApi.engine_register_status_callback g_engine callback).1
      = EXEC_ERROR_SYSTEM_ERROR <-> g_engine = None).
Proof.
  intros Hreachable submitted cancelled snapshot measured.
  subst submitted cancelled snapshot measured.
  destruct g_engine as [e|].
  2:{ repeat split; try tauto; try done; try (by left);
        try (by destruct request, response); try (by destruct order_id);
        try (by destruct symbol, book); try (by destruct metrics). }
  pose proof (Hreachable e eq_refl) as H.
  assert (Hsubmit : forall request response,
    (ExecutionEngine.submit_order e request response start_time end_time clock).1.1.1
    <> EXEC_ERROR_SYSTEM_ERROR) by (intros; apply submit_order_no_system_error).
  assert (Hcancel : forall order_id,
    (ExecutionEngine.cancel_order e order_id).1.1 <> EXEC_ERROR_SYSTEM_ERROR).
  { intros id. unfold ExecutionEngine.cancel_order.
    destruct (ExecutionEngine.active_orders_ e !! id) as [address|] eqn:Hm;
      [|discriminate].
    destruct (reachable_orders e H id address Hm) as (order & -> & _).
    by destruct (Order.is_active order). }
  assert (Hbook : forall symbol book,
    (ExecutionEngine.get_order_book e symbol book now_ns).1 <> EXEC_ERROR_SYSTEM_ERROR
    /\ ((ExecutionEngine.get_order_book e symbol book now_ns).1 <> EXEC_SUCCESS ->
        (ExecutionEngine.get_order_book e symbol book now_ns).1
        = EXEC_ERROR_INVALID_ORDER)).
  { intros s b. unfold ExecutionEngine.get_order_book.
    by destruct (ExecutionEngine.order_books_ e !! s). }
  split; [|split]; [| |split; [|split]]; [| | | |split; [|split]];
    [| | | | | |split; [|split]]; [| | | | | | | |split; [|split]].
  - unfold CApi.engine_submit_order.
    destruct request as [request|], response as [response|];
      try (split; [by intros _; right; (by left) || (by right)|reflexivity]).
    specialize (Hsubmit request response).
    destruct (ExecutionEngine.submit_order e request response start_time end_time clock)
      as [[[result e'] response'] events].
    cbn [fst] in *. split; [done|]. intros [?|[?|?]]; discriminate.
  - unfold CApi.engine_submit_order.
    destruct request as [request|], response as [response|]; try reflexivity.
    specialize (Hsubmit request response).
    destruct (ExecutionEngine.submit_order e request response start_time end_time clock)
      as [[[result e'] response'] events].
    cbn [fst] in *. done.
  - unfold CApi.engine_cancel_order. destruct order_id as [id|];
      [|split; [by right|reflexivity]].
    specialize (Hcancel id).
    destruct (ExecutionEngine.cancel_order e id) as [[result e'] events].
    cbn [fst] in *. split; [done|]. intros [?|?]; discriminate.
  - unfold CApi.engine_cancel_order. destruct order_id as [id|]; [|reflexivity].
    specialize (Hcancel id).
    destruct (ExecutionEngine.cancel_order e id) as [[result e'] events].
    cbn [fst] in *. done.
  - unfold CApi.engine_get_order_book.
    destruct symbol as [s|], book as [b|];
      try (split; [by intros _; right; (by left) || (by right)|reflexivity]).
    destruct (Hbook s (OrderBook.new s)) as [Hne _].
    destruct (ExecutionEngine.get_order_book e s (OrderBook.new s) now_ns)
      as [result cpp_book].
    cbn [fst] in *. case_bool_decide; cbn [fst];
      (split; [done|intros [?|[?|?]]; discriminate]).
  - unfold CApi.engine_get_order_book.
    destruct symbol as [s|], book as [b|]; try reflexivity.
    destruct (ExecutionEngine.get_order_book e s (OrderBook.new s) now_ns)
      as [result cpp_book].
    case_bool_decide; cbn [fst snd]; done.
  - unfold CApi.engine_get_metrics. destruct metrics as [m|]; cbn [fst].
    + split; [discriminate|intros [?|?]; discriminate].
    + split; [by right|reflexivity].
  - unfold CApi.engine_get_metrics. by destruct metrics as [m|].
  - unfold CApi.engine_start, ExecutionEngine.start.
    destruct (ExecutionEngine.initialized_ e) eqn:Hi; cbn [negb].
    + destruct (ExecutionEngine.running_ e); cbn [fst];
        (split; [discriminate|]); intros [?|(e' & [= <-] & ?)]; congruence.
    + cbn [fst]. split; [|reflexivity]. intros _. right. by exists e.
  - by split.
  - by split.
Qed.

(** A null request on the engine of the examples. *)
Lemma c_interface_system_error_witness :
  (CApi.engine_submit_order (Some Examples.quoted_engine) None
     (Some Examples.blank_response) 1000 5000 Examples.no_clock).1.1.1
  = EXEC_ERROR_SYSTEM_ERROR.
Proof.
  apply (proj1 (c_interface_system_error (Some Examples.quoted_engine) None
                  (Some Examples.blank_response) 1000 5000 Examples.no_clock
                  None None None None false 0
                  (fun e Heq =>
                     eq_ind Examples.quoted_engine reachable reachable_quoted_engine e
                            (f_equal (default Examples.quoted_engine) Heq)))).
  right. by left.
Defined.

Section WorkQueue.

(** Two engines that differ in the queue at most agree on every other
    member. *)
Lemma queue_apart_fields e1 e2 :
  queue_apart e1 e2 ->
  exists queue,
    e1 = ExecutionEngine.set_orders e2 (ExecutionEngine.orders_store_ e2)
                                    (ExecutionEngine.active_orders_ e2) queue.
Proof.
  unfold queue_apart. destruct e1, e2. cbn. intros [= -> -> -> -> -> -> -> -> -> -> -> ->].
  by eexists.
Qed.

End WorkQueue.

(** X24.  Nothing reads the work queue.  A turn of a worker changes the
    queue only, and two engines that differ in their queue at most give
    the same result, response and events to a submission, the same
    result and events to a cancellation, the same metrics, order book
    and health, and differ in their queue at most afterwards, also
    after [initialize], [start] and [stop]: whether and when the workers
    drain the queue has no effect on what the engine answers. *)
Theorem order_queue_is_never_read
    (e1 e2 : ExecutionEngine.t) (request : COrderRequest.t) (response : COrderResponse.t)
    (start_time end_time : Z) (clock : nat -> Z) (order_id symbol config_json : string)
    (book : OrderBook.t) (now_ns : Z) :
  queue_apart e1 e2 ->
  let submitted (e : ExecutionEngine.t) :=
    ExecutionEngine.submit_order e request response start_time end_time clock in
  let cancelled (e : ExecutionEngine.t) := ExecutionEngine.cancel_order e order_id in
  queue_apart (ExecutionEngine.process_order_queue e1) e2
  /\ (submitted e1).1.1.1 = (submitted e2).1.1.1
  /\ (submitted e1).1.2 = (submitted e2).1.2
  /\ (submitted e1).2 = (submitted e2).2
  /\ queue_apart (submitted e1).1.1.2 (submitted e2).1.1.2
  /\ (cancelled e1).1.1 = (cancelled e2).1.1
  /\ (cancelled e1).2 = (cancelled e2).2
  /\ queue_apart (cancelled e1).1.2 (cancelled e2).1.2
  /\ ExecutionEngine.get_metrics e1 now_ns = ExecutionEngine.get_metrics e2 now_ns
  /\ ExecutionEngine.get_order_book e1 symbol book now_ns
     = ExecutionEngine.get_order_book e2 symbol book now_ns
  /\ ExecutionEngine.is_healthy e1 = ExecutionEngine.is_healthy e2
  /\ queue_apart (ExecutionEngine.initialize e1 config_json).2
                 (ExecutionEngine.initialize e2 config_json).2
  /\ (ExecutionEngine.start e1).1 = (ExecutionEngine.start e2).1
  /\ queue_apart (ExecutionEngine.start e1).2 (ExecutionEngine.start e2).2
  /\ queue_apart (ExecutionEngine.stop e1).2 (ExecutionEngine.stop e2).2.
Proof.
  intros Hq submitted cancelled. subst submitted cancelled. cbv beta.
  destruct (queue_apart_fields e1 e2 Hq) as [queue ->]. clear Hq.
  set (e1 := ExecutionEngine.set_orders e2 _ _ queue).
  assert (Hrisk : forall order, passes_risk_check e1 order = passes_risk_check e2 order)
    by reflexivity.
  split.
  { unfold ExecutionEngine.process_order_queue.
    by destruct (ExecutionEngine.running_ e1). }
  assert (Hsubmit :
    let s1 :=
      ExecutionEngine.submit_order e1 request response start_time end_time clock in
    let s2 :=
      ExecutionEngine.submit_order e2 request response start_time end_time clock in
    s1.1.1.1 = s2.1.1.1 /\ s1.1.2 = s2.1.2 /\ s1.2 = s2.2
    /\ queue_apart s1.1.1.2 s2.1.1.2).
  { cbv zeta.
    destruct (Order.validate (Order.of_request request)) eqn:Hvalid;
      [|by rewrite !submit_order_invalid].
    destruct (passes_risk_check e2 (Order.of_request request)) eqn:Hr;
      [|by rewrite !submit_order_risk by (rewrite ?Hrisk; assumption)].
    rewrite !submit_order_accepted_engine by (rewrite ?Hrisk; assumption).
    cbn [fst snd].
    match goal with
    | |- context [ExecutionEngine.dispatch ?a clock ?o] =>
        rewrite (dispatch_same_market a
                   (ExecutionEngine.set_orders e2
                      (ExecutionEngine.orders_store_ e2 ++ [o])
                      (<[Order.order_id_ o := length (ExecutionEngine.orders_store_ e2)]>
                         (ExecutionEngine.active_orders_ e2))
                      (ExecutionEngine.order_queue_ e2
                       ++ [length (ExecutionEngine.orders_store_ e2)]))
                   clock o) by reflexivity
    end.
    by repeat split. }
  destruct Hsubmit as (Hs1 & Hs2 & Hs3 & Hs4).
  split; [exact Hs1|]. split; [exact Hs2|]. split; [exact Hs3|]. split; [exact Hs4|].
  assert (Hcancel :
    (ExecutionEngine.cancel_order e1 order_id).1.1
    = (ExecutionEngine.cancel_order e2 order_id).1.1
    /\ (ExecutionEngine.cancel_order e1 order_id).2
       = (ExecutionEngine.cancel_order e2 order_id).2
    /\ queue_apart (ExecutionEngine.cancel_order e1 order_id).1.2
                   (ExecutionEngine.cancel_order e2 order_id).1.2).
  { unfold ExecutionEngine.cancel_order.
    change (ExecutionEngine.active_orders_ e1) with (ExecutionEngine.active_orders_ e2).
    change (ExecutionEngine.orders_store_ e1) with (ExecutionEngine.orders_store_ e2).
    change (ExecutionEngine.status_callback_ e1)
      with (ExecutionEngine.status_callback_ e2).
    destruct (ExecutionEngine.active_orders_ e2 !! order_id) as [address|];
      [|by repeat split].
    destruct (ExecutionEngine.orders_store_ e2 !! address) as [order|];
      [|by repeat split].
    by destruct (Order.is_active order). }
  destruct Hcancel as (Hc1 & Hc2 & Hc3).
  split; [exact Hc1|]. split; [exact Hc2|]. split; [exact Hc3|].
  split; [reflexivity|]. split; [reflexivity|]. split; [reflexivity|].
  split; [reflexivity|].
  unfold ExecutionEngine.start.
  change (ExecutionEngine.initialized_ e1) with (ExecutionEngine.initialized_ e2).
  change (ExecutionEngine.running_ e1) with (ExecutionEngine.running_ e2).
  destruct (ExecutionEngine.initialized_ e2); [|by repeat split].
  destruct (ExecutionEngine.running_ e2); by repeat split.
Qed.

(** The engine with a resting order, before and after a worker has
    drained its queue. *)
Lemma order_queue_is_never_read_witness :
  let e := (Scenarios.submit Examples.quoted_engine Scenarios.passive_buy).1.1.2 in
  ExecutionEngine.order_queue_ e <> []
  /\ ExecutionEngine.order_queue_ (ExecutionEngine.process_order_queue e) = []
  /\ (ExecutionEngine.cancel_order (ExecutionEngine.process_order_queue e)
        (COrderRequest.order_id Scenarios.passive_buy)).1.1
     = (ExecutionEngine.cancel_order e
          (COrderRequest.order_id Scenarios.passive_buy)).1.1.
Proof.
  intros e. split; [vm_compute; discriminate|]. split; [vm_compute; reflexivity|].
  assert (Hq : queue_apart (ExecutionEngine.process_order_queue e) e)
    by (vm_compute; reflexivity).
  exact (proj1 (proj2 (proj2 (proj2 (proj2 (proj2
           (order_queue_is_never_read (ExecutionEngine.process_order_queue e) e
              Scenarios.passive_buy Examples.blank_response 1000 5000
              Examples.no_clock (COrderRequest.order_id Scenarios.passive_buy)
              "AAPL" "{}" (OrderBook.new "AAPL") 7 Hq))))))).
Defined.

Section Counts.

(** Only [submit_order] writes to the metrics object. *)
Lemma metrics_frame e order_id symbol price change now_ns :
  ExecutionEngine.metrics_ (ExecutionEngine.start e).2 = ExecutionEngine.metrics_ e
  /\ ExecutionEngine.metrics_ (ExecutionEngine.cancel_order e order_id).1.2
     = ExecutionEngine.metrics_ e
  /\ ExecutionEngine.metrics_
       (ExecutionEngine.simulate_symbol e symbol price change now_ns).2
     = ExecutionEngine.metrics_ e
  /\ ExecutionEngine.metrics_ (ExecutionEngine.process_order_queue e)
     = ExecutionEngine.metrics_ e.
Proof.
  split; [|split; [|split]].
  - unfold ExecutionEngine.start.
    by destruct (negb _), (ExecutionEngine.running_ e).
  - unfold ExecutionEngine.cancel_order.
    destruct (ExecutionEngine.active_orders_ e !! order_id) as [address|]; [|done].
    destruct (ExecutionEngine.orders_store_ e !! address) as [order|]; [|done].
    by destruct (Order.is_active order).
  - unfold ExecutionEngine.simulate_symbol.
    by destruct (ExecutionEngine.order_books_ e !! symbol).
  - unfold ExecutionEngine.process_order_queue.
    by destruct (ExecutionEngine.running_ e).
Qed.

(** The members of the metrics object that [record_fill] leaves alone. *)
Lemma metrics_after_counters m latency result order :
  let m' := metrics_after m latency result order in
  PerformanceMetrics.total_orders_processed_ m'
  = uint64_wrap (PerformanceMetrics.total_orders_processed_ m + 1)
  /\ PerformanceMetrics.active_orders_ m' = PerformanceMetrics.active_orders_ m
  /\ PerformanceMetrics.memory_usage_bytes_ m' = PerformanceMetrics.memory_usage_bytes_ m
  /\ PerformanceMetrics.cpu_usage_percent_ m' = PerformanceMetrics.cpu_usage_percent_ m
  /\ PerformanceMetrics.start_time_ m' = PerformanceMetrics.start_time_ m
  /\ length (PerformanceMetrics.latency_samples_ m')
     = (S (length (PerformanceMetrics.latency_samples_ m))
        `min` Z.to_nat PerformanceMetrics.MAX_LATENCY_SAMPLES)%nat.
Proof.
  cbv zeta. unfold metrics_after.
  assert (Hlen : forall success,
    length (PerformanceMetrics.latency_samples_
              (PerformanceMetrics.record_order_processed m latency success))
    = (S (length (PerformanceMetrics.latency_samples_ m))
       `min` Z.to_nat PerformanceMetrics.MAX_LATENCY_SAMPLES)%nat).
  { intros success.
    rewrite (proj1 (record_order_processed_samples m latency success)).
    rewrite length_drop, length_app. cbn [length].
    unfold PerformanceMetrics.MAX_LATENCY_SAMPLES. lia. }
  destruct (_ && _); repeat split; apply Hlen.
Qed.

End Counts.

(** X25.  In every state the engine reaches, [total_orders_processed]
    is the number of orders ever stored, modulo 2^64: the requests
    refused by validation or by the risk check are not counted; the
    active-orders map never has more entries than orders were stored;
    the latency buffer holds one sample for each of the last 10 000
    stored orders; and the memory usage, the CPU usage and the
    active-orders counter of the metrics object are never written, so
    the memory and CPU figures of every snapshot are 0. *)
Theorem engine_counts_invariant (e : ExecutionEngine.t) (now_ns : Z) :
  reachable e ->
  let stored := length (ExecutionEngine.orders_store_ e) in
  let m := ExecutionEngine.metrics_ e in
  let snapshot := ExecutionEngine.get_metrics e now_ns in
  PerformanceMetrics.total_orders_processed_ m = uint64_wrap (Z.of_nat stored)
  /\ (size (ExecutionEngine.active_orders_ e) <= stored)%nat
  /\ length (PerformanceMetrics.latency_samples_ m)
     = (stored `min` Z.to_nat PerformanceMetrics.MAX_LATENCY_SAMPLES)%nat
  /\ PerformanceMetrics.active_orders_ m = 0
  /\ PerformanceMetrics.memory_usage_bytes_ m = 0
  /\ PerformanceMetrics.cpu_usage_percent_ m = 0%float
  /\ CEngineMetrics.total_orders_processed snapshot = uint64_wrap (Z.of_nat stored)
  /\ 0 <= CEngineMetrics.active_orders snapshot <= Z.of_nat stored
  /\ CEngineMetrics.memory_usage_bytes snapshot = 0
  /\ CEngineMetrics.cpu_usage_percent snapshot = 0%float.
Proof.
  intros H stored m snapshot. subst stored m snapshot.
  assert (Hinv :
    PerformanceMetrics.total_orders_processed_ (ExecutionEngine.metrics_ e)
    = uint64_wrap (Z.of_nat (length (ExecutionEngine.orders_store_ e)))
    /\ (size (ExecutionEngine.active_orders_ e)
        <= length (ExecutionEngine.orders_store_ e))%nat
    /\ length (PerformanceMetrics.latency_samples_ (ExecutionEngine.metrics_ e))
       = (length (ExecutionEngine.orders_store_ e)
          `min` Z.to_nat PerformanceMetrics.MAX_LATENCY_SAMPLES)%nat
    /\ PerformanceMetrics.active_orders_ (ExecutionEngine.metrics_ e) = 0
    /\ PerformanceMetrics.memory_usage_bytes_ (ExecutionEngine.metrics_ e) = 0
    /\ PerformanceMetrics.cpu_usage_percent_ (ExecutionEngine.metrics_ e) = 0%float).
  { induction H as [now|e config_json _ IH|e _ IH|e _ IH
                   |e request response start_time end_time clock _ IH
                   |e order_id _ IH|e _ IH|e _ IH|e symbol price change now _ IH
                   |e _ IH].
    - by repeat split.
    - exact IH.
    - destruct (start_frame e) as (_ & -> & -> & _).
      by rewrite (proj1 (metrics_frame e EmptyString EmptyString (Price.of_ticks 0)
                           0%float 0)).
    - exact IH.
    - destruct (Order.validate (Order.of_request request)) eqn:Hvalid;
        [|by rewrite submit_order_invalid].
      destruct (passes_risk_check e (Order.of_request request)) eqn:Hrisk;
        [|by rewrite submit_order_risk].
      rewrite submit_order_accepted_engine by assumption.
      cbn [fst snd ExecutionEngine.metrics_ ExecutionEngine.orders_store_
             ExecutionEngine.active_orders_].
      match goal with
      | |- context [metrics_after ?m ?l ?r ?o] =>
          destruct (metrics_after_counters m l r o)
            as (-> & -> & -> & -> & _ & ->)
      end.
      destruct IH as (-> & Hsize & -> & Hrest). rewrite length_app. cbn [length].
      split; [|split; [|split; [|exact Hrest]]].
      + unfold uint64_wrap. rewrite Zplus_mod_idemp_l. f_equal. lia.
      + match goal with
        | |- (size (<[?i := ?x]> ?m) <= _)%nat =>
            destruct (m !! i) eqn:Hm;
            [rewrite map_size_insert_Some by (by eexists)
            |rewrite map_size_insert_None by exact Hm]
        end; lia.
      + unfold PerformanceMetrics.MAX_LATENCY_SAMPLES. lia.
    - rewrite (proj1 (proj2 (metrics_frame e order_id EmptyString (Price.of_ticks 0)
                               0%float 0))).
      unfold ExecutionEngine.cancel_order.
      destruct (ExecutionEngine.active_orders_ e !! order_id) as [address|] eqn:Hm;
        [|exact IH].
      destruct (ExecutionEngine.orders_store_ e !! address) as [order|];
        [|exact IH].
      destruct (Order.is_active order); [|exact IH].
      destruct IH as (Ht & Hsize & Hl & Hrest).
      cbn [fst snd negb ExecutionEngine.set_orders ExecutionEngine.orders_store_
             ExecutionEngine.active_orders_].
      rewrite length_insert, map_size_delete_Some by (by eexists).
      repeat split; try assumption; try apply Hrest. lia.
    - exact IH.
    - exact IH.
    - destruct (simulate_symbol_frame e symbol price change now)
        as (_ & _ & _ & _ & -> & -> & _).
      by rewrite (proj1 (proj2 (proj2 (metrics_frame e EmptyString symbol price
                                          change now)))).
    - destruct (process_order_queue_frame e) as (_ & _ & _ & _ & -> & -> & _).
      by rewrite (proj2 (proj2 (proj2 (metrics_frame e EmptyString EmptyString
                                          (Price.of_ticks 0) 0%float 0)))). }
  destruct Hinv as (Ht & Hsize & Hl & Ha & Hmem & Hcpu).
  repeat split; try assumption;
    cbn [ExecutionEngine.get_metrics CEngineMetrics.active_orders]; lia.
Qed.

(** The engine after one accepted and one refused order: one order is
    counted. *)
Lemma engine_counts_invariant_witness :
  let e1 := (Scenarios.submit Examples.quoted_engine Scenarios.market_buy).1.1.2 in
  let e2 := (Scenarios.submit e1 FurtherExamples.oversized_buy).1.1.2 in
  PerformanceMetrics.total_orders_processed_ (ExecutionEngine.metrics_ e2) = 1.
Proof.
  intros e1 e2.
  exact (proj1 (engine_counts_invariant e2 0
                  (reachable_submit_order _ _ _ _ _ _
                     (reachable_submit_order _ _ _ _ _ _ reachable_quoted_engine)))).
Defined.

(* ===================================================================== *)
(** ** The books the engine keeps have one level *)
(* ===================================================================== *)

Section OneLevel.

(** [x < y] excludes [y <= x]. *)
Lemma ltb_leb_false (x y : float) : (x <? y)%float = true -> (y <=? x)%float = false.
Proof.
  rewrite ltb_spec, leb_spec. unfold SFltb, SFleb, SFcompare.
  destruct (Prim2SF x) as [s1|s1| |s1 m1 e1], (Prim2SF y) as [s2|s2| |s2 m2 e2];
    try destruct s1; try destruct s2; try discriminate; try reflexivity;
    rewrite (Z.compare_antisym e1 e2); destruct (e1 ?= e2); cbn [CompOpp];
    try discriminate; try reflexivity;
    pose proof (Pos.compare_cont_antisym m1 m2 Eq) as Hanti;
    change (CompOpp Eq) with Eq in Hanti; rewrite <- Hanti;
    destruct (Pos.compare_cont Eq m1 m2); cbn [CompOpp]; try discriminate;
    reflexivity.
Qed.

(** Only level 0 of a book of the engine is ever written, and only by
    the simulator, with the size 1000. *)
Lemma reachable_book_shape e :
  reachable e ->
  forall symbol book,
    ExecutionEngine.order_books_ e !! symbol = Some book ->
    exists bid ask,
      OrderBook.bids_ book = bid :: replicate 19 OrderBookLevel.empty
      /\ OrderBook.asks_ book = ask :: replicate 19 OrderBookLevel.empty
      /\ (bid = OrderBookLevel.empty \/ OrderBookLevel.size_ bid = 1000%float)
      /\ (ask = OrderBookLevel.empty \/ OrderBookLevel.size_ ask = 1000%float).
Proof.
  induction 1 as [now|e config_json _ IH|e _ IH|e _ IH
                 |e request response start_time end_time clock _ IH
                 |e order_id _ IH|e _ IH|e _ IH|e symbol' price change now _ IH
                 |e _ IH];
    intros symbol book.
  - simpl. by rewrite lookup_empty.
  - rewrite initialize_books. case_bool_decide; [|apply IH].
    intros [= <-]. exists OrderBookLevel.empty, OrderBookLevel.empty.
    repeat split; by left.
  - destruct (start_frame e) as (_ & _ & _ & -> & _). apply IH.
  - apply IH.
  - destruct (submit_order_frame e request response start_time end_time clock)
      as (_ & _ & _ & _ & -> & _).
    apply IH.
  - destruct (cancel_order_frame e order_id) as (_ & _ & _ & _ & -> & _). apply IH.
  - apply IH.
  - apply IH.
  - unfold ExecutionEngine.simulate_symbol.
    destruct (ExecutionEngine.order_books_ e !! symbol') as [book'|] eqn:Hbook';
      [|apply IH].
    cbn [snd ExecutionEngine.set_order_books ExecutionEngine.order_books_].
    destruct (decide (symbol' = symbol)) as [->|Hne];
      [|rewrite lookup_insert_ne by done; apply IH].
    rewrite lookup_insert_eq. intros [= <-].
    destruct (IH _ _ Hbook') as (bid & ask & Hbids & Hasks & _).
    unfold OrderBook.update_ask, OrderBook.update_bid.
    change (OrderBook.ORDER_BOOK_DEPTH <=? 0)%nat with false. cbv iota.
    cbn [OrderBook.bids_ OrderBook.asks_]. rewrite Hbids, Hasks.
    eexists _, _. split; [reflexivity|]. split; [reflexivity|]. split; by right.
  - destruct (process_order_queue_frame e) as (_ & _ & _ & _ & _ & _ & -> & _).
    apply IH.
Qed.

(** A valid level of such a book offers 1000. *)
Lemma one_level_valid level :
  level = OrderBookLevel.empty \/ OrderBookLevel.size_ level = 1000%float ->
  OrderBookLevel.is_valid level = true ->
  OrderBookLevel.get_size level = 1000%float.
Proof. intros [->|Hsize] Hvalid; [discriminate|exact Hsize]. Qed.

(** The walk of a market order over a side with one level. *)
Lemma market_walk_one_level quantity top :
  (quantity <=? 0)%float = false ->
  OrderBook.market_walk quantity (top :: replicate 19 OrderBookLevel.empty)
  = if OrderBookLevel.is_valid top
    then [(OrderBookLevel.get_price top,
           std_min quantity (OrderBookLevel.get_size top))]
    else [].
Proof.
  intros Hpos. cbn [OrderBook.market_walk replicate]. rewrite Hpos.
  by destruct (OrderBookLevel.is_valid top).
Qed.

(** The liquidity walk over a side with one level. *)
Lemma liquidity_walk_one_level out_of_limit quantity top :
  OrderBook.liquidity_walk out_of_limit quantity 0%float
                           (top :: replicate 19 OrderBookLevel.empty)
  = OrderBookLevel.is_valid top
    && negb (out_of_limit (OrderBookLevel.get_price top))
    && (quantity <=? 0 + OrderBookLevel.get_size top)%float.
Proof.
  cbn [OrderBook.liquidity_walk replicate].
  destruct (OrderBookLevel.is_valid top); [|reflexivity].
  destruct (out_of_limit _); [reflexivity|].
  by destruct (quantity <=? _)%float.
Qed.

End OneLevel.

(** X26.  The books of the engine have one level: only level 0 is ever
    written, by the simulator, with the size 1000, and the deeper levels
    stay empty.  So a market order meets one level at most.  If the top
    of the opposing side is valid the order succeeds with one fill: an
    order of up to 1000 is FILLED for its quantity, a larger one is
    PARTIALLY_FILLED for 1000, and the remainder is never matched; if
    the top is not valid the result is INSUFFICIENT_LIQUIDITY.  A limit
    order is filled, for its whole quantity, only if its quantity is at
    most 1000. *)
Theorem engine_books_have_one_level
    (e : ExecutionEngine.t) (request : COrderRequest.t) (response : COrderResponse.t)
    (start_time end_time : Z) (clock : nat -> Z) (book : OrderBook.t) :
  let quantity := COrderRequest.quantity request in
  let out := ExecutionEngine.submit_order e request response start_time end_time clock in
  let top :=
    OrderBook.level_at (opposing_levels book (COrderRequest.side request)) 0 in
  reachable e ->
  ExecutionEngine.order_books_ e !! COrderRequest.symbol request = Some book ->
  Order.validate (Order.of_request request) = true ->
  (1000000 <? quantity)%float = false ->
  Prim2SF quantity <> S754_nan ->
  (forall level, (0 < level)%nat ->
     OrderBook.get_bid_size book level = 0%float
     /\ OrderBook.get_ask_size book level = 0%float)
  /\ (COrderRequest.order_type request = ORDER_TYPE_MARKET ->
      if OrderBookLevel.is_valid top
      then out.1.1.1 = EXEC_SUCCESS
           /\ COrderResponse.executed_quantity out.1.2
              = (if (1000 <? quantity)%float then 1000%float else quantity)
           /\ COrderResponse.status out.1.2
              = (if (1000 <? quantity)%float
                 then ORDER_STATUS_PARTIALLY_FILLED else ORDER_STATUS_FILLED)
           /\ length out.2 = (if ExecutionEngine.fill_callback_ e then 1 else 0)%nat
      else out.1.1.1 = EXEC_ERROR_INSUFFICIENT_LIQUIDITY
           /\ COrderResponse.executed_quantity out.1.2 = 0%float
           /\ COrderResponse.status out.1.2 = ORDER_STATUS_PENDING)
  /\ (COrderRequest.order_type request = ORDER_TYPE_LIMIT ->
      out.1.1.1 = EXEC_SUCCESS
      /\ ((COrderResponse.status out.1.2 = ORDER_STATUS_SUBMITTED
           /\ COrderResponse.executed_quantity out.1.2 = 0%float)
          \/ (COrderResponse.status out.1.2 = ORDER_STATUS_FILLED
              /\ COrderResponse.executed_quantity out.1.2 = quantity
              /\ (quantity <=? 1000)%float = true))).
Proof.
  intros quantity out top H Hbook Hvalid Hlimit Hnan. subst out.
  destruct (reachable_book_shape e H _ _ Hbook) as (bid & ask & Hbids & Hasks & Hbid & Hask).
  assert (Hpos : (quantity <=? 0)%float = false) by exact (validate_quantity _ Hvalid).
  assert (Hrisk : passes_risk_check e (Order.of_request request) = true).
  { unfold passes_risk_check. rewrite (reachable_config e H).
    cbn [ExecutionEngine.Config.enable_risk_checks
           ExecutionEngine.Config.max_position_size ExecutionEngine.Config.default
           Order.quantity_ Order.of_request andb].
    fold quantity. by rewrite Hlimit. }
  assert (Htop : OrderBookLevel.is_valid top = true ->
                 OrderBookLevel.get_size top = 1000%float).
  { subst top. unfold opposing_levels.
    destruct (COrderRequest.side request); rewrite ?Hasks, ?Hbids;
      by apply one_level_valid. }
  assert (Hlevels :
    opposing_levels book (COrderRequest.side request)
    = top :: replicate 19 OrderBookLevel.empty).
  { subst top. unfold opposing_levels.
    destruct (COrderRequest.side request); by rewrite ?Hasks, ?Hbids. }
  split; [|split].
  - intros level Hlevel. unfold OrderBook.get_bid_size, OrderBook.get_ask_size.
    destruct (_ <=? _)%nat; [done|]. rewrite Hbids, Hasks.
    destruct level as [|level]; [lia|]. unfold OrderBook.level_at.
    change ((bid :: replicate 19 OrderBookLevel.empty) !! S level)
      with (replicate 19 OrderBookLevel.empty !! level).
    change ((ask :: replicate 19 OrderBookLevel.empty) !! S level)
      with (replicate 19 OrderBookLevel.empty !! level).
    destruct (replicate 19 OrderBookLevel.empty !! level) as [l|] eqn:Hl; [|done].
    apply lookup_replicate in Hl as [-> _]. done.
  - intros Htype.
    rewrite submit_order_accepted_engine by assumption.
    cbn [fst snd COrderResponse.executed_quantity COrderResponse.status].
    unfold ExecutionEngine.dispatch, Order.get_type.
    change (Order.type_ (Order.of_request request))
      with (COrderRequest.order_type request).
    rewrite Htype, execute_market_order_eq.
    cbn [ExecutionEngine.set_orders ExecutionEngine.order_books_
           ExecutionEngine.fill_callback_].
    change (Order.symbol_ (Order.of_request request))
      with (COrderRequest.symbol request).
    change (Order.side_ (Order.of_request request)) with (COrderRequest.side request).
    change (Order.quantity_ (Order.of_request request)) with quantity.
    rewrite Hbook. cbv zeta.
    assert (Hfills :
      OrderBook.get_fills_for_market_order book (COrderRequest.side request) quantity
      = if OrderBookLevel.is_valid top
        then [(OrderBookLevel.get_price top,
               std_min quantity (OrderBookLevel.get_size top))]
        else []).
    { rewrite <- (market_walk_one_level quantity top Hpos), <- Hlevels.
      unfold OrderBook.get_fills_for_market_order, opposing_levels.
      by destruct (COrderRequest.side request). }
    rewrite Hfills.
    destruct (OrderBookLevel.is_valid top) eqn:Hv.
    2:{ rewrite bool_decide_eq_true_2 by reflexivity. by repeat split. }
    rewrite bool_decide_eq_false_2 by discriminate. rewrite (Htop eq_refl).
    cbn [fst snd]. split; [reflexivity|].
    unfold add_fills. cbn [foldl fst snd].
    unfold Order.add_fill.
    cbn [Order.filled_quantity_ Order.status_ Order.quantity_ Order.of_request].
    fold quantity. unfold std_min.
    destruct (1000 <? quantity)%float eqn:Hbig.
    + change (0 + 1000)%float with 1000%float.
      rewrite (ltb_leb_false _ _ Hbig).
      split; [reflexivity|]. split; [reflexivity|].
      by destruct (ExecutionEngine.fill_callback_ e).
    + rewrite (add_zero_l_positive _ Hnan Hpos), (leb_refl _ Hnan).
      split; [reflexivity|]. split; [reflexivity|].
      by destruct (ExecutionEngine.fill_callback_ e).
  - intros Htype.
    rewrite submit_order_accepted_engine by assumption.
    cbn [fst snd COrderResponse.executed_quantity COrderResponse.status].
    unfold ExecutionEngine.dispatch, Order.get_type.
    change (Order.type_ (Order.of_request request))
      with (COrderRequest.order_type request).
    rewrite Htype.
    rewrite (execute_limit_order_eq _ _ book) by exact Hbook.
    destruct (limit_crosses _ _ _); cbn [andb]; [|split; [reflexivity|by left]].
    destruct (OrderBook.has_sufficient_liquidity _ _ _ _) eqn:Hliquid;
      [|split; [reflexivity|by left]].
    cbn [fst snd]. split; [reflexivity|]. right.
    destruct (add_fill_whole_quantity request
                (Order.price_ (Order.of_request request)) Hnan Hpos)
      as (_ & Hfilled & Hstatus & _).
    cbv zeta in Hfilled, Hstatus. rewrite Hfilled, Hstatus.
    split; [reflexivity|]. split; [reflexivity|].
    revert Hliquid. unfold OrderBook.has_sufficient_liquidity.
    change (Order.side_ (Order.of_request request)) with (COrderRequest.side request).
    change (Order.quantity_ (Order.of_request request)) with quantity.
    assert (Hwalk : forall out_of_limit,
      OrderBook.liquidity_walk out_of_limit quantity 0%float
        (opposing_levels book (COrderRequest.side request)) = true ->
      (quantity <=? 1000)%float = true).
    { intros out_of_limit. rewrite Hlevels, liquidity_walk_one_level.
      destruct (OrderBookLevel.is_valid top) eqn:Hv; [|discriminate].
      rewrite (Htop eq_refl). change (0 + 1000)%float with 1000%float.
      by destruct (negb _). }
    unfold opposing_levels in Hwalk.
    destruct (COrderRequest.side request); apply Hwalk.
Qed.

(** The market order of the scenarios, 100 shares on the quoted engine. *)
Lemma engine_books_have_one_level_witness :
  COrderResponse.status
    (Scenarios.submit Examples.quoted_engine Scenarios.market_buy).1.2
  = ORDER_STATUS_FILLED.
Proof.
  pose proof (engine_books_have_one_level Examples.quoted_engine Scenarios.market_buy
                Examples.blank_response 1000 5000 Examples.no_clock
                LimitExamples.quoted_book reachable_quoted_engine) as H.
  cbv zeta in H.
  destruct H as (_ & Hmarket & _);
    [vm_compute; reflexivity|reflexivity|reflexivity|discriminate|].
  exact (proj1 (proj2 (proj2 (Hmarket eq_refl)))).
Defined.
